(** * VoteBlock: ledger, transaction pool, rule engine and monitoring

    A shallow embedding of the services of the e-voting ledger
    ([TransactionManager], [EnhancedBlockchainService],
    [SmartContractService], [BlockchainMonitoringService]) and the
    properties of its specification that were checked against them.

    JavaScript numbers that the code only ever uses as integers
    (timestamps in milliseconds, gas, counters) are [Z]; a block index is
    a [JSNum], which adds the one non-integer value that changes the
    outcome of the code's [!==] test.  Quotients (means, rates, durations
    in days) are exact rationals [Q]. *)

From Stdlib Require Import ZArith QArith Qround List String Ascii Bool Arith.
From Stdlib Require Import Lia DecimalString Permutation Sorted.
Import ListNotations.

Local Open Scope string_scope.
Local Open Scope list_scope.
Local Open Scope Z_scope.

(** ** JavaScript values *)

(** A number as far as the ledger distinguishes them: an integer or NaN. *)
Inductive JSNum : Type :=
| Num (z : Z)
| NaN.

(** [n + 1] *)
Definition js_succ (n : JSNum) : JSNum :=
  match n with
  | Num z => Num (z + 1)
  | NaN => NaN
  end.

(** [a === b] on numbers: NaN is equal to nothing, itself included. *)
Definition js_num_eqb (a b : JSNum) : bool :=
  match a, b with
  | Num x, Num y => x =? y
  | _, _ => false
  end.

(** Truthiness of a string: only the empty string is falsy. *)
Definition str_truthy (s : string) : bool := negb (String.eqb s "").

(** [s || d] on strings that may be undefined. *)
Definition str_or (s : option string) (d : string) : string :=
  match s with
  | Some v => if str_truthy v then v else d
  | None => d
  end.

(** The payload of a transaction has type [any]. *)
Inductive JSData : Type :=
| DUndefined
| DNull
| DBool (b : bool)
| DNumber (n : JSNum)
| DString (s : string)
| DObject (fields : list (string * string)).

Definition data_truthy (d : JSData) : bool :=
  match d with
  | DUndefined | DNull => false
  | DBool b => b
  | DNumber (Num z) => negb (z =? 0)
  | DNumber NaN => false
  | DString s => str_truthy s
  | DObject _ => true
  end.

(** What an asynchronous service call amounts to: it returns, it throws, or
    (for the proof-of-work nonce search only) it yields nothing within the
    nonces it was given. *)
Inductive result (A : Type) : Type :=
| Return (a : A)
| Throw (msg : string)
| NoResult.
Arguments Return {A} a.
Arguments Throw {A} msg.
Arguments NoResult {A}.

Definition returned {A : Type} (r : result A) : bool :=
  match r with
  | Return _ => true
  | _ => false
  end.

(** [q1 < q2] and [q1 > q2] on exact rationals, as booleans. *)
Definition Qltb (a b : Q) : bool := negb (Qle_bool b a).
Definition Qgtb (a b : Q) : bool := Qltb b a.

(** ** Data model (types.ts, as the services use it) *)

Inductive TxStatus : Type := Pending | Confirmed | Failed.

Definition status_eqb (a b : TxStatus) : bool :=
  match a, b with
  | Pending, Pending | Confirmed, Confirmed | Failed, Failed => true
  | _, _ => false
  end.

Record BlockchainTransaction : Type := mkTx {
  tx_id : string;
  tx_type : string;
  tx_from : string;
  tx_to : option string;
  tx_data : JSData;
  tx_timestamp : Z;
  tx_signature : string;
  tx_status : TxStatus;
  tx_gasLimit : Z;
  tx_gasUsed : Z;
  tx_blockIndex : option JSNum
}.

(** The payload of a block: the genesis record or the batch summary. *)
Inductive BlockData : Type :=
| GenesisData (timestamp : Z) (networkId : string)
| BatchData (networkId : string) (transactionCount : nat).

Record BlockchainBlock : Type := mkBlock {
  b_index : JSNum;
  b_timestamp : Z;
  b_data : BlockData;
  b_previousHash : string;
  b_hash : string;
  b_nonce : Z;
  b_validator : string;
  b_signature : string;
  b_transactions : option (list BlockchainTransaction);
  b_merkleRoot : string;
  b_gasUsed : Z;
  b_difficulty : Z
}.

Inductive NodeType : Type := Validator | Peer | Light.
Inductive NodeStatus : Type := Active | Inactive.

Record BlockchainNode : Type := mkNode {
  n_id : string;
  n_address : string;
  n_type : NodeType;
  n_status : NodeStatus;
  n_lastSeen : Z;
  n_blocksValidated : Z;
  n_reputation : Z;
  n_stake : Z
}.

Inductive Mechanism : Type := PoA | PoW.

Record ConsensusState : Type := mkConsensus {
  c_mechanism : Mechanism;
  c_currentValidator : option string;
  c_validators : list string;
  c_epoch : Z;
  c_blockTime : Z;
  c_difficulty : Z
}.

(** ** The runtime the services call into

    [CryptoService.generateHash], [JSON.stringify] and the rendering of
    numbers and dates inside template literals are outside the services;
    the embedding is parametric in them. *)
Class Runtime : Type := {
  generateHash : string -> string;
  show_num : JSNum -> string;
  show_date : Z -> string;
  stringify_data : BlockData -> string;
  stringify_tx : BlockchainTransaction -> string;
  (** [JSON.stringify({id, type, from, to, data, timestamp})] *)
  stringify_signed :
    string -> string -> string -> option string -> JSData -> Z -> string
}.

(** ** Storage

    Modelled from the spec: [StorageService] (storageService.ts is not
    among the sources) is "a durable mapping from string key to arbitrary
    structured value" with "get/set of whole logical collections": what
    [getItem] returns is the value last given to [setItem] under that key,
    and nothing ([None]) before the first [setItem]. *)
Record Store : Type := mkStore {
  st_chain : option (list BlockchainBlock);
  st_nodes : option (list BlockchainNode);
  st_consensus : option ConsensusState;
  st_pool : option (list BlockchainTransaction)
}.

Definition set_chain (c : list BlockchainBlock) (st : Store) : Store :=
  mkStore (Some c) (st_nodes st) (st_consensus st) (st_pool st).
Definition set_nodes (n : list BlockchainNode) (st : Store) : Store :=
  mkStore (st_chain st) (Some n) (st_consensus st) (st_pool st).
Definition set_consensus (c : ConsensusState) (st : Store) : Store :=
  mkStore (st_chain st) (st_nodes st) (Some c) (st_pool st).
Definition set_pool (p : list BlockchainTransaction) (st : Store) : Store :=
  mkStore (st_chain st) (st_nodes st) (st_consensus st) (Some p).

(** [pool.find(p)] followed by an in-place update of the entry found: the
    first entry that satisfies [p] is replaced, [None] when there is none. *)
Fixpoint update_first {A : Type} (p : A -> bool) (f : A -> A) (l : list A)
  : option (list A) :=
  match l with
  | [] => None
  | x :: rest =>
      if p x then Some (f x :: rest)
      else match update_first p f rest with
           | Some rest' => Some (x :: rest')
           | None => None
           end
  end.

(** [Array.prototype.sort(compare)]: the sort is stable, and for a
    comparator that orders its arguments consistently the sorted array is
    the one a stable insertion sort gives.  [compare a b > 0] puts [a] after
    [b]. *)
Fixpoint js_insert {A : Type} (compare : A -> A -> Z) (x : A)
    (sorted : list A) : list A :=
  match sorted with
  | [] => [x]
  | y :: rest =>
      if 0 <? compare x y then y :: js_insert compare x rest
      else x :: y :: rest
  end.

Fixpoint js_sort {A : Type} (compare : A -> A -> Z) (l : list A) : list A :=
  match l with
  | [] => []
  | x :: rest => js_insert compare x (js_sort compare rest)
  end.

(** The names under which every object finds a member of
    [Object.prototype].  For an object literal [o] and one of these names
    [k] that is no key of [o] itself, [o[k]] is that member, a function or
    an object: it is truthy, it is not [undefined] and it is not a number. *)
Definition objectPrototypeMembers : list string :=
  ["constructor"; "__defineGetter__"; "__defineSetter__"; "hasOwnProperty";
   "__lookupGetter__"; "__lookupSetter__"; "isPrototypeOf";
   "propertyIsEnumerable"; "toString"; "valueOf"; "__proto__";
   "toLocaleString"].

Definition inheritedMember (key : string) : bool :=
  existsb (String.eqb key) objectPrototypeMembers.

(** [o[k]] and [o[k] = v] on an object used as a map from strings to
    numbers; keys keep their insertion order.  These are the reads and
    writes of the object's own keys: the key ['__proto__'], which an
    assignment of a number does not store and which reads as
    [Object.prototype], is outside them. *)
Definition obj_get (k : string) (o : list (string * Z)) : option Z :=
  match find (fun kv => String.eqb (fst kv) k) o with
  | Some (_, v) => Some v
  | None => None
  end.

Fixpoint obj_set (k : string) (v : Z) (o : list (string * Z))
  : list (string * Z) :=
  match o with
  | [] => [(k, v)]
  | (k', v') :: rest =>
      if String.eqb k' k then (k', v) :: rest else (k', v') :: obj_set k v rest
  end.

(** The [{ valid, reason? }] objects the validation procedures return. *)
Inductive Validation : Type :=
| Valid
| Invalid (reason : string).

(** ** TransactionManager *)
Module TransactionManager.

Definition MAX_POOL_SIZE : nat := 1000.
Definition BATCH_SIZE : nat := 10.

Definition getTransactionPool (st : Store) : list BlockchainTransaction :=
  match st_pool st with
  | Some p => p
  | None => []
  end.

Definition initialize (st : Store) : Store :=
  match st_pool st with
  | Some _ => st
  | None => set_pool [] st
  end.

Definition calculateGasLimit (type : string) : Z :=
  if String.eqb type "vote" then 100
  else if String.eqb type "election_create" then 500
  else if String.eqb type "election_update" then 300
  else if String.eqb type "voter_register" then 200
  else if String.eqb type "smart_contract" then 1000
  else 100.

Definition signTransaction `{Runtime} (t : BlockchainTransaction) : string :=
  generateHash
    (stringify_signed (tx_id t) (tx_type t) (tx_from t) (tx_to t)
       (tx_data t) (tx_timestamp t)).

(** [uuid] is the value of [crypto.randomUUID()], [now] of [new Date()]. *)
Definition createTransaction `{Runtime} (uuid : string) (now : Z)
    (type from : string) (data : JSData) (to : option string)
  : BlockchainTransaction :=
  let transaction :=
    mkTx uuid type from to data now "" Pending (calculateGasLimit type) 0
      None in
  mkTx uuid type from to data now (signTransaction transaction) Pending
    (calculateGasLimit type) 0 None.

Definition validTypes : list string :=
  ["vote"; "election_create"; "election_update"; "voter_register";
   "smart_contract"].

Definition validateTransaction (t : BlockchainTransaction) : Validation :=
  if negb (str_truthy (tx_id t)) || negb (str_truthy (tx_signature t))
  then Invalid "Missing transaction ID or signature"
  else if negb (str_truthy (tx_from t))
  then Invalid "Missing sender address"
  else if negb (data_truthy (tx_data t))
  then Invalid "Missing transaction data"
  else if negb (existsb (String.eqb (tx_type t)) validTypes)
  then Invalid "Invalid transaction type"
  else Valid.

Definition submitTransaction (t : BlockchainTransaction) (st : Store)
  : result unit * Store :=
  match validateTransaction t with
  | Invalid reason =>
      (Throw ("Transaction validation failed: " ++ reason), st)
  | Valid =>
      let pool := getTransactionPool st in
      if (MAX_POOL_SIZE <=? List.length pool)%nat
      then (Throw "Transaction pool is full", st)
      else (Return tt, set_pool (pool ++ [t]) st)
  end.

Definition getPendingTransactions (limit : option nat) (st : Store)
  : list BlockchainTransaction :=
  let pending :=
    filter (fun t => status_eqb (tx_status t) Pending)
      (getTransactionPool st) in
  match limit with
  | Some (S n) => firstn (S n) pending
  | _ => pending
  end.

Definition getTransactionsByType (type : string) (st : Store)
  : list BlockchainTransaction :=
  filter (fun t => String.eqb (tx_type t) type) (getTransactionPool st).

Definition getTransactionById (id : string) (st : Store)
  : option BlockchainTransaction :=
  find (fun t => String.eqb (tx_id t) id) (getTransactionPool st).

Definition markTransactionConfirmed (transactionId : string)
    (blockIndex : JSNum) (gasUsed : Z) (st : Store) : Store :=
  match
    update_first (fun t => String.eqb (tx_id t) transactionId)
      (fun t =>
         mkTx (tx_id t) (tx_type t) (tx_from t) (tx_to t) (tx_data t)
           (tx_timestamp t) (tx_signature t) Confirmed (tx_gasLimit t)
           gasUsed (Some blockIndex))
      (getTransactionPool st)
  with
  | Some pool' => set_pool pool' st
  | None => st
  end.

Definition markTransactionFailed (transactionId : string) (st : Store)
  : Store :=
  match
    update_first (fun t => String.eqb (tx_id t) transactionId)
      (fun t =>
         mkTx (tx_id t) (tx_type t) (tx_from t) (tx_to t) (tx_data t)
           (tx_timestamp t) (tx_signature t) Failed (tx_gasLimit t)
           (tx_gasUsed t) (tx_blockIndex t))
      (getTransactionPool st)
  with
  | Some pool' => set_pool pool' st
  | None => st
  end.

Definition removePendingTransaction (transactionId : string) (st : Store)
  : Store :=
  set_pool
    (filter (fun t => negb (String.eqb (tx_id t) transactionId))
       (getTransactionPool st))
    st.

(** [now] is [Date.now()]; returns the number of entries removed. *)
Definition clearConfirmedTransactions (olderThan : option Z) (now : Z)
    (st : Store) : nat * Store :=
  let pool := getTransactionPool st in
  let cutoffTime :=
    match olderThan with
    | Some d => d
    | None => now - 24 * 60 * 60 * 1000
    end in
  let filteredPool :=
    filter
      (fun t =>
         if negb (status_eqb (tx_status t) Confirmed) then true
         else cutoffTime <? tx_timestamp t)
      pool in
  ((List.length pool - List.length filteredPool)%nat, set_pool filteredPool st).

(** [byType[k] = (byType[k] || 0) + 1]; keys keep their insertion order.
    This is the count for a key that is no [inheritedMember]: for such a
    name the code adds 1 to the inherited member, which gives a string,
    and under ['__proto__'] it stores nothing. *)
Fixpoint bump (k : string) (byType : list (string * nat))
  : list (string * nat) :=
  match byType with
  | [] => [(k, 1%nat)]
  | (k', n) :: rest =>
      if String.eqb k' k then (k', S n) :: rest else (k', n) :: bump k rest
  end.

Record TransactionStats : Type := mkStats {
  totalTransactions : nat;
  pendingTransactions : nat;
  confirmedTransactions : nat;
  failedTransactions : nat;
  transactionsByType : list (string * nat);
  averageGasUsed : Q
}.

(** The accumulators of the [forEach] of [getTransactionStats]. *)
Record StatsAcc : Type := mkAcc {
  acc_byType : list (string * nat);
  acc_totalGasUsed : Z;
  acc_confirmedCount : nat
}.

Definition stats_step (acc : StatsAcc) (t : BlockchainTransaction)
  : StatsAcc :=
  let byType := bump (tx_type t) (acc_byType acc) in
  if status_eqb (tx_status t) Confirmed && negb (tx_gasUsed t =? 0)
  then mkAcc byType (acc_totalGasUsed acc + tx_gasUsed t)
         (S (acc_confirmedCount acc))
  else mkAcc byType (acc_totalGasUsed acc) (acc_confirmedCount acc).

Definition count_status (s : TxStatus) (pool : list BlockchainTransaction)
  : nat :=
  List.length (filter (fun t => status_eqb (tx_status t) s) pool).

Definition getTransactionStats (st : Store) : TransactionStats :=
  let pool := getTransactionPool st in
  let acc := fold_left stats_step pool (mkAcc [] 0 0%nat) in
  mkStats (List.length pool)
    (count_status Pending pool)
    (count_status Confirmed pool)
    (count_status Failed pool)
    (acc_byType acc)
    (if (0 <? acc_confirmedCount acc)%nat
     then inject_Z (acc_totalGasUsed acc)
          / inject_Z (Z.of_nat (acc_confirmedCount acc))
     else 0%Q).

Definition verifyTransactionSignature `{Runtime} (t : BlockchainTransaction)
  : bool :=
  String.eqb (tx_signature t) (signTransaction t).

(** [priorityOrder[type] || 999]: the rank of one of the five types and 999
    for a type that the table does not hold; [None] for a type that is an
    [inheritedMember], where the value is that member and not a number. *)
Definition priorityOrder (type : string) : option Z :=
  if String.eqb type "vote" then Some 1
  else if String.eqb type "smart_contract" then Some 2
  else if String.eqb type "election_update" then Some 3
  else if String.eqb type "election_create" then Some 4
  else if String.eqb type "voter_register" then Some 5
  else if inheritedMember type then None
  else Some 999.

(** The comparator given to [pending.sort].  Two priorities of which one is
    an inherited member are different values, unless both are the member
    of one name, and their difference is NaN, which the sort takes for
    0. *)
Definition compareForBatch (a b : BlockchainTransaction) : Z :=
  match priorityOrder (tx_type a), priorityOrder (tx_type b) with
  | Some aPriority, Some bPriority =>
      if negb (aPriority =? bPriority) then aPriority - bPriority
      else tx_timestamp a - tx_timestamp b
  | None, None =>
      if negb (String.eqb (tx_type a) (tx_type b)) then 0
      else tx_timestamp a - tx_timestamp b
  | _, _ => 0
  end.

(** The comparator orders the pending entries consistently unless one of
    them has a type that is an [inheritedMember]; with such an entry the
    order that the sort leaves is the engine's, and [js_sort] gives one
    such order. *)
Definition getBatchForProcessing (st : Store) : list BlockchainTransaction :=
  let pending := getPendingTransactions None st in
  firstn BATCH_SIZE (js_sort compareForBatch pending).

End TransactionManager.

(** ** EnhancedBlockchainService *)
Module EnhancedBlockchainService.

Definition NETWORK_ID : string := "nigeria-evoting-mainnet".

Inductive Health : Type := Healthy | Degraded | Critical.

Definition getBlockchain (st : Store) : list BlockchainBlock :=
  match st_chain st with
  | Some c => c
  | None => []
  end.

Definition getNodes (st : Store) : list BlockchainNode :=
  match st_nodes st with
  | Some n => n
  | None => []
  end.

Definition getConsensusState (st : Store) : ConsensusState :=
  match st_consensus st with
  | Some c => c
  | None => mkConsensus PoA None [] 0 3000 3
  end.

Definition is_active_validator (n : BlockchainNode) : bool :=
  match n_type n, n_status n with
  | Validator, Active => true
  | _, _ => false
  end.

Definition getActiveValidators (st : Store) : list BlockchainNode :=
  filter is_active_validator (getNodes st).

(** Field updates of a block under construction. *)
Definition with_hash (h : string) (b : BlockchainBlock) : BlockchainBlock :=
  mkBlock (b_index b) (b_timestamp b) (b_data b) (b_previousHash b) h
    (b_nonce b) (b_validator b) (b_signature b) (b_transactions b)
    (b_merkleRoot b) (b_gasUsed b) (b_difficulty b).
Definition with_nonce (n : Z) (b : BlockchainBlock) : BlockchainBlock :=
  mkBlock (b_index b) (b_timestamp b) (b_data b) (b_previousHash b) (b_hash b)
    n (b_validator b) (b_signature b) (b_transactions b)
    (b_merkleRoot b) (b_gasUsed b) (b_difficulty b).
Definition with_signature (s : string) (b : BlockchainBlock)
  : BlockchainBlock :=
  mkBlock (b_index b) (b_timestamp b) (b_data b) (b_previousHash b) (b_hash b)
    (b_nonce b) (b_validator b) s (b_transactions b)
    (b_merkleRoot b) (b_gasUsed b) (b_difficulty b).
Definition with_gasUsed (g : Z) (b : BlockchainBlock) : BlockchainBlock :=
  mkBlock (b_index b) (b_timestamp b) (b_data b) (b_previousHash b) (b_hash b)
    (b_nonce b) (b_validator b) (b_signature b) (b_transactions b)
    (b_merkleRoot b) g (b_difficulty b).

Definition calculateHash `{Runtime} (block : BlockchainBlock) : string :=
  generateHash
    (show_num (b_index block) ++ show_date (b_timestamp block)
     ++ stringify_data (b_data block) ++ b_previousHash block
     ++ show_num (Num (b_nonce block)) ++ b_merkleRoot block).

(** One pass of the inner [for] loop: neighbours are hashed together, an
    odd last element is carried over. *)
Fixpoint merkle_level `{Runtime} (hashes : list string) : list string :=
  match hashes with
  | a :: b :: rest => generateHash (a ++ b) :: merkle_level rest
  | [a] => [a]
  | [] => []
  end.

(** [while (hashes.length > 1) hashes = newHashes], at most [fuel] times. *)
Fixpoint merkle_loop `{Runtime} (fuel : nat) (hashes : list string)
  : list string :=
  match fuel with
  | O => hashes
  | S fuel' =>
      if (1 <? List.length hashes)%nat
      then merkle_loop fuel' (merkle_level hashes)
      else hashes
  end.

Definition calculateMerkleRoot `{Runtime}
    (transactions : list BlockchainTransaction) : string :=
  match transactions with
  | [] => generateHash "empty"
  | _ =>
      hd ""
        (merkle_loop (List.length transactions)
           (map (fun tx => generateHash (stringify_tx tx)) transactions))
  end.

Definition signBlock `{Runtime} (block : BlockchainBlock) : string :=
  generateHash (show_num (b_index block) ++ b_hash block ++ b_validator block).

(** The two arguments are the two readings of [new Date()]. *)
Definition createGenesisBlock `{Runtime} (nowData now : Z) : BlockchainBlock :=
  let block :=
    mkBlock (Num 0) now (GenesisData nowData NETWORK_ID) "0" "" 0 "system" ""
      (Some []) (calculateMerkleRoot []) 0 0 in
  let block := with_hash (calculateHash block) block in
  with_signature (signBlock block) block.

Definition validateBlock `{Runtime} (newBlock previousBlock : BlockchainBlock)
  : result unit :=
  if negb (js_num_eqb (b_index newBlock) (js_succ (b_index previousBlock)))
  then Throw "Invalid block index"
  else if negb (String.eqb (b_previousHash newBlock) (b_hash previousBlock))
  then Throw "Invalid previous hash"
  else if negb (String.eqb (b_hash newBlock) (calculateHash newBlock))
  then Throw "Invalid block hash"
  else match b_transactions newBlock with
       | Some transactions =>
           if negb (String.eqb (b_merkleRoot newBlock)
                      (calculateMerkleRoot transactions))
           then Throw "Invalid merkle root"
           else Return tt
       | None => Return tt
       end.

(** The loop of [validateBlockchain] from position [i] on, [previousBlock]
    being [chain[i - 1]] and [rest] the blocks from [chain[i]]. *)
Fixpoint validate_from `{Runtime} (previousBlock : BlockchainBlock)
    (rest : list BlockchainBlock) : bool :=
  match rest with
  | [] => true
  | currentBlock :: rest' =>
      match validateBlock currentBlock previousBlock with
      | Return _ => validate_from currentBlock rest'
      | _ => false
      end
  end.

Definition validateChain `{Runtime} (chain : list BlockchainBlock) : bool :=
  match chain with
  | [] => true
  | first :: rest => validate_from first rest
  end.

Definition validateBlockchain `{Runtime} (st : Store) : bool :=
  validateChain (getBlockchain st).

Definition getBlockByHash (hash : string) (st : Store)
  : option BlockchainBlock :=
  find (fun block => String.eqb (b_hash block) hash) (getBlockchain st).

Definition getBlockByIndex (index : JSNum) (st : Store)
  : option BlockchainBlock :=
  find (fun block => js_num_eqb (b_index block) index) (getBlockchain st).

(** [now] is [new Date()]. *)
Definition createNode (uuid : string) (now : Z) (type : NodeType)
    (address : string) : BlockchainNode :=
  mkNode uuid address type Active now 0 100
    (match type with Validator => 1000000 | _ => 0 end).

(** [uuid k] is the value of the [k]-th call of [crypto.randomUUID()]. *)
Definition initializeNetwork (uuid : nat -> string) (now : Z) (st : Store)
  : Store :=
  match getNodes st with
  | [] =>
      set_nodes
        [createNode (uuid 0%nat) now Validator "INEC-Primary-Validator";
         createNode (uuid 1%nat) now Validator "INEC-Secondary-Validator";
         createNode (uuid 2%nat) now Validator "INEC-Tertiary-Validator";
         createNode (uuid 3%nat) now Peer "Regional-Node-Lagos";
         createNode (uuid 4%nat) now Peer "Regional-Node-Abuja";
         createNode (uuid 5%nat) now Peer "Regional-Node-Kano"]
        st
  | _ => st
  end.

Definition initializeConsensus (st : Store) : Store :=
  match st_consensus st with
  | Some _ => st
  | None =>
      let validators := filter is_active_validator (getNodes st) in
      set_consensus
        (mkConsensus PoA
           (match validators with v :: _ => Some (n_id v) | [] => None end)
           (map n_id validators) 0 3000 3)
        st
  end.

Definition initializeBlockchain `{Runtime} (uuid : nat -> string) (now : Z)
    (st : Store) : Store :=
  let st :=
    match st_chain st with
    | Some _ => st
    | None => set_chain [createGenesisBlock now now] st
    end in
  initializeConsensus (initializeNetwork uuid now st).

(** ['0'.repeat(n)] *)
Fixpoint zeros (n : nat) : string :=
  match n with
  | O => ""
  | S n' => String "0"%char (zeros n')
  end.

(** The nonce search: [nonces] are the successive values of
    [CryptoService.generateNonce()]; the search has no bound of its own and
    yields nothing when none of the nonces supplied meets the target. *)
Fixpoint mineBlockPoW `{Runtime} (nonces : list Z) (block : BlockchainBlock)
    (difficulty : nat) : option (BlockchainBlock * string) :=
  match nonces with
  | [] => None
  | nonce :: later =>
      let block := with_nonce nonce block in
      let hash := calculateHash block in
      if String.eqb (substring 0 difficulty hash) (zeros difficulty)
      then Some (block, hash)
      else mineBlockPoW later block difficulty
  end.

Definition updateValidatorStats (validatorId : string) (now : Z) (st : Store)
  : Store :=
  match
    update_first (fun n => String.eqb (n_id n) validatorId)
      (fun v =>
         mkNode (n_id v) (n_address v) (n_type v) (n_status v) now
           (n_blocksValidated v + 1) (Z.min 100 (n_reputation v + 1))
           (n_stake v))
      (getNodes st)
  with
  | Some nodes' => set_nodes nodes' st
  | None => st
  end.

(** [Array.prototype.findIndex]: the first position that satisfies [p],
    -1 when there is none. *)
Fixpoint findIndex {A : Type} (p : A -> bool) (l : list A) : Z :=
  match l with
  | [] => -1
  | x :: rest =>
      if p x then 0
      else let r := findIndex p rest in
           if r <? 0 then -1 else r + 1
  end.

Definition is_current (current : option string) (v : BlockchainNode) : bool :=
  match current with
  | Some c => String.eqb (n_id v) c
  | None => false
  end.

Definition rotateValidator (st : Store) : Store :=
  let consensus := getConsensusState st in
  let validators := getActiveValidators st in
  match validators with
  | [] => st
  | _ =>
      let currentIndex :=
        findIndex (is_current (c_currentValidator consensus)) validators in
      let nextIndex :=
        Z.rem (currentIndex + 1) (Z.of_nat (List.length validators)) in
      match nth_error validators (Z.to_nat nextIndex) with
      | Some v =>
          set_consensus
            (mkConsensus (c_mechanism consensus) (Some (n_id v))
               (c_validators consensus) (c_epoch consensus + 1)
               (c_blockTime consensus) (c_difficulty consensus))
            st
      | None => st
      end
  end.

(** [z || d] on a number. *)
Definition z_or (z d : Z) : Z := if z =? 0 then d else z.

(** [chain[chain.length - 1]] *)
Definition tip (chain : list BlockchainBlock) : option BlockchainBlock :=
  nth_error chain (List.length chain - 1).

(** What one call of [addBlock] reads from outside the store: the clock when
    the block is built, the nonces a proof-of-work search would draw, and the
    clock when the validator's statistics are refreshed. *)
Record AddBlockEnv : Type := mkEnv {
  env_now : Z;
  env_nonces : list Z;
  env_seen : Z
}.

(** The first half of [addBlock]: the candidate block, hashed and signed. *)
Definition candidateBlock `{Runtime} (env : AddBlockEnv)
    (transactions : list BlockchainTransaction)
    (previousBlock : BlockchainBlock) (consensus : ConsensusState)
  : result BlockchainBlock :=
  let newBlock :=
    mkBlock (js_succ (b_index previousBlock)) (env_now env)
      (BatchData NETWORK_ID (List.length transactions))
      (b_hash previousBlock) "" 0
      (str_or (c_currentValidator consensus) "system") ""
      (Some transactions) (calculateMerkleRoot transactions) 0
      (c_difficulty consensus) in
  let totalGas :=
    fold_left (fun sum tx => sum + z_or (tx_gasUsed tx) 0) transactions 0 in
  let newBlock := with_gasUsed totalGas newBlock in
  let hashed :=
    match c_mechanism consensus with
    | PoW =>
        if c_difficulty consensus <? 0 then Throw "Invalid count value"
        else match mineBlockPoW (env_nonces env) newBlock
                     (Z.to_nat (c_difficulty consensus)) with
             | Some (mined, hash) => Return (with_hash hash mined)
             | None => NoResult
             end
    | PoA => Return (with_hash (calculateHash newBlock) newBlock)
    end in
  match hashed with
  | Return block => Return (with_signature (signBlock block) block)
  | Throw e => Throw e
  | NoResult => NoResult
  end.

(** The second half of [addBlock], after [validateBlock] has returned. *)
Definition commitBlock (env : AddBlockEnv)
    (transactions : list BlockchainTransaction) (newBlock : BlockchainBlock)
    (st : Store) : Store :=
  let st := set_chain (getBlockchain st ++ [newBlock]) st in
  let st :=
    updateValidatorStats (str_or (Some (b_validator newBlock)) "system")
      (env_seen env) st in
  let st := rotateValidator st in
  fold_left
    (fun s transaction =>
       TransactionManager.markTransactionConfirmed (tx_id transaction)
         (b_index newBlock) (z_or (tx_gasUsed transaction) 0) s)
    transactions st.

Definition addBlock `{Runtime} (env : AddBlockEnv)
    (transactions : list BlockchainTransaction) (st : Store)
  : result BlockchainBlock * Store :=
  match tip (getBlockchain st) with
  | None => (Throw "Cannot read properties of undefined", st)
  | Some previousBlock =>
      match candidateBlock env transactions previousBlock
              (getConsensusState st) with
      | Throw e => (Throw e, st)
      | NoResult => (NoResult, st)
      | Return newBlock =>
          match validateBlock newBlock previousBlock with
          | Throw e => (Throw e, st)
          | NoResult => (NoResult, st)
          | Return _ => (Return newBlock, commitBlock env transactions newBlock st)
          end
      end
  end.

Record NetworkStatus : Type := mkNetworkStatus {
  ns_totalNodes : nat;
  ns_activeNodes : nat;
  ns_validators : nat;
  ns_networkHealth : Health
}.

Definition getNetworkStatus (st : Store) : NetworkStatus :=
  let nodes := getNodes st in
  let activeNodes :=
    filter (fun n => match n_status n with Active => true | _ => false end)
      nodes in
  let validators := filter is_active_validator nodes in
  let networkHealth :=
    if (List.length validators <? 2)%nat then Critical
    else if Qltb (inject_Z (Z.of_nat (List.length activeNodes)))
              (inject_Z (Z.of_nat (List.length nodes)) * (1 # 2))
    then Degraded
    else Healthy in
  mkNetworkStatus (List.length nodes) (List.length activeNodes)
    (List.length validators) networkHealth.

(** [Partial<ConsensusState>]: the fields an update carries. *)
Record ConsensusUpdates : Type := mkUpdates {
  u_mechanism : option Mechanism;
  u_currentValidator : option string;
  u_validators : option (list string);
  u_epoch : option Z;
  u_blockTime : option Z;
  u_difficulty : option Z
}.

Definition or_keep {A : Type} (update : option A) (current : A) : A :=
  match update with
  | Some v => v
  | None => current
  end.

(** [{ ...consensus, ...updates }] *)
Definition updateConsensus (updates : ConsensusUpdates) (st : Store) : Store :=
  let consensus := getConsensusState st in
  set_consensus
    (mkConsensus
       (or_keep (u_mechanism updates) (c_mechanism consensus))
       (match u_currentValidator updates with
        | Some v => Some v
        | None => c_currentValidator consensus
        end)
       (or_keep (u_validators updates) (c_validators consensus))
       (or_keep (u_epoch updates) (c_epoch consensus))
       (or_keep (u_blockTime updates) (c_blockTime consensus))
       (or_keep (u_difficulty updates) (c_difficulty consensus)))
    st.

(** [null] is [Return None]. *)
Definition processTransactionBatch `{Runtime} (env : AddBlockEnv) (st : Store)
  : result (option BlockchainBlock) * Store :=
  match TransactionManager.getBatchForProcessing st with
  | [] => (Return None, st)
  | batch =>
      match addBlock env batch st with
      | (Return block, st') => (Return (Some block), st')
      | (Throw e, st') => (Throw e, st')
      | (NoResult, st') => (NoResult, st')
      end
  end.

Record Verification : Type := mkVerification {
  v_verified : bool;
  v_blockIndex : option JSNum;
  v_confirmations : option JSNum;
  v_status : string
}.

(** [chain.length - blockIndex] *)
Definition js_length_minus (n : nat) (i : JSNum) : JSNum :=
  match i with
  | Num z => Num (Z.of_nat n - z)
  | NaN => NaN
  end.

Definition verifyTransaction (transactionId : string) (st : Store)
  : Verification :=
  match TransactionManager.getTransactionById transactionId st with
  | None => mkVerification false None None "not_found"
  | Some transaction =>
      match tx_status transaction with
      | Pending => mkVerification false None None "pending"
      | Failed => mkVerification false None None "failed"
      | Confirmed =>
          match tx_blockIndex transaction with
          | Some blockIndex =>
              mkVerification true (Some blockIndex)
                (Some
                   (js_length_minus (List.length (getBlockchain st))
                      blockIndex))
                "confirmed"
          | None => mkVerification false None None "unknown"
          end
      end
  end.

End EnhancedBlockchainService.

(** ** SmartContractService: the built-in election rules *)
Module SmartContractService.

(** The election argument as the rule body reads it: [candidates] may be
    missing; [e_startDate] and [e_endDate] are the time values, in
    milliseconds, of [new Date(election.startDate)] and
    [new Date(election.endDate)], [None] for an invalid date. *)
Record Election : Type := mkElection {
  e_candidates : option (list string);
  e_startDate : option Z;
  e_endDate : option Z
}.

Definition minCandidates : nat := 2.
Definition maxDurationDays : Q := 365.

(** [(new Date(endDate) - new Date(startDate)) / (1000 * 60 * 60 * 24)];
    [None] is NaN. *)
Definition duration (election : Election) : option Q :=
  match e_endDate election, e_startDate election with
  | Some e, Some s =>
      Some (inject_Z (e - s) / inject_Z (1000 * 60 * 60 * 24))%Q
  | _, _ => None
  end.

Definition validateElectionRules (election : Election) : Validation :=
  match e_candidates election with
  | None => Invalid "Insufficient candidates"
  | Some candidates =>
      if (List.length candidates <? minCandidates)%nat
      then Invalid "Insufficient candidates"
      else match duration election with
           | Some d =>
               if Qgtb d maxDurationDays || Qltb d 1
               then Invalid "Invalid election duration"
               else Valid
           | None => Valid
           end
  end.

(** *** The built-in vote validation *)

(** The voter and the election as the vote rule reads them; the dates are
    time values as in [Election]. *)
Record Voter : Type := mkVoter {
  vo_isVerified : bool;
  vo_isActive : bool;
  vo_hasVoted : list (string * bool);
  vo_eligibleElections : list string
}.

Record VoteElection : Type := mkVoteElection {
  ve_id : string;
  ve_startDate : option Z;
  ve_endDate : option Z
}.

(** A vote; the rules read its candidate only. *)
Record Vote : Type := mkVote {
  vt_candidateId : string
}.

(** [voter.hasVoted[election.id]] as a condition: the entry that the
    object holds under the id, or, when it holds none, the member that it
    inherits under that name, which is truthy. *)
Definition hasVotedIn (voter : Voter) (electionId : string) : bool :=
  match
    find (fun kv => String.eqb (fst kv) electionId) (vo_hasVoted voter)
  with
  | Some (_, voted) => voted
  | None => inheritedMember electionId
  end.

(** [now] is the [new Date()] of the rule body. *)
Definition validateVote (now : Z) (vote : Vote) (voter : Voter)
    (election : VoteElection) : Validation :=
  if negb (vo_isVerified voter) || negb (vo_isActive voter)
  then Invalid "Voter not verified or inactive"
  else if hasVotedIn voter (ve_id election)
  then Invalid "Voter has already voted in this election"
  else if negb (existsb (String.eqb (ve_id election))
                  (vo_eligibleElections voter))
  then Invalid "Voter not eligible for this election"
  else if match ve_startDate election with
          | Some s => now <? s
          | None => false
          end
          || match ve_endDate election with
             | Some e => e <? now
             | None => false
             end
  then Invalid "Election not active"
  else Valid.

(** *** The built-in result calculation *)

Record Candidate : Type := mkCandidate {
  ca_id : string;
  ca_name : string;
  ca_party : string
}.

Record CandidateResult : Type := mkResult {
  r_candidateId : string;
  r_candidateName : string;
  r_party : string;
  r_voteCount : Z;
  r_percentage : Q
}.

Record ElectionResults : Type := mkResults {
  er_results : list CandidateResult;
  er_totalVotes : nat;
  er_winner : option CandidateResult
}.

(** [voteCounts] after the two [forEach] loops, for candidates none of whom
    has the id ['__proto__'] (see [obj_set]).  A vote for an id that is no
    candidate's changes no candidate's count. *)
Definition countVotes (votes : list Vote) (candidates : list Candidate)
  : list (string * Z) :=
  let voteCounts :=
    fold_left (fun o c => obj_set (ca_id c) 0 o) candidates [] in
  fold_left
    (fun o vote =>
       match obj_get (vt_candidateId vote) o with
       | Some n => obj_set (vt_candidateId vote) (n + 1) o
       | None => o
       end)
    votes voteCounts.

(** [voteCounts[candidate.id]]; every candidate's id is a key. *)
Definition countFor (voteCounts : list (string * Z)) (id : string) : Z :=
  match obj_get id voteCounts with
  | Some n => n
  | None => 0
  end.

Definition calculateResults (votes : list Vote) (candidates : list Candidate)
  : ElectionResults :=
  let voteCounts := countVotes votes candidates in
  let totalVotes := List.length votes in
  let results :=
    map
      (fun candidate =>
         mkResult (ca_id candidate) (ca_name candidate) (ca_party candidate)
           (countFor voteCounts (ca_id candidate))
           (if (0 <? totalVotes)%nat
            then inject_Z (countFor voteCounts (ca_id candidate))
                 / inject_Z (Z.of_nat totalVotes) * 100
            else 0%Q))
      candidates in
  let results :=
    js_sort (fun a b => r_voteCount b - r_voteCount a) results in
  mkResults results totalVotes (hd_error results).

(** *** The contract table *)

Record SmartContract : Type := mkContract {
  sc_id : string;
  sc_name : string;
  sc_type : string;
  sc_code : string;
  sc_deployedBy : string;
  sc_parameters : list (string * Z);
  sc_deployedAt : Z;
  sc_executionCount : Z;
  sc_isActive : bool;
  sc_lastExecuted : option Z
}.

(** What [deployContract] is given. *)
Record ContractData : Type := mkContractData {
  cd_name : string;
  cd_type : string;
  cd_code : string;
  cd_deployedBy : string;
  cd_parameters : list (string * Z)
}.

(** The contracts key of the store (see [Store]): [None] before the first
    [setItem]. *)
Definition ContractStore : Type := option (list SmartContract).

(** The arguments and return values that pass through [executeContract]. *)
Inductive RuleArg : Type :=
| ArgElection (election : Election)
| ArgVote (vote : Vote)
| ArgVoter (voter : Voter)
| ArgVoteElection (election : VoteElection)
| ArgVotes (votes : list Vote)
| ArgCandidates (candidates : list Candidate).

Inductive RuleVal : Type :=
| ValValidation (v : Validation)
| ValResults (r : ElectionResults).

(** [new Function('return ' + code)()(...args)]: the evaluation of a rule
    body is outside the service; [now] is the clock the body may read. *)
Class RuleEngine : Type := {
  runCode : string -> Z -> list RuleArg -> result RuleVal
}.

(** The three built-in rule bodies, as the text that [deployDefaultContracts]
    stores. *)
Definition electionRulesCode : string := "
          function validateElectionRules(election) {
            const rules = {
              minCandidates: 2,
              maxDurationDays: 365,
              requiresVerification: true
            };
            
            if (!election.candidates || election.candidates.length < rules.minCandidates) {
              return { valid: false, reason: 'Insufficient candidates' };
            }
            
            const duration = (new Date(election.endDate) - new Date(election.startDate)) / (1000 * 60 * 60 * 24);
            if (duration > rules.maxDurationDays || duration < 1) {
              return { valid: false, reason: 'Invalid election duration' };
            }
            
            return { valid: true };
          }
        ".

Definition votingValidationCode : string := "
          function validateVote(vote, voter, election) {
            if (!voter.isVerified || !voter.isActive) {
              return { valid: false, reason: 'Voter not verified or inactive' };
            }
            
            if (voter.hasVoted[election.id]) {
              return { valid: false, reason: 'Voter has already voted in this election' };
            }
            
            if (!voter.eligibleElections.includes(election.id)) {
              return { valid: false, reason: 'Voter not eligible for this election' };
            }
            
            const now = new Date();
            if (now < new Date(election.startDate) || now > new Date(election.endDate)) {
              return { valid: false, reason: 'Election not active' };
            }
            
            return { valid: true };
          }
        ".

Definition resultCalculationCode : string := "
          function calculateResults(votes, candidates) {
            const voteCounts = {};
            candidates.forEach(c => voteCounts[c.id] = 0);
            
            votes.forEach(vote => {
              if (voteCounts[vote.candidateId] !== undefined) {
                voteCounts[vote.candidateId]++;
              }
            });
            
            const totalVotes = votes.length;
            const results = candidates.map(candidate => ({
              candidateId: candidate.id,
              candidateName: candidate.name,
              party: candidate.party,
              voteCount: voteCounts[candidate.id],
              percentage: totalVotes > 0 ? (voteCounts[candidate.id] / totalVotes) * 100 : 0
            }));
            
            results.sort((a, b) => b.voteCount - a.voteCount);
            
            return {
              results,
              totalVotes,
              winner: results[0]
            };
          }
        ".

(** Whether [return] gets no expression from the text that follows it.  No
    line terminator may stand between [return] and its expression: when the
    text is empty or opens with a line break, spaces and tabs apart, the
    statement is [return;]. *)
Fixpoint returnsNothing (code : string) : bool :=
  match code with
  | EmptyString => true
  | String c rest =>
      if Ascii.eqb c "010"%char || Ascii.eqb c "013"%char then true
      else if Ascii.eqb c " "%char || Ascii.eqb c "009"%char
      then returnsNothing rest
      else false
  end.

(** [new Function('return ' + code)()] followed by [func(...args)].  When
    [return] gets no expression, either what follows it does not parse or
    the function made returns [undefined], and the call of that value
    throws: both ways an error is thrown inside the [try] of
    [executeContract]; its message is the engine's.  A text that gives
    [return] an expression is evaluated by [others]. *)
Definition newFunction (others : RuleEngine) : RuleEngine :=
  {| runCode := fun code now args =>
       if returnsNothing code then Throw "func is not a function"
       else @runCode others code now args |}.

Definition getAllContracts (cs : ContractStore) : list SmartContract :=
  match cs with
  | Some contracts => contracts
  | None => []
  end.

Definition getContract (contractId : string) (cs : ContractStore)
  : option SmartContract :=
  find (fun c => String.eqb (sc_id c) contractId) (getAllContracts cs).

(** [uuid] is the value of [crypto.randomUUID()], [now] of [new Date()]. *)
Definition deployContract (uuid : string) (now : Z)
    (contractData : ContractData) (cs : ContractStore)
  : SmartContract * ContractStore :=
  let contract :=
    mkContract uuid (cd_name contractData) (cd_type contractData)
      (cd_code contractData) (cd_deployedBy contractData)
      (cd_parameters contractData) now 0 true None in
  (contract, Some (getAllContracts cs ++ [contract])).

Definition deployDefaultContracts (uuid : nat -> string) (now : Z)
    (cs : ContractStore) : ContractStore :=
  match getAllContracts cs with
  | [] =>
      let cs :=
        snd (deployContract (uuid 0%nat) now
               (mkContractData "Election Validation Rules" "election_rules"
                  electionRulesCode "system"
                  [("minCandidates", 2); ("maxDurationDays", 365)])
               cs) in
      let cs :=
        snd (deployContract (uuid 1%nat) now
               (mkContractData "Vote Validation" "voting_validation"
                  votingValidationCode "system" [])
               cs) in
      snd (deployContract (uuid 2%nat) now
             (mkContractData "Result Calculation" "result_calculation"
                resultCalculationCode "system" [])
             cs)
  | _ => cs
  end.

Definition initialize (uuid : nat -> string) (now : Z) (cs : ContractStore)
  : ContractStore :=
  deployDefaultContracts uuid now cs.

Definition updateContract (contract : SmartContract) (cs : ContractStore)
  : ContractStore :=
  match
    update_first (fun c => String.eqb (sc_id c) (sc_id contract))
      (fun _ => contract) (getAllContracts cs)
  with
  | Some contracts => Some contracts
  | None => cs
  end.

(** [now] is the clock of the call. *)
Definition executeContract `{RuleEngine} (contractId : string)
    (args : list RuleArg) (now : Z) (cs : ContractStore)
  : result RuleVal * ContractStore :=
  match getContract contractId cs with
  | None => (Throw "Contract not found", cs)
  | Some contract =>
      if negb (sc_isActive contract)
      then (Throw "Contract is not active", cs)
      else
        match runCode (sc_code contract) now args with
        | Return value =>
            (Return value,
             updateContract
               (mkContract (sc_id contract) (sc_name contract)
                  (sc_type contract) (sc_code contract)
                  (sc_deployedBy contract) (sc_parameters contract)
                  (sc_deployedAt contract) (sc_executionCount contract + 1)
                  (sc_isActive contract) (Some now))
               cs)
        | Throw message => (Throw ("Contract execution failed: " ++ message), cs)
        | NoResult => (NoResult, cs)
        end
  end.

Definition executeContractByType `{RuleEngine} (type : string)
    (args : list RuleArg) (now : Z) (cs : ContractStore)
  : result RuleVal * ContractStore :=
  match
    find (fun c => String.eqb (sc_type c) type && sc_isActive c)
      (getAllContracts cs)
  with
  | None => (Throw ("No active contract found for type: " ++ type), cs)
  | Some contract => executeContract (sc_id contract) args now cs
  end.

(** [{ ...election, candidates }] *)
Definition withCandidates (election : Election) (candidates : list string)
  : Election :=
  mkElection (Some candidates) (e_startDate election) (e_endDate election).

Definition validateElection `{RuleEngine} (election : Election)
    (candidates : list string) (now : Z) (cs : ContractStore)
  : result RuleVal * ContractStore :=
  match
    executeContractByType "election_rules"
      [ArgElection (withCandidates election candidates)] now cs
  with
  | (Throw _, cs') => (Return (ValValidation (Invalid "Validation failed")), cs')
  | other => other
  end.

(** [SmartContractService.validateVote]; the name [validateVote] is the
    rule body's. *)
Definition validateVoteByContract `{RuleEngine} (vote : Vote) (voter : Voter)
    (election : VoteElection) (now : Z) (cs : ContractStore)
  : result RuleVal * ContractStore :=
  match
    executeContractByType "voting_validation"
      [ArgVote vote; ArgVoter voter; ArgVoteElection election] now cs
  with
  | (Throw _, cs') => (Return (ValValidation (Invalid "Validation failed")), cs')
  | other => other
  end.

Definition calculateElectionResults `{RuleEngine} (votes : list Vote)
    (candidates : list Candidate) (now : Z) (cs : ContractStore)
  : result RuleVal * ContractStore :=
  executeContractByType "result_calculation"
    [ArgVotes votes; ArgCandidates candidates] now cs.

Definition deactivateContract (contractId : string) (cs : ContractStore)
  : ContractStore :=
  match getContract contractId cs with
  | Some contract =>
      updateContract
        (mkContract (sc_id contract) (sc_name contract) (sc_type contract)
           (sc_code contract) (sc_deployedBy contract) (sc_parameters contract)
           (sc_deployedAt contract) (sc_executionCount contract) false
           (sc_lastExecuted contract))
        cs
  | None => cs
  end.

Record ContractMetrics : Type := mkContractMetrics {
  cm_totalContracts : nat;
  cm_activeContracts : nat;
  cm_totalExecutions : Z;
  cm_contractsByType : list (string * nat)
}.

Definition getContractMetrics (cs : ContractStore) : ContractMetrics :=
  let contracts := getAllContracts cs in
  mkContractMetrics (List.length contracts)
    (List.length (filter sc_isActive contracts))
    (fold_left (fun total c => total + sc_executionCount c) contracts 0)
    (fold_left (fun byType c => TransactionManager.bump (sc_type c) byType)
       contracts []).

End SmartContractService.

(** ** BlockchainMonitoringService *)
Module BlockchainMonitoringService.
Import EnhancedBlockchainService.

Definition blockTimeWarning : Q := 10000.
Definition blockTimeCritical : Q := 30000.
Definition pendingTransactionsWarning : nat := 100.
Definition pendingTransactionsCritical : nat := 500.

Inductive Overall : Type := OverallHealthy | OverallWarning | OverallCritical.

Record BlockchainMetrics : Type := mkMetrics {
  m_totalBlocks : nat;
  m_totalTransactions : nat;
  m_averageBlockTime : Q;
  m_transactionsPerSecond : Q;
  m_networkHashRate : Q;
  m_activeNodes : nat;
  m_consensusHealth : Health;
  m_chainValidity : bool;
  m_lastBlockTime : Z;
  m_pendingTransactions : nat
}.

(** [new Date(chain[i].timestamp).getTime()] *)
Definition timeAt (chain : list BlockchainBlock) (i : nat) : Z :=
  match nth_error chain i with
  | Some block => b_timestamp block
  | None => 0
  end.

(** [for (let i = 1; i < Math.min(chain.length, 100); i++)] *)
Definition calculateBlockTimes (chain : list BlockchainBlock) : list Z :=
  map (fun i => timeAt chain i - timeAt chain (i - 1))
    (seq 1 (Nat.min (List.length chain) 100 - 1)).

(** [l.length > 0 ? l.reduce((a, b) => a + b, 0) / l.length : 0] *)
Definition average (l : list Z) : Q :=
  if (0 <? List.length l)%nat
  then inject_Z (fold_left Z.add l 0) / inject_Z (Z.of_nat (List.length l))
  else 0%Q.

Definition averageBlockTime (chain : list BlockchainBlock) : Q :=
  average (calculateBlockTimes chain).

(** [chain.slice(-n)] *)
Definition slice_last (n : nat) (chain : list BlockchainBlock)
  : list BlockchainBlock :=
  skipn (List.length chain - n) chain.

(** Seconds between the first and the last block of a window. *)
Definition timeSpan (recentBlocks : list BlockchainBlock) : Q :=
  inject_Z
    (timeAt recentBlocks (List.length recentBlocks - 1) - timeAt recentBlocks 0)
  / 1000.

Definition calculateTPS (chain : list BlockchainBlock) : Q :=
  let recentBlocks := slice_last 10 chain in
  if (List.length recentBlocks <? 2)%nat then 0%Q
  else
    let totalTransactions :=
      fold_left
        (fun sum block =>
           (sum + match b_transactions block with
                  | Some txs => List.length txs
                  | None => 0
                  end)%nat)
        recentBlocks 0%nat in
    if Qgtb (timeSpan recentBlocks) 0
    then inject_Z (Z.of_nat totalTransactions) / timeSpan recentBlocks
    else 0%Q.

Definition calculateNetworkHashRate (chain : list BlockchainBlock)
    (difficulty : Z) : Q :=
  let recentBlocks := slice_last 100 chain in
  if (List.length recentBlocks <? 2)%nat then 0%Q
  else
    let hashesPerBlock := (2 ^ (difficulty * 4))%Q in
    let totalHashes :=
      (inject_Z (Z.of_nat (List.length recentBlocks)) * hashesPerBlock)%Q in
    if Qgtb (timeSpan recentBlocks) 0
    then totalHashes / timeSpan recentBlocks
    else 0%Q.

(** [now] is the [new Date()] reported for an empty chain. *)
Definition getRealtimeMetrics `{Runtime} (now : Z) (st : Store)
  : BlockchainMetrics :=
  let chain := getBlockchain st in
  let transactionStats := TransactionManager.getTransactionStats st in
  let networkStatus := getNetworkStatus st in
  let consensus := getConsensusState st in
  let averageBlockTime := averageBlockTime chain in
  let tps := calculateTPS chain in
  let hashRate := calculateNetworkHashRate chain (c_difficulty consensus) in
  let chainValid := validateBlockchain st in
  let consensusHealth :=
    match ns_networkHealth networkStatus, chainValid with
    | Critical, _ | _, false => Critical
    | Degraded, _ => Degraded
    | Healthy, _ =>
        if Qgtb averageBlockTime blockTimeWarning then Degraded else Healthy
    end in
  mkMetrics (List.length chain)
    (TransactionManager.totalTransactions transactionStats)
    averageBlockTime tps hashRate (ns_activeNodes networkStatus)
    consensusHealth chainValid
    (match tip chain with Some block => b_timestamp block | None => now end)
    (TransactionManager.pendingTransactions transactionStats).

Record HealthReport : Type := mkReport {
  overall : Overall;
  issues : list string;
  recommendations : list string
}.

(** [Math.round] *)
Definition round (q : Q) : Z := Qfloor (q + (1 # 2)).

(** The body of [getBlockchainHealth] once the metrics are read; each
    [let] is one of its [if] statements, in order. *)
Definition healthOfMetrics `{Runtime} (metrics : BlockchainMetrics)
  : HealthReport :=
  let r := mkReport OverallHealthy [] [] in
  let r :=
    if negb (m_chainValidity metrics)
    then mkReport OverallCritical
           (issues r ++ ["Blockchain integrity compromised"])
           (recommendations r
            ++ ["Investigate and resolve chain validation errors immediately"])
    else r in
  let r :=
    match m_consensusHealth metrics with
    | Critical =>
        mkReport OverallCritical
          (issues r ++ ["Consensus mechanism in critical state"])
          (recommendations r
           ++ ["Check validator nodes and ensure minimum required validators are active"])
    | _ => r
    end in
  let r :=
    if (pendingTransactionsCritical <? m_pendingTransactions metrics)%nat
    then mkReport
           (match overall r with
            | OverallCritical => OverallCritical
            | _ => OverallWarning
            end)
           (issues r
            ++ [("High pending transaction count: "
                 ++ show_num (Num (Z.of_nat (m_pendingTransactions metrics))))%string])
           (recommendations r
            ++ ["Increase block production rate or batch size"])
    else r in
  let r :=
    if Qgtb (m_averageBlockTime metrics) blockTimeCritical
    then mkReport OverallCritical
           (issues r
            ++ [("Block time critically high: "
                 ++ show_num (Num (round (m_averageBlockTime metrics)))
                 ++ "ms")%string])
           (recommendations r
            ++ ["Check network connectivity and validator performance"])
    else if Qgtb (m_averageBlockTime metrics) blockTimeWarning
    then mkReport
           (match overall r with
            | OverallHealthy => OverallWarning
            | o => o
            end)
           (issues r
            ++ [("Block time elevated: "
                 ++ show_num (Num (round (m_averageBlockTime metrics)))
                 ++ "ms")%string])
           (recommendations r ++ ["Monitor validator performance"])
    else r in
  let r :=
    if (m_activeNodes metrics <? 3)%nat
    then mkReport
           (match overall r with
            | OverallHealthy => OverallWarning
            | o => o
            end)
           (issues r ++ ["Low node count"])
           (recommendations r ++ ["Ensure minimum required nodes are online"])
    else r in
  match issues r with
  | [] => mkReport OverallHealthy [] ["System operating normally"]
  | _ => r
  end.

Definition getBlockchainHealth `{Runtime} (now : Z) (st : Store)
  : HealthReport :=
  healthOfMetrics (getRealtimeMetrics now st).

(** The metrics history key of the store (see [Store]). *)
Definition MetricsHistory : Type := option (list BlockchainMetrics).

Definition getHistoricalMetrics (hours : Z) (now : Z)
    (history : MetricsHistory) : list BlockchainMetrics :=
  let history := match history with Some h => h | None => [] end in
  let cutoffTime := now - hours * 60 * 60 * 1000 in
  filter (fun m => cutoffTime <? m_lastBlockTime m) history.

(** The history that [collectMetrics] stores. *)
Definition collectMetrics `{Runtime} (now : Z) (st : Store)
    (history : MetricsHistory) : MetricsHistory :=
  let metrics := getRealtimeMetrics now st in
  let history := match history with Some h => h | None => [] end in
  let history := history ++ [metrics] in
  let maxHistoryItems := 1000%nat in
  Some (if (maxHistoryItems <? List.length history)%nat
        then tl history
        else history).

Record TransactionAnalytics : Type := mkAnalytics {
  an_hourlyVolume : list nat;
  an_typeDistribution : list (string * nat);
  an_averageConfirmationTime : Z;
  an_successRate : Q
}.

(** [new Array(24).fill(0)] with [hourlyVolume[index] = txCount] for the
    blocks of [chain.slice(-24)]. *)
Definition hourlyVolumeOf (chain : list BlockchainBlock) : list nat :=
  let counts :=
    map
      (fun block =>
         match b_transactions block with
         | Some txs => List.length txs
         | None => 0%nat
         end)
      (slice_last 24 chain) in
  counts ++ repeat 0%nat (24 - List.length counts).

Definition getTransactionAnalytics (st : Store) : TransactionAnalytics :=
  let stats := TransactionManager.getTransactionStats st in
  let chain := getBlockchain st in
  let totalTransactions := TransactionManager.totalTransactions stats in
  let successfulTransactions := TransactionManager.confirmedTransactions stats in
  mkAnalytics (hourlyVolumeOf chain)
    (TransactionManager.transactionsByType stats) 3000
    (if (0 <? totalTransactions)%nat
     then inject_Z (Z.of_nat successfulTransactions)
          / inject_Z (Z.of_nat totalTransactions) * 100
     else 0%Q).

Inductive AnomalyType : Type := Performance | Security | Consensus.
Inductive Severity : Type := Low | Medium | High.

Record Anomaly : Type := mkAnomaly {
  a_type : AnomalyType;
  a_severity : Severity;
  a_message : string;
  a_timestamp : Z
}.

(** The body of [detectAnomalies] once the metrics are read; [now] is the
    [new Date()] of the entries. *)
Definition anomaliesOfMetrics `{Runtime} (now : Z) (metrics : BlockchainMetrics)
  : list Anomaly :=
  (if negb (m_chainValidity metrics)
   then [mkAnomaly Security High "Blockchain integrity check failed" now]
   else [])
  ++ (match m_consensusHealth metrics with
      | Critical =>
          [mkAnomaly Consensus High "Consensus mechanism in critical state" now]
      | _ => []
      end)
  ++ (if (pendingTransactionsCritical <? m_pendingTransactions metrics)%nat
      then [mkAnomaly Performance High
              ("Pending transaction backlog: "
               ++ show_num (Num (Z.of_nat (m_pendingTransactions metrics))))
              now]
      else [])
  ++ (if Qgtb (m_averageBlockTime metrics) blockTimeCritical
      then [mkAnomaly Performance Medium
              ("Block time exceeds threshold: "
               ++ show_num (Num (round (m_averageBlockTime metrics))) ++ "ms")
              now]
      else []).

Definition detectAnomalies `{Runtime} (now : Z) (st : Store) : list Anomaly :=
  anomaliesOfMetrics now (getRealtimeMetrics now st).

End BlockchainMonitoringService.

(** ** NINService *)
Module NINService.

(** [\d]: one of the ten digits. *)
Definition is_digit (c : ascii) : bool :=
  (48 <=? nat_of_ascii c)%nat && (nat_of_ascii c <=? 57)%nat.

(** [\d{n}$]: exactly [n] digits up to the end of the string. *)
Fixpoint digits (n : nat) (s : string) : bool :=
  match n, s with
  | O, EmptyString => true
  | S n', String c rest => is_digit c && digits n' rest
  | _, _ => false
  end.

(** [/^\d{11}$/.test(nin)] *)
Definition isValidNINFormat (nin : string) : bool := digits 11 nin.

(** Modelled from the spec: [CryptoService] (cryptoService.ts is not among
    the sources) produces the opaque encrypted blobs the registry holds.
    [openRecord blob] is [JSON.parse(await CryptoService.decryptData(blob))]
    with the five fields read off into the [voterData] of the answer; it is
    [None] when one of the two calls throws. *)
Class Vault : Type := {
  VoterData : Type;
  openRecord : string -> option VoterData
}.

Record NINValidationResult `{Vault} : Type := mkNINResult {
  nr_valid : bool;
  nr_voterData : option VoterData;
  nr_error : option string
}.

Arguments mkNINResult {_} _ _ _.

(** The registry key of the store (see [Store]): an object from hashed NINs
    to encrypted blobs, [None] before the first [setItem]. *)
Definition Registry : Type := option (list (string * string)).

Definition initialize (registry : Registry) : Registry :=
  match registry with
  | Some _ => registry
  | None => Some []
  end.

Definition hashNIN `{Runtime} (nin : string) : string :=
  generateHash (nin ++ "NIGERIA_EVOTING_NIN_SALT_2024")%string.

(** The API call is simulated by a delay; nothing in the [try] block throws,
    so its [catch], the fall-back to the offline path, is not entered. *)
Definition validateNINOnline `{Vault} (nin : string) : NINValidationResult :=
  if isValidNINFormat nin
  then mkNINResult true None None
  else mkNINResult false None (Some "NIN not found in NIMC database.").

(** [registry?.[hashedNIN]] *)
Definition voterRecordOf (hashedNIN : string) (registry : Registry)
  : option string :=
  match registry with
  | Some entries =>
      match find (fun kv => String.eqb (fst kv) hashedNIN) entries with
      | Some (_, blob) => Some blob
      | None => None
      end
  | None => None
  end.

Definition validateNINOffline `{Runtime} `{Vault} (nin : string)
    (registry : Registry) : NINValidationResult * Registry :=
  let stored := initialize registry in
  let hashedNIN := hashNIN nin in
  match voterRecordOf hashedNIN registry with
  | Some blob =>
      if str_truthy blob
      then
        match openRecord blob with
        | Some voterData => (mkNINResult true (Some voterData) None, stored)
        | None =>
            (mkNINResult false None (Some "Offline NIN validation failed."),
             stored)
        end
      else if isValidNINFormat nin
      then (mkNINResult true None None, stored)
      else (mkNINResult false None (Some "Invalid NIN format."), stored)
  | None =>
      if isValidNINFormat nin
      then (mkNINResult true None None, stored)
      else (mkNINResult false None (Some "Invalid NIN format."), stored)
  end.

(** [isOnline] is the argument, [navigator.onLine] by default. *)
Definition validateNIN `{Runtime} `{Vault} (nin : string) (isOnline : bool)
    (registry : Registry) : NINValidationResult * Registry :=
  if negb (isValidNINFormat nin)
  then (mkNINResult false None (Some "Invalid NIN format. Must be 11 digits."),
        registry)
  else if isOnline then (validateNINOnline nin, registry)
  else validateNINOffline nin registry.

End NINService.

(** ** Sequences of pool operations *)

(** The operations of [TransactionManager] that write the pool. *)
Inductive PoolOp : Type :=
| OpInitialize
| OpSubmit (t : BlockchainTransaction)
| OpConfirm (transactionId : string) (blockIndex : JSNum) (gasUsed : Z)
| OpFail (transactionId : string)
| OpRemove (transactionId : string)
| OpClear (olderThan : option Z) (now : Z).

Definition applyOp (op : PoolOp) (st : Store) : Store :=
  match op with
  | OpInitialize => TransactionManager.initialize st
  | OpSubmit t => snd (TransactionManager.submitTransaction t st)
  | OpConfirm id blockIndex gasUsed =>
      TransactionManager.markTransactionConfirmed id blockIndex gasUsed st
  | OpFail id => TransactionManager.markTransactionFailed id st
  | OpRemove id => TransactionManager.removePendingTransaction id st
  | OpClear olderThan now =>
      snd (TransactionManager.clearConfirmedTransactions olderThan now st)
  end.

Definition runOps (ops : list PoolOp) (st : Store) : Store :=
  fold_left (fun s op => applyOp op s) ops st.

Definition is_mark (op : PoolOp) : Prop :=
  match op with
  | OpConfirm _ _ _ | OpFail _ => True
  | _ => False
  end.

Definition is_submit (op : PoolOp) : Prop :=
  match op with
  | OpSubmit _ => True
  | _ => False
  end.

(** Submitting a list of transactions one after the other; [None] as soon
    as one submission throws. *)
Fixpoint submitAll (txs : list BlockchainTransaction) (st : Store)
  : option Store :=
  match txs with
  | [] => Some st
  | t :: rest =>
      match TransactionManager.submitTransaction t st with
      | (Return _, st') => submitAll rest st'
      | _ => None
      end
  end.

(** A transaction with its payload replaced after signing. *)
Definition with_data (d : JSData) (t : BlockchainTransaction)
  : BlockchainTransaction :=
  mkTx (tx_id t) (tx_type t) (tx_from t) (tx_to t) d (tx_timestamp t)
    (tx_signature t) (tx_status t) (tx_gasLimit t) (tx_gasUsed t)
    (tx_blockIndex t).

(** ** A concrete runtime, for running the services on examples *)

Definition show_Z (z : Z) : string := NilZero.string_of_int (Z.to_int z).

Definition show_status (s : TxStatus) : string :=
  match s with
  | Pending => "pending"
  | Confirmed => "confirmed"
  | Failed => "failed"
  end.

Definition show_data (d : JSData) : string :=
  match d with
  | DUndefined => "undefined"
  | DNull => "null"
  | DBool true => "true"
  | DBool false => "false"
  | DNumber (Num z) => show_Z z
  | DNumber NaN => "NaN"
  | DString s => s
  | DObject fields =>
      "{"
      ++ String.concat "," (map (fun kv => (fst kv ++ ":" ++ snd kv)%string) fields)
      ++ "}"
  end.

Definition demoRuntime : Runtime :=
  {| generateHash := fun s => ("#" ++ s)%string;
     show_num := fun n => match n with Num z => show_Z z | NaN => "NaN" end;
     show_date := show_Z;
     stringify_data := fun d =>
       match d with
       | GenesisData t net =>
           ("{genesis," ++ show_Z t ++ "," ++ net ++ "}")%string
       | BatchData net n =>
           ("{" ++ net ++ "," ++ show_Z (Z.of_nat n) ++ "}")%string
       end;
     stringify_tx := fun t =>
       ("{" ++ tx_id t ++ "," ++ tx_type t ++ "," ++ tx_from t ++ ","
        ++ show_data (tx_data t) ++ "," ++ show_Z (tx_timestamp t) ++ ","
        ++ tx_signature t ++ "," ++ show_status (tx_status t) ++ ","
        ++ show_Z (tx_gasUsed t) ++ "}")%string;
     stringify_signed := fun id type from to data timestamp =>
       ("{" ++ id ++ "," ++ type ++ "," ++ from ++ ","
        ++ match to with Some r => r | None => "" end ++ ","
        ++ show_data data ++ "," ++ show_Z timestamp ++ "}")%string |}.

(** A vote as [createTransaction] builds it under [demoRuntime]. *)
Definition demoVote (id : string) : BlockchainTransaction :=
  @TransactionManager.createTransaction demoRuntime id 1700000000000 "vote"
    "voter-1" (DString "candidate-A") None.

(** Example stores. *)
Definition emptyStore : Store := mkStore None None None None.

Definition manyVotes (n : nat) : list BlockchainTransaction :=
  map (fun k => demoVote ("tx-" ++ show_Z (Z.of_nat k))) (seq 0 n).

Definition confirmedVote (id : string) (gasUsed : Z) : BlockchainTransaction :=
  mkTx id "vote" "voter-1" None (DString "candidate-A") 1700000000000
    "#signature" Confirmed 100 gasUsed (Some (Num 1)).

(** The reading of "mean gas over confirmed transactions" in which every
    confirmed transaction counts in the denominator. *)
Definition confirmedOf (pool : list BlockchainTransaction)
  : list BlockchainTransaction :=
  filter (fun t => status_eqb (tx_status t) Confirmed) pool.

Definition sumGas (l : list BlockchainTransaction) : Z :=
  fold_right (fun t s => tx_gasUsed t + s) 0 l.

(** The confirmed transactions whose [gasUsed] is truthy. *)
Definition gasCounted (pool : list BlockchainTransaction)
  : list BlockchainTransaction :=
  filter (fun t => negb (tx_gasUsed t =? 0)) (confirmedOf pool).

Definition meanGasOverConfirmed (pool : list BlockchainTransaction) : Q :=
  if (0 <? List.length (confirmedOf pool))%nat
  then inject_Z (sumGas (confirmedOf pool))
       / inject_Z (Z.of_nat (List.length (confirmedOf pool)))
  else 0%Q.

(** ** Sequences of [addBlock] calls *)

Import EnhancedBlockchainService.

(** The chains obtained from a genesis block by successful [addBlock]
    calls.  Between two calls the rest of the store (nodes, consensus
    state, pool) may have been rewritten by other operations, so each call
    starts from any store that holds the chain reached so far. *)
Inductive Produced `{Runtime} : list BlockchainBlock -> Prop :=
| Produced_genesis (nowData now : Z) :
    Produced [createGenesisBlock nowData now]
| Produced_addBlock (st : Store) (env : AddBlockEnv)
    (transactions : list BlockchainTransaction) (block : BlockchainBlock)
    (st' : Store) :
    Produced (getBlockchain st) ->
    addBlock env transactions st = (Return block, st') ->
    Produced (getBlockchain st').

(** Consecutive [addBlock] calls on one store; [None] as soon as one of
    them does not return a block. *)
Fixpoint addBlocks `{Runtime}
    (calls : list (AddBlockEnv * list BlockchainTransaction)) (st : Store)
  : option Store :=
  match calls with
  | [] => Some st
  | (env, transactions) :: later =>
      match addBlock env transactions st with
      | (Return _, st') => addBlocks later st'
      | _ => None
      end
  end.

Definition activeIds (st : Store) : list string :=
  map n_id (getActiveValidators st).

Definition currentAuthority (st : Store) : option string :=
  c_currentValidator (getConsensusState st).

(** Example stores for the ledger. *)
Definition demoEnv (now : Z) : AddBlockEnv := mkEnv now [] (now + 1).

Definition demoUuid (k : nat) : string := "node-" ++ show_Z (Z.of_nat k).

Definition freshLedger : Store :=
  @initializeBlockchain demoRuntime demoUuid 1700000000000 emptyStore.

(** A stored chain whose tip carries an index that is not a number. *)
Definition brokenTip : BlockchainBlock :=
  mkBlock NaN 1700000000000 (BatchData NETWORK_ID 0) "0" "#tip" 0 "system"
    "#sig" (Some []) "#empty" 0 3.

Definition brokenLedger : Store :=
  mkStore (Some [brokenTip]) None None None.

Definition demoCalls : list (AddBlockEnv * list BlockchainTransaction) :=
  [(demoEnv 1700000003000, [demoVote "tx-1"]);
   (demoEnv 1700000006000, []);
   (demoEnv 1700000009000, [demoVote "tx-2"; demoVote "tx-3"]);
   (demoEnv 1700000012000, [])].

(** ** Readings of the monitoring figures *)

Import SmartContractService.
Import BlockchainMonitoringService.

(** The time gaps between the adjacent blocks of a window. *)
Definition gaps (window : list BlockchainBlock) : list Z :=
  map (fun i => timeAt window i - timeAt window (i - 1))
    (seq 1 (List.length window - 1)).

(** The mean of the inter-block gaps over the last 100 blocks. *)
Definition meanGapOfLast100 (chain : list BlockchainBlock) : Q :=
  average (gaps (slice_last 100 chain)).

(** A hundred blocks appended to the fresh ledger: ninety-nine of them one
    second apart, the last one a hundred seconds after its predecessor. *)
Definition longCalls : list (AddBlockEnv * list BlockchainTransaction) :=
  map (fun k => (demoEnv (1700000000000 + 1000 * Z.of_nat k), [])) (seq 1 99)
  ++ [(demoEnv (1700000000000 + 199000), [])].

Definition longLedger : Store :=
  match @addBlocks demoRuntime longCalls freshLedger with
  | Some st => st
  | None => emptyStore
  end.

(** The fresh ledger with [n] pending votes in the pool. *)
Definition backlogLedger (n : nat) : Store := set_pool (manyVotes n) freshLedger.

(** ** Readings of the pool queries *)

(** [a] is due no later than [b]: both priorities are numbers, and [a] has
    the smaller one, or the same one and a timestamp that is not later. *)
Definition dueBefore (a b : BlockchainTransaction) : Prop :=
  match
    TransactionManager.priorityOrder (tx_type a),
    TransactionManager.priorityOrder (tx_type b)
  with
  | Some aPriority, Some bPriority =>
      aPriority < bPriority
      \/ (aPriority = bPriority /\ tx_timestamp a <= tx_timestamp b)
  | _, _ => False
  end.

(** No entry's type is the name of an inherited member, as is the case for
    the five types that [validateTransaction] admits. *)
Definition plainTypes (l : list BlockchainTransaction) : Prop :=
  Forall (fun t => inheritedMember (tx_type t) = false) l.

Definition is_vote (t : BlockchainTransaction) : bool :=
  String.eqb (tx_type t) "vote".

(** The count that the table holds under the key [type], 0 when it holds
    none. *)
Definition countOfType (type : string) (byType : list (string * nat)) : nat :=
  match find (fun kv => String.eqb (fst kv) type) byType with
  | Some (_, n) => n
  | None => 0
  end.

(** A pending election update, and a pool that holds one of them in front
    of twelve votes. *)
Definition demoUpdate (id : string) : BlockchainTransaction :=
  @TransactionManager.createTransaction demoRuntime id 1600000000000
    "election_update" "admin-1" (DString "extend") None.

Definition crowdedPool : Store :=
  mkStore None None None (Some (demoUpdate "upd-1" :: manyVotes 12)).

(** ** Readings of the ledger *)

(** The fields of a pool entry that its signature covers, and the signature. *)
Definition same_signed_fields (t t' : BlockchainTransaction) : Prop :=
  tx_id t' = tx_id t /\ tx_type t' = tx_type t /\ tx_from t' = tx_from t
  /\ tx_to t' = tx_to t /\ tx_data t' = tx_data t
  /\ tx_timestamp t' = tx_timestamp t /\ tx_signature t' = tx_signature t.

(** The fields of a block that [validateBlock] reads when the block is the
    one under validation. *)
Definition same_checked_fields (b b' : BlockchainBlock) : Prop :=
  b_index b' = b_index b /\ b_timestamp b' = b_timestamp b
  /\ b_data b' = b_data b /\ b_previousHash b' = b_previousHash b
  /\ b_hash b' = b_hash b /\ b_nonce b' = b_nonce b
  /\ b_transactions b' = b_transactions b /\ b_merkleRoot b' = b_merkleRoot b.

(** A block with its signature, validator, gas and difficulty rewritten. *)
Definition resign (signature validator : string) (gasUsed difficulty : Z)
    (b : BlockchainBlock) : BlockchainBlock :=
  mkBlock (b_index b) (b_timestamp b) (b_data b) (b_previousHash b) (b_hash b)
    (b_nonce b) validator signature (b_transactions b) (b_merkleRoot b)
    gasUsed difficulty.

Definition sumValidated (nodes : list BlockchainNode) : Z :=
  fold_right (fun n s => n_blocksValidated n + s) 0 nodes.

Definition totalBlocksValidated (st : Store) : Z :=
  sumValidated (getNodes st).

Definition pendingCount (st : Store) : nat :=
  List.length (TransactionManager.getPendingTransactions None st).

(** A runtime whose digest is one decimal digit, for runs of the nonce
    search. *)
Definition digitRuntime : Runtime :=
  {| generateHash := fun s => show_Z (Z.of_nat (String.length s) mod 10);
     show_num := @show_num demoRuntime;
     show_date := @show_date demoRuntime;
     stringify_data := @stringify_data demoRuntime;
     stringify_tx := @stringify_tx demoRuntime;
     stringify_signed := @stringify_signed demoRuntime |}.

(** The fresh ledger switched to proof of work at the given difficulty. *)
Definition powLedger (difficulty : Z) : Store :=
  updateConsensus
    (mkUpdates (Some PoW) None None None None (Some difficulty))
    (@initializeBlockchain digitRuntime demoUuid 1700000000000 emptyStore).

Definition powEnv : AddBlockEnv :=
  mkEnv 1700000003000 [1; 22; 333; 4444; 55555; 666666; 7777777; 88888888;
                       999999999; 1010101010] 1700000003001.

(** The fresh ledger with three pending votes, after one block that
    includes the vote "tx-1". *)
Definition twoBlockLedger : Store :=
  snd (@addBlock demoRuntime (demoEnv 1700000003000) [demoVote "tx-1"]
         (backlogLedger 3)).

(** A genesis block with another payload and timestamp under the index and
    hash of the fresh ledger's genesis block. *)
Definition forgedGenesis : BlockchainBlock :=
  mkBlock (Num 0) 1
    (GenesisData 1 "another-network") "0"
    (b_hash (@createGenesisBlock demoRuntime 1700000000000 1700000000000))
    7 "mallory" "" (Some [demoVote "tx-9"]) "" 0 0.

(** The block at position [i] carries the index [i]. *)
Definition numbered (chain : list BlockchainBlock) : Prop :=
  forall i b, nth_error chain i = Some b -> b_index b = Num (Z.of_nat i).

(** The block that the call building [twoBlockLedger] returned. *)
Definition secondBlock : BlockchainBlock :=
  match
    fst (@addBlock demoRuntime (demoEnv 1700000003000) [demoVote "tx-1"]
           (backlogLedger 3))
  with
  | Return block => block
  | _ => brokenTip
  end.

(** ** Readings of the rule bodies *)

(** The number of votes cast for a candidate id. *)
Definition votesFor (id : string) (votes : list Vote) : Z :=
  Z.of_nat
    (List.length
       (filter (fun v => String.eqb (vt_candidateId v) id) votes)).

Definition demoCandidates : list Candidate :=
  [mkCandidate "c-1" "Ada" "Alpha"; mkCandidate "c-2" "Bola" "Beta";
   mkCandidate "c-3" "Chidi" "Gamma"].

Definition demoVotes : list Vote :=
  [mkVote "c-2"; mkVote "c-1"; mkVote "c-2"; mkVote "c-9"; mkVote "c-1"].

(** The engine of the witnesses: [newFunction] over an evaluator that
    stands for the engine on the texts that give [return] an expression.
    The witnesses run the built-in texts only and never consult it. *)
Definition noOtherText : RuleEngine :=
  {| runCode := fun _ _ _ => Throw "Unexpected token" |}.

Definition demoEngine : RuleEngine := newFunction noOtherText.

Definition demoContractId (k : nat) : string :=
  "contract-" ++ show_Z (Z.of_nat k).

Definition defaultContracts : ContractStore :=
  deployDefaultContracts demoContractId 1700000000000 None.

Definition demoElection : Election :=
  mkElection None (Some 1700000000000) (Some (1700000000000 + 86400000)).

(** Successive runs of [collectMetrics], one per sample of the clock and
    the store. *)
Fixpoint collectAll `{Runtime} (samples : list (Z * Store))
    (history : MetricsHistory) : MetricsHistory :=
  match samples with
  | [] => history
  | (now, st) :: later => collectAll later (collectMetrics now st history)
  end.

(** The history as [collectMetrics] and [getHistoricalMetrics] read it:
    [getItem(METRICS_KEY) || []]. *)
Definition storedHistory (history : MetricsHistory) : list BlockchainMetrics :=
  match history with
  | Some h => h
  | None => []
  end.

(** The metrics that the calls of [collectAll] read, in order. *)
Definition metricsOf `{Runtime} (samples : list (Z * Store))
  : list BlockchainMetrics :=
  map (fun sample => getRealtimeMetrics (fst sample) (snd sample)) samples.

(** [block.transactions?.length || 0] *)
Definition txCount (block : BlockchainBlock) : nat :=
  match b_transactions block with
  | Some txs => List.length txs
  | None => 0%nat
  end.

(** A vault whose blobs are the records themselves, the blob ["locked"]
    apart, which does not decrypt. *)
Definition demoVault : NINService.Vault :=
  {| NINService.VoterData := string;
     NINService.openRecord :=
       fun blob => if String.eqb blob "locked" then None else Some blob |}.

(** ** Facts about the pool *)

Import TransactionManager.

Lemma update_first_length {A : Type} (p : A -> bool) (f : A -> A) :
  forall l l', update_first p f l = Some l' -> List.length l' = List.length l.
Proof.
  induction l as [|x rest IH]; intros l' Hup; simpl in Hup.
  - discriminate.
  - destruct (p x).
    + injection Hup as <-. reflexivity.
    + destruct (update_first p f rest) as [rest'|]; [|discriminate].
      injection Hup as <-. simpl. f_equal. now apply IH.
Qed.

Lemma update_first_nth {A : Type} (p : A -> bool) (f : A -> A) :
  forall l l' i x,
    update_first p f l = Some l' ->
    nth_error l i = Some x ->
    exists x', nth_error l' i = Some x' /\ (x' = x \/ x' = f x).
Proof.
  induction l as [|y rest IH]; intros l' i x Hup Hnth; simpl in Hup.
  - discriminate.
  - destruct (p y).
    + injection Hup as <-. destruct i as [|i]; simpl in *.
      * injection Hnth as <-. eauto.
      * eauto.
    + destruct (update_first p f rest) as [rest'|] eqn:E; [|discriminate].
      injection Hup as <-. destruct i as [|i]; simpl in *.
      * eauto.
      * eapply IH; eauto.
Qed.

Lemma update_first_find {A : Type} (p : A -> bool) (f : A -> A) :
  (forall y, p y = true -> p (f y) = true) ->
  forall l x,
    find p l = Some x ->
    exists l', update_first p f l = Some l' /\ find p l' = Some (f x).
Proof.
  intros Hp. induction l as [|y rest IH]; intros x Hfind; simpl in *.
  - discriminate.
  - destruct (p y) eqn:Epy.
    + injection Hfind as <-. eexists. split; [reflexivity|].
      simpl. now rewrite (Hp _ Epy).
    + destruct (IH _ Hfind) as [l' [-> Hl']].
      eexists. split; [reflexivity|]. simpl. now rewrite Epy.
Qed.

Lemma pool_set_pool p st : getTransactionPool (set_pool p st) = p.
Proof. reflexivity. Qed.

Lemma submit_valid_room t st :
  validateTransaction t = Valid ->
  (List.length (getTransactionPool st) < MAX_POOL_SIZE)%nat ->
  submitTransaction t st
  = (Return tt, set_pool (getTransactionPool st ++ [t]) st).
Proof.
  intros Hv Hlen. unfold submitTransaction. rewrite Hv.
  destruct (Nat.leb_spec MAX_POOL_SIZE (List.length (getTransactionPool st)));
    [lia | reflexivity].
Qed.

Lemma submit_valid_full t st :
  validateTransaction t = Valid ->
  (MAX_POOL_SIZE <= List.length (getTransactionPool st))%nat ->
  submitTransaction t st = (Throw "Transaction pool is full", st).
Proof.
  intros Hv Hlen. unfold submitTransaction. rewrite Hv.
  destruct (Nat.leb_spec MAX_POOL_SIZE (List.length (getTransactionPool st)));
    [reflexivity | lia].
Qed.

Lemma submit_invalid t st reason :
  validateTransaction t = Invalid reason ->
  submitTransaction t st
  = (Throw ("Transaction validation failed: " ++ reason), st).
Proof. intros Hv. unfold submitTransaction. now rewrite Hv. Qed.

Lemma submit_length_bound t st :
  (List.length (getTransactionPool (snd (submitTransaction t st)))
   <= Nat.max (List.length (getTransactionPool st)) MAX_POOL_SIZE)%nat.
Proof.
  unfold submitTransaction. destruct (validateTransaction t); cbn [snd]; [|lia].
  destruct (Nat.leb_spec MAX_POOL_SIZE (List.length (getTransactionPool st)));
    cbn [snd]; [lia|].
  rewrite pool_set_pool, length_app. cbn [List.length]. lia.
Qed.

Lemma mark_confirmed_length id bi g st :
  List.length (getTransactionPool (markTransactionConfirmed id bi g st))
  = List.length (getTransactionPool st).
Proof.
  unfold markTransactionConfirmed.
  destruct (update_first _ _ _) as [pool'|] eqn:E; [|reflexivity].
  rewrite pool_set_pool. eapply update_first_length; eauto.
Qed.

Lemma mark_failed_length id st :
  List.length (getTransactionPool (markTransactionFailed id st))
  = List.length (getTransactionPool st).
Proof.
  unfold markTransactionFailed.
  destruct (update_first _ _ _) as [pool'|] eqn:E; [|reflexivity].
  rewrite pool_set_pool. eapply update_first_length; eauto.
Qed.

Lemma filter_length_le {A : Type} (p : A -> bool) (l : list A) :
  (List.length (filter p l) <= List.length l)%nat.
Proof.
  induction l as [|x rest IH]; simpl; [lia|].
  destruct (p x); simpl; lia.
Qed.

Lemma other_ops_do_not_grow op st :
  ~ is_submit op ->
  (List.length (getTransactionPool (applyOp op st))
   <= List.length (getTransactionPool st))%nat.
Proof.
  destruct op; simpl; intros Hns.
  - unfold initialize, getTransactionPool.
    destruct (st_pool st) eqn:E; simpl; rewrite ?E; simpl; lia.
  - now destruct Hns.
  - rewrite mark_confirmed_length. lia.
  - rewrite mark_failed_length. lia.
  - unfold removePendingTransaction. rewrite pool_set_pool.
    apply filter_length_le.
  - unfold clearConfirmedTransactions. simpl. rewrite pool_set_pool.
    apply filter_length_le.
Qed.

Lemma applyOp_ceiling op st :
  (List.length (getTransactionPool st) <= MAX_POOL_SIZE)%nat ->
  (List.length (getTransactionPool (applyOp op st)) <= MAX_POOL_SIZE)%nat.
Proof.
  intros Hle. destruct op.
  2: { cbn [applyOp]. pose proof (submit_length_bound t st). lia. }
  all: etransitivity; [apply other_ops_do_not_grow; simpl; tauto | exact Hle].
Qed.

Lemma runOps_ceiling ops : forall st,
  (List.length (getTransactionPool st) <= MAX_POOL_SIZE)%nat ->
  (List.length (getTransactionPool (runOps ops st)) <= MAX_POOL_SIZE)%nat.
Proof.
  induction ops as [|op ops IH]; intros st Hle; simpl; [exact Hle|].
  apply IH. now apply applyOp_ceiling.
Qed.

Lemma submitAll_appends txs : forall st,
  Forall (fun t => validateTransaction t = Valid) txs ->
  (List.length (getTransactionPool st) + List.length txs <= MAX_POOL_SIZE)%nat ->
  exists st',
    submitAll txs st = Some st'
    /\ getTransactionPool st' = getTransactionPool st ++ txs.
Proof.
  induction txs as [|t rest IH]; intros st Hall Hlen; simpl.
  - exists st. now rewrite app_nil_r.
  - inversion Hall as [|? ? Ht Hrest]; subst. cbn [List.length] in Hlen.
    rewrite (submit_valid_room t st Ht) by lia.
    destruct (IH (set_pool (getTransactionPool st ++ [t]) st) Hrest)
      as [st' [Hsub Hpool]].
    + rewrite pool_set_pool, length_app. cbn [List.length]. lia.
    + exists st'. split; [exact Hsub|].
      rewrite Hpool, pool_set_pool, <- app_assoc. reflexivity.
Qed.

Lemma stats_fold l : forall acc,
  acc_totalGasUsed (fold_left stats_step l acc)
  = acc_totalGasUsed acc + sumGas (confirmedOf l)
  /\ acc_confirmedCount (fold_left stats_step l acc)
     = (acc_confirmedCount acc + List.length (gasCounted l))%nat.
Proof.
  induction l as [|t rest IH]; intros acc; simpl.
  - split; lia.
  - destruct (IH (stats_step acc t)) as [Hsum Hcnt].
    rewrite Hsum, Hcnt. unfold stats_step, gasCounted, confirmedOf. simpl.
    destruct (status_eqb (tx_status t) Confirmed); simpl.
    + destruct (Z.eqb_spec (tx_gasUsed t) 0) as [E|E]; simpl.
      * rewrite E. split; lia.
      * split; lia.
    + split; lia.
Qed.

Lemma sign_ignores_signature `{Runtime} id type from to data now sig st gl gu bi :
  signTransaction (mkTx id type from to data now sig st gl gu bi)
  = generateHash (stringify_signed id type from to data now).
Proof. reflexivity. Qed.

(** ** The transaction pool: checked properties *)

(** C8. The pool never holds more than 1000 entries.  For a transaction that
    passes validation, [submitTransaction] throws "Transaction pool is full"
    when the pool holds at least [MAX_POOL_SIZE] = 1000 entries and appends
    otherwise; a pool within the ceiling stays within it under every sequence
    of pool operations; 1000 valid submissions to an empty pool all succeed
    and the next one fails with the capacity error; no operation other than
    a submission makes the pool longer. *)
Theorem pool_capacity_is_a_ceiling :
  MAX_POOL_SIZE = 1000%nat
  /\ (forall t st,
        validateTransaction t = Valid ->
        submitTransaction t st
        = if (MAX_POOL_SIZE <=? List.length (getTransactionPool st))%nat
          then (Throw "Transaction pool is full", st)
          else (Return tt, set_pool (getTransactionPool st ++ [t]) st))
  /\ (forall ops st,
        (List.length (getTransactionPool st) <= MAX_POOL_SIZE)%nat ->
        (List.length (getTransactionPool (runOps ops st)) <= MAX_POOL_SIZE)%nat)
  /\ (forall txs t st,
        Forall (fun x => validateTransaction x = Valid) txs ->
        List.length txs = MAX_POOL_SIZE ->
        validateTransaction t = Valid ->
        getTransactionPool st = [] ->
        exists st',
          submitAll txs st = Some st'
          /\ getTransactionPool st' = txs
          /\ submitTransaction t st' = (Throw "Transaction pool is full", st'))
  /\ (forall op st,
        ~ is_submit op ->
        (List.length (getTransactionPool (applyOp op st))
         <= List.length (getTransactionPool st))%nat).
Proof.
  split; [reflexivity|].
  split.
  { intros t st Hv.
    destruct (Nat.leb_spec MAX_POOL_SIZE (List.length (getTransactionPool st))).
    - now apply submit_valid_full.
    - now apply submit_valid_room. }
  split; [intros ops st; apply runOps_ceiling|].
  split; [|exact other_ops_do_not_grow].
  intros txs t st Hall Hlen Ht Hempty.
  destruct (submitAll_appends txs st Hall) as [st' [Hsub Hpool]].
  - rewrite Hempty. cbn [List.length]. lia.
  - rewrite Hempty in Hpool. cbn [app] in Hpool.
    exists st'. repeat split; try assumption.
    apply submit_valid_full; [assumption|]. rewrite Hpool. lia.
Qed.

Lemma manyVotes_valid n :
  Forall (fun x => validateTransaction x = Valid) (manyVotes n).
Proof.
  apply Forall_forall. intros x Hx. unfold manyVotes in Hx.
  apply in_map_iff in Hx. destruct Hx as [k [<- _]]. reflexivity.
Qed.

Lemma pool_capacity_is_a_ceiling_witness :
  exists st',
    submitAll (manyVotes 1000) emptyStore = Some st'
    /\ getTransactionPool st' = manyVotes 1000
    /\ submitTransaction (demoVote "tx-1000") st'
       = (Throw "Transaction pool is full", st').
Proof.
  apply (proj1 (proj2 (proj2 (proj2 pool_capacity_is_a_ceiling)))).
  - apply manyVotes_valid.
  - unfold manyVotes. rewrite length_map, length_seq. reflexivity.
  - reflexivity.
  - reflexivity.
Defined.

(** C4, as the specification states it, fails: a confirmed transaction is
    turned into a failed one by [markTransactionFailed], and a failed one is
    confirmed by [markTransactionConfirmed]. *)
Lemma status_reversal_counterexample :
  map tx_status
    (getTransactionPool
       (mkStore None None None (Some [confirmedVote "tx-1" 0])))
  = [Confirmed]
  /\ map tx_status
       (getTransactionPool
          (markTransactionFailed "tx-1"
             (mkStore None None None (Some [confirmedVote "tx-1" 0]))))
     = [Failed]
  /\ map tx_status
       (getTransactionPool
          (markTransactionConfirmed "tx-1" (Num 2) 0
             (markTransactionFailed "tx-1"
                (mkStore None None None (Some [confirmedVote "tx-1" 0])))))
     = [Confirmed].
Proof. repeat split. Qed.

Lemma mark_keeps_entry op st i t :
  is_mark op ->
  nth_error (getTransactionPool st) i = Some t ->
  exists t',
    nth_error (getTransactionPool (applyOp op st)) i = Some t'
    /\ tx_id t' = tx_id t
    /\ (tx_status t' = Pending -> tx_status t = Pending).
Proof.
  intros Hmark Hnth. destruct op; try now destruct Hmark.
  - simpl. unfold markTransactionConfirmed.
    destruct (update_first _ _ _) as [pool'|] eqn:E.
    + rewrite pool_set_pool.
      destruct (update_first_nth _ _ _ _ _ _ E Hnth) as [t' [Ht' Hor]].
      exists t'. split; [assumption|].
      destruct Hor as [->| ->]; simpl; split; congruence.
    + exists t. auto.
  - simpl. unfold markTransactionFailed.
    destruct (update_first _ _ _) as [pool'|] eqn:E.
    + rewrite pool_set_pool.
      destruct (update_first_nth _ _ _ _ _ _ E Hnth) as [t' [Ht' Hor]].
      exists t'. split; [assumption|].
      destruct Hor as [->| ->]; simpl; split; congruence.
    + exists t. auto.
Qed.

Lemma marks_keep_entry ops : forall st i t,
  Forall is_mark ops ->
  nth_error (getTransactionPool st) i = Some t ->
  exists t',
    nth_error (getTransactionPool (runOps ops st)) i = Some t'
    /\ tx_id t' = tx_id t
    /\ (tx_status t' = Pending -> tx_status t = Pending).
Proof.
  induction ops as [|op ops IH]; intros st i t Hall Hnth; simpl.
  - exists t. auto.
  - inversion Hall as [|? ? Hop Hops]; subst.
    destruct (mark_keeps_entry op st i t Hop Hnth) as [t1 [H1 [Hid1 Hst1]]].
    destruct (IH _ _ _ Hops H1) as [t' [H' [Hid' Hst']]].
    exists t'. repeat split; [assumption|congruence|auto].
Qed.

(** C4, amended.  Under every sequence of [markTransactionConfirmed] and
    [markTransactionFailed] calls a pool entry keeps its place and its id,
    and an entry that is no longer pending never becomes pending again.
    Each of the two operations puts the first entry with the given id into
    its own target status whatever the status was before, so a confirmed
    entry can become failed and a failed one confirmed. *)
Theorem status_never_returns_to_pending :
  (forall ops st i t,
     Forall is_mark ops ->
     nth_error (getTransactionPool st) i = Some t ->
     exists t',
       nth_error (getTransactionPool (runOps ops st)) i = Some t'
       /\ tx_id t' = tx_id t
       /\ (tx_status t <> Pending -> tx_status t' <> Pending))
  /\ (forall id st t,
        getTransactionById id st = Some t ->
        (exists t',
           getTransactionById id (markTransactionFailed id st) = Some t'
           /\ tx_status t' = Failed)
        /\ (forall blockIndex gasUsed,
              exists t',
                getTransactionById id
                  (markTransactionConfirmed id blockIndex gasUsed st)
                = Some t'
                /\ tx_status t' = Confirmed)).
Proof.
  split.
  - intros ops st i t Hall Hnth.
    destruct (marks_keep_entry ops st i t Hall Hnth) as [t' [H' [Hid Hst]]].
    exists t'. repeat split; auto.
  - intros id st t Hfind. unfold getTransactionById in *. split.
    + unfold markTransactionFailed.
      destruct (update_first_find (fun x => String.eqb (tx_id x) id)
                  (fun x =>
                     mkTx (tx_id x) (tx_type x) (tx_from x) (tx_to x)
                       (tx_data x) (tx_timestamp x) (tx_signature x) Failed
                       (tx_gasLimit x) (tx_gasUsed x) (tx_blockIndex x))
                  (fun y Hy => Hy) _ _ Hfind) as [l' [-> Hl']].
      rewrite pool_set_pool, Hl'. eexists. split; reflexivity.
    + intros blockIndex gasUsed. unfold markTransactionConfirmed.
      destruct (update_first_find (fun x => String.eqb (tx_id x) id)
                  (fun x =>
                     mkTx (tx_id x) (tx_type x) (tx_from x) (tx_to x)
                       (tx_data x) (tx_timestamp x) (tx_signature x) Confirmed
                       (tx_gasLimit x) gasUsed (Some blockIndex))
                  (fun y Hy => Hy) _ _ Hfind) as [l' [-> Hl']].
      rewrite pool_set_pool, Hl'. eexists. split; reflexivity.
Qed.

Lemma status_never_returns_to_pending_witness :
  exists t',
    nth_error
      (getTransactionPool
         (runOps [OpFail "tx-1"; OpConfirm "tx-1" (Num 2) 7; OpFail "tx-9"]
            (mkStore None None None (Some [confirmedVote "tx-1" 0]))))
      0
    = Some t'
    /\ tx_id t' = tx_id (confirmedVote "tx-1" 0)
    /\ (tx_status (confirmedVote "tx-1" 0) <> Pending ->
        tx_status t' <> Pending).
Proof.
  apply (proj1 status_never_returns_to_pending).
  - repeat constructor.
  - reflexivity.
Defined.

(** C9, as the specification states it, fails: with one confirmed
    transaction of gas 100 and one confirmed transaction of gas 0 the
    reported mean is 100, not (100 + 0) / 2. *)
Lemma averageGasUsed_counterexample :
  averageGasUsed
    (getTransactionStats
       (mkStore None None None
          (Some [confirmedVote "tx-1" 100; confirmedVote "tx-2" 0])))
  == 100
  /\ meanGasOverConfirmed [confirmedVote "tx-1" 100; confirmedVote "tx-2" 0]
     == 50
  /\ confirmedTransactions
       (getTransactionStats
          (mkStore None None None
             (Some [confirmedVote "tx-1" 100; confirmedVote "tx-2" 0])))
     = 2%nat.
Proof. repeat split. Qed.

(** C9, amended.  [averageGasUsed] is the sum of [gasUsed] over all confirmed
    transactions divided by the number of confirmed transactions whose
    [gasUsed] is not zero, and 0 when there is no such transaction:
    confirmed transactions with zero gas used are left out of the
    denominator. *)
Theorem averageGasUsed_counts_nonzero_gas (st : Store) :
  averageGasUsed (getTransactionStats st)
  = if (0 <? List.length (gasCounted (getTransactionPool st)))%nat
    then (inject_Z (sumGas (confirmedOf (getTransactionPool st)))
          / inject_Z (Z.of_nat (List.length (gasCounted (getTransactionPool st)))))%Q
    else 0%Q.
Proof.
  unfold getTransactionStats. cbn [averageGasUsed].
  destruct (stats_fold (getTransactionPool st) (mkAcc [] 0 0%nat))
    as [Hsum Hcnt].
  rewrite Hsum, Hcnt. reflexivity.
Qed.

(** C10. Admission does not check the signature.  Take a transaction built by
    [createTransaction] that passes validation and replace its payload by
    another non-empty payload that the digest tells apart from the signed
    one: [verifyTransactionSignature] rejects the altered transaction, yet
    [validateTransaction] accepts it and [submitTransaction] appends it to
    any pool that is not full. *)
Theorem tampered_transaction_is_admitted `{Runtime}
    (uuid : string) (now : Z) (type from : string) (data data' : JSData)
    (to : option string) (st : Store) :
  let signed := createTransaction uuid now type from data to in
  let altered := with_data data' signed in
  validateTransaction signed = Valid ->
  data_truthy data' = true ->
  signTransaction altered <> signTransaction signed ->
  (List.length (getTransactionPool st) < MAX_POOL_SIZE)%nat ->
  verifyTransactionSignature signed = true
  /\ verifyTransactionSignature altered = false
  /\ validateTransaction altered = Valid
  /\ submitTransaction altered st
     = (Return tt, set_pool (getTransactionPool st ++ [altered]) st).
Proof.
  intros signed altered Hvalid Htruthy Hdiff Hroom.
  assert (Hsig : tx_signature altered = signTransaction signed) by reflexivity.
  assert (Hva : validateTransaction altered = Valid).
  { revert Hvalid. unfold validateTransaction. subst altered signed.
    cbn [with_data createTransaction tx_id tx_signature tx_from tx_data tx_type].
    destruct (negb (str_truthy uuid) || negb (str_truthy _)); [discriminate|].
    destruct (negb (str_truthy from)); [discriminate|].
    rewrite Htruthy. cbn [negb].
    destruct (negb (data_truthy data)); [discriminate|].
    destruct (negb (existsb _ _)); [discriminate|]. reflexivity. }
  repeat split.
  - unfold verifyTransactionSignature. apply String.eqb_refl.
  - unfold verifyTransactionSignature. rewrite Hsig.
    apply String.eqb_neq. congruence.
  - exact Hva.
  - now apply submit_valid_room.
Qed.

Lemma tampered_transaction_is_admitted_witness :
  @verifyTransactionSignature demoRuntime (demoVote "tx-1") = true
  /\ @verifyTransactionSignature demoRuntime
       (with_data (DString "candidate-B") (demoVote "tx-1")) = false
  /\ validateTransaction (with_data (DString "candidate-B") (demoVote "tx-1"))
     = Valid
  /\ submitTransaction (with_data (DString "candidate-B") (demoVote "tx-1"))
       emptyStore
     = (Return tt,
        set_pool
          (getTransactionPool emptyStore
           ++ [with_data (DString "candidate-B") (demoVote "tx-1")])
          emptyStore).
Proof.
  apply (@tampered_transaction_is_admitted demoRuntime "tx-1" 1700000000000
           "vote" "voter-1" (DString "candidate-A") (DString "candidate-B")
           None emptyStore).
  - reflexivity.
  - reflexivity.
  - vm_compute. discriminate.
  - vm_compute. lia.
Defined.

(** ** Facts about the chain *)

Lemma last_cons {A : Type} (rest : list A) : forall c d,
  last (c :: rest) d = last rest c.
Proof.
  induction rest as [|x rest IH]; intros c d; [reflexivity|].
  change (last (c :: x :: rest) d) with (last (x :: rest) d).
  now rewrite !IH.
Qed.

Lemma tip_cons first rest : tip (first :: rest) = Some (last rest first).
Proof.
  unfold tip. cbn [List.length]. rewrite Nat.sub_1_r. cbn [Nat.pred].
  revert first. induction rest as [|b rest IH]; intros first; [reflexivity|].
  cbn [List.length nth_error]. rewrite IH, last_cons. reflexivity.
Qed.

Lemma tip_app chain b : tip (chain ++ [b]) = Some b.
Proof.
  unfold tip. rewrite length_app. cbn [List.length].
  replace (List.length chain + 1 - 1)%nat with (List.length chain) by lia.
  rewrite nth_error_app2 by lia. now rewrite Nat.sub_diag.
Qed.

Lemma tip_nil_iff chain : tip chain = None <-> chain = [].
Proof.
  destruct chain as [|first rest]; [now split|].
  rewrite tip_cons. split; discriminate.
Qed.

Lemma validate_from_app `{Runtime} rest : forall first b,
  validate_from first (rest ++ [b])
  = validate_from first rest && returned (validateBlock b (last rest first)).
Proof.
  induction rest as [|c rest IH]; intros first b.
  - simpl. destruct (validateBlock b first); reflexivity.
  - cbn [app validate_from].
    destruct (validateBlock c first); try reflexivity.
    rewrite IH, last_cons. reflexivity.
Qed.

Lemma validateChain_app `{Runtime} chain prev b :
  tip chain = Some prev ->
  validateChain (chain ++ [b])
  = validateChain chain && returned (validateBlock b prev).
Proof.
  destruct chain as [|first rest]; [discriminate|].
  rewrite tip_cons. intros [= <-]. apply validate_from_app.
Qed.

Lemma validate_from_pairs `{Runtime} rest : forall first,
  validate_from first rest = true
  <-> forall i cur prev,
        nth_error (first :: rest) (S i) = Some cur ->
        nth_error (first :: rest) i = Some prev ->
        validateBlock cur prev = Return tt.
Proof.
  induction rest as [|c rest IH]; intros first.
  - split; [|reflexivity]. intros _ i cur prev Hcur. destruct i; discriminate.
  - cbn [validate_from]. split.
    + intros Hv i cur prev Hcur Hprev.
      destruct (validateBlock c first) as [[]| |] eqn:E; try discriminate.
      destruct i as [|i].
      * cbn in Hcur, Hprev. congruence.
      * apply (proj1 (IH c) Hv i); assumption.
    + intros Hall.
      rewrite (Hall 0%nat c first eq_refl eq_refl).
      apply IH. intros i cur prev Hcur Hprev.
      apply (Hall (S i)); assumption.
Qed.

Lemma validateBlock_checks `{Runtime} cur prev :
  validateBlock cur prev = Return tt
  <-> (exists z, b_index prev = Num z /\ b_index cur = Num (z + 1))
      /\ b_previousHash cur = b_hash prev
      /\ b_hash cur = calculateHash cur
      /\ (forall transactions,
            b_transactions cur = Some transactions ->
            b_merkleRoot cur = calculateMerkleRoot transactions).
Proof.
  unfold validateBlock. split.
  - intros Hv.
    destruct (js_num_eqb _ _) eqn:Ei; [|discriminate]. cbn [negb] in Hv.
    destruct (String.eqb_spec (b_previousHash cur) (b_hash prev)) as [Ep|];
      [|discriminate]. cbn [negb] in Hv.
    destruct (String.eqb_spec (b_hash cur) (calculateHash cur)) as [Eh|];
      [|discriminate]. cbn [negb] in Hv.
    repeat split; try assumption.
    + destruct (b_index cur) as [x|], (b_index prev) as [y|];
        try discriminate.
      exists y. split; [reflexivity|]. cbn in Ei.
      apply Z.eqb_eq in Ei. now subst.
    + intros transactions Ht. rewrite Ht in Hv.
      destruct (String.eqb_spec (b_merkleRoot cur)
                  (calculateMerkleRoot transactions)); [assumption|].
      discriminate.
  - intros [[z [Hp Hc]] [Hprev [Hhash Hmerkle]]].
    rewrite Hp, Hc. cbn [js_succ js_num_eqb]. rewrite Z.eqb_refl.
    rewrite Hprev, String.eqb_refl. cbn [negb].
    rewrite <- Hhash, String.eqb_refl. cbn [negb].
    destruct (b_transactions cur) as [transactions|]; [|reflexivity].
    rewrite (Hmerkle _ eq_refl), String.eqb_refl. reflexivity.
Qed.

Lemma mark_confirmed_frame id bi g st :
  st_chain (markTransactionConfirmed id bi g st) = st_chain st
  /\ st_nodes (markTransactionConfirmed id bi g st) = st_nodes st
  /\ st_consensus (markTransactionConfirmed id bi g st) = st_consensus st.
Proof.
  unfold markTransactionConfirmed.
  destruct (update_first _ _ _); repeat split.
Qed.

Lemma confirm_all_frame bi txs : forall st,
  let st' :=
    fold_left
      (fun s transaction =>
         markTransactionConfirmed (tx_id transaction) bi
           (z_or (tx_gasUsed transaction) 0) s)
      txs st in
  st_chain st' = st_chain st
  /\ st_nodes st' = st_nodes st
  /\ st_consensus st' = st_consensus st.
Proof.
  induction txs as [|t rest IH]; intros st; cbn [fold_left].
  - repeat split.
  - destruct (IH (markTransactionConfirmed (tx_id t) bi
                    (z_or (tx_gasUsed t) 0) st)) as [Hc [Hn Hs]].
    destruct (mark_confirmed_frame (tx_id t) bi (z_or (tx_gasUsed t) 0) st)
      as [Hc' [Hn' Hs']].
    cbv zeta. rewrite Hc, Hn, Hs. auto.
Qed.

Lemma updateValidatorStats_frame id now st :
  st_chain (updateValidatorStats id now st) = st_chain st
  /\ st_consensus (updateValidatorStats id now st) = st_consensus st.
Proof.
  unfold updateValidatorStats. destruct (update_first _ _ _); split; reflexivity.
Qed.

Lemma rotateValidator_frame st :
  st_chain (rotateValidator st) = st_chain st
  /\ st_nodes (rotateValidator st) = st_nodes st.
Proof.
  unfold rotateValidator. destruct (getActiveValidators st); [split; reflexivity|].
  destruct (nth_error _ _); split; reflexivity.
Qed.

Lemma commitBlock_chain env txs b st :
  getBlockchain (commitBlock env txs b st) = getBlockchain st ++ [b].
Proof.
  unfold commitBlock, getBlockchain at 1.
  destruct (confirm_all_frame (b_index b) txs
              (rotateValidator
                 (updateValidatorStats (str_or (Some (b_validator b)) "system")
                    (env_seen env)
                    (set_chain (getBlockchain st ++ [b]) st))))
    as [Hc _].
  cbv zeta in Hc. rewrite Hc.
  rewrite (proj1 (rotateValidator_frame _)).
  rewrite (proj1 (updateValidatorStats_frame _ _ _)). reflexivity.
Qed.

(** What a successful [addBlock] call has done. *)
Lemma addBlock_returned `{Runtime} env txs st b st' :
  addBlock env txs st = (Return b, st') ->
  exists prev,
    tip (getBlockchain st) = Some prev
    /\ candidateBlock env txs prev (getConsensusState st) = Return b
    /\ validateBlock b prev = Return tt
    /\ st' = commitBlock env txs b st.
Proof.
  unfold addBlock. intros Hadd.
  destruct (tip (getBlockchain st)) as [prev|] eqn:Et; [|discriminate].
  destruct (candidateBlock env txs prev (getConsensusState st)) as [nb| |]
    eqn:Ec; try discriminate.
  destruct (validateBlock nb prev) as [[]| |] eqn:Ev; try discriminate.
  injection Hadd as <- <-. exists prev. repeat split; auto.
Qed.

(** Any other outcome of [addBlock] leaves the store as it was. *)
Lemma addBlock_failure_leaves_store `{Runtime} env txs st r st' :
  addBlock env txs st = (r, st') ->
  returned r = false ->
  st' = st.
Proof.
  unfold addBlock. intros Hadd Hr.
  destruct (tip (getBlockchain st)) as [prev|]; [|congruence].
  destruct (candidateBlock env txs prev (getConsensusState st)) as [nb| |];
    try congruence.
  destruct (validateBlock nb prev) as [[]| |]; try congruence.
  injection Hadd as <- <-. discriminate.
Qed.

(** The hash a candidate carries is the hash recomputed from its fields. *)
Lemma mineBlockPoW_hash `{Runtime} nonces : forall block difficulty mined hash,
  mineBlockPoW nonces block difficulty = Some (mined, hash) ->
  hash = calculateHash mined
  /\ b_index mined = b_index block
  /\ b_previousHash mined = b_previousHash block
  /\ b_transactions mined = b_transactions block
  /\ b_merkleRoot mined = b_merkleRoot block.
Proof.
  induction nonces as [|n later IH]; intros block difficulty mined hash Hm;
    cbn [mineBlockPoW] in Hm; [discriminate|].
  destruct (String.eqb _ _).
  - injection Hm as <- <-. repeat split.
  - destruct (IH _ _ _ _ Hm) as [Hh [Hi [Hp [Ht Hr]]]].
    repeat split; assumption.
Qed.

Lemma candidateBlock_validates `{Runtime} env txs prev consensus b z :
  b_index prev = Num z ->
  candidateBlock env txs prev consensus = Return b ->
  validateBlock b prev = Return tt.
Proof.
  intros Hz Hc. apply validateBlock_checks. unfold candidateBlock in Hc.
  destruct (c_mechanism consensus).
  - injection Hc as <-. cbn. rewrite Hz. repeat split.
    + exists z. auto.
    + intros transactions [= <-]. reflexivity.
  - destruct (c_difficulty consensus <? 0); [discriminate|].
    destruct (mineBlockPoW _ _ _) as [[mined hash]|] eqn:Em; [|discriminate].
    injection Hc as <-.
    destruct (mineBlockPoW_hash _ _ _ _ _ Em) as [Hh [Hi [Hp [Ht Hr]]]].
    cbn in Hi, Hp, Ht, Hr. cbn. rewrite Hi, Hp, Ht, Hr, Hz. repeat split.
    + exists z. auto.
    + exact Hh.
    + intros transactions [= <-]. reflexivity.
Qed.

(** The invariant of produced chains: they validate and their tip carries a
    proper index. *)
Lemma produced_invariant `{Runtime} chain :
  Produced chain ->
  validateChain chain = true
  /\ exists b z, tip chain = Some b /\ b_index b = Num z.
Proof.
  induction 1 as [nowData now | st env txs b st' _ [IHv [p [z [Htip Hz]]]] Hadd].
  - split; [reflexivity|]. eexists. exists 0. split; reflexivity.
  - destruct (addBlock_returned _ _ _ _ _ Hadd) as [prev [Hp [Hc [Hv ->]]]].
    rewrite commitBlock_chain. split.
    + rewrite (validateChain_app _ _ _ Hp), IHv, Hv. reflexivity.
    + rewrite tip_app. exists b.
      apply validateBlock_checks in Hv. destruct Hv as [[y [_ Hy]] _].
      eauto.
Qed.

(** The fuel given to the Merkle loop is enough for the loop to end by its
    own test: the list it returns has at most one element. *)
Lemma merkle_level_shrinks `{Runtime} (l : list string) :
  (List.length (merkle_level l) <= List.length l)%nat
  /\ (2 <= List.length l -> List.length (merkle_level l) < List.length l)%nat.
Proof.
  enough (Hboth :
    ((List.length (merkle_level l) <= List.length l)%nat
     /\ (2 <= List.length l ->
         List.length (merkle_level l) < List.length l)%nat)
    /\ forall a,
        (List.length (merkle_level (a :: l)) <= List.length (a :: l))%nat
        /\ (2 <= List.length (a :: l) ->
            List.length (merkle_level (a :: l)) < List.length (a :: l))%nat)
    by apply Hboth.
  induction l as [|b rest [IHrest IHcons]].
  - cbn. repeat split; lia.
  - split; [apply IHcons|].
    intros a. cbn [merkle_level List.length]. destruct IHrest. split; lia.
Qed.

Lemma merkle_loop_settles `{Runtime} fuel : forall l,
  (List.length l <= S fuel)%nat ->
  (List.length (merkle_loop fuel l) <= 1)%nat.
Proof.
  induction fuel as [|fuel IH]; intros l Hl; cbn [merkle_loop]; [lia|].
  destruct (Nat.ltb_spec 1 (List.length l)) as [Hlong|Hshort]; [|lia].
  apply IH. destruct (merkle_level_shrinks l) as [_ Hlt]. lia.
Qed.

(** ** The ledger: checked properties *)

(** C1. Every chain obtained from a genesis block by successful [addBlock]
    calls passes [validateBlockchain].  [validateBlockchain] is true exactly
    when [validateBlock] accepts every adjacent pair of the stored chain, and
    [validateBlock] accepts a pair exactly when the index is the previous
    index plus one, the previous-hash field is the previous block's hash, the
    hash is the one recomputed from the block, and the Merkle root is the one
    recomputed from the transaction list the block carries; so one pair that
    breaks one of the checks makes the walk return false.  On such a chain a
    proof-of-authority [addBlock] call always returns a block. *)
Theorem produced_chains_validate `{Runtime} :
  (forall st, Produced (getBlockchain st) -> validateBlockchain st = true)
  /\ (forall st,
        validateBlockchain st = true
        <-> forall i cur prev,
              nth_error (getBlockchain st) (S i) = Some cur ->
              nth_error (getBlockchain st) i = Some prev ->
              validateBlock cur prev = Return tt)
  /\ (forall cur prev,
        validateBlock cur prev = Return tt
        <-> (exists z, b_index prev = Num z /\ b_index cur = Num (z + 1))
            /\ b_previousHash cur = b_hash prev
            /\ b_hash cur = calculateHash cur
            /\ (forall transactions,
                  b_transactions cur = Some transactions ->
                  b_merkleRoot cur = calculateMerkleRoot transactions))
  /\ (forall st env transactions,
        Produced (getBlockchain st) ->
        c_mechanism (getConsensusState st) = PoA ->
        exists block,
          addBlock env transactions st
          = (Return block, commitBlock env transactions block st)).
Proof.
  split; [|split; [|split]].
  - intros st Hp. apply (produced_invariant _ Hp).
  - intros st. unfold validateBlockchain, validateChain.
    destruct (getBlockchain st) as [|first rest].
    + split; [|reflexivity]. intros _ i cur prev Hc. destruct i; discriminate.
    + apply validate_from_pairs.
  - exact validateBlock_checks.
  - intros st env txs Hp Hpoa.
    destruct (produced_invariant _ Hp) as [_ [prev [z [Htip Hz]]]].
    unfold addBlock. rewrite Htip.
    destruct (candidateBlock env txs prev (getConsensusState st)) as [nb| |]
      eqn:Ec.
    + rewrite (candidateBlock_validates _ _ _ _ _ _ Hz Ec). eauto.
    + unfold candidateBlock in Ec. rewrite Hpoa in Ec. discriminate.
    + unfold candidateBlock in Ec. rewrite Hpoa in Ec. discriminate.
Qed.

Lemma produced_chains_validate_witness :
  @validateBlockchain demoRuntime
    (snd (@addBlock demoRuntime (demoEnv 1700000003000) [demoVote "tx-1"]
            freshLedger))
  = true.
Proof.
  apply (proj1 (@produced_chains_validate demoRuntime)).
  eapply (@Produced_addBlock demoRuntime freshLedger
            (demoEnv 1700000003000) [demoVote "tx-1"]).
  - exact (@Produced_genesis demoRuntime 1700000000000 1700000000000).
  - vm_compute. reflexivity.
Defined.

(** C2. When the candidate block that [addBlock] has built, hashed and signed
    is rejected by [validateBlock], [addBlock] throws the same error and the
    store is what it was before the call: no block appended, no validator
    statistics updated, no rotation, no transaction confirmed. *)
Theorem addBlock_rejected_candidate_leaves_store `{Runtime}
    (env : AddBlockEnv) (transactions : list BlockchainTransaction)
    (st : Store) (previousBlock candidate : BlockchainBlock) (msg : string) :
  tip (getBlockchain st) = Some previousBlock ->
  candidateBlock env transactions previousBlock (getConsensusState st)
  = Return candidate ->
  validateBlock candidate previousBlock = Throw msg ->
  addBlock env transactions st = (Throw msg, st).
Proof.
  intros Htip Hc Hv. unfold addBlock. now rewrite Htip, Hc, Hv.
Qed.

Lemma addBlock_rejected_candidate_leaves_store_witness :
  @addBlock demoRuntime (demoEnv 1700000003000) [demoVote "tx-1"] brokenLedger
  = (Throw "Invalid block index", brokenLedger).
Proof.
  eapply (@addBlock_rejected_candidate_leaves_store demoRuntime
            (demoEnv 1700000003000) [demoVote "tx-1"] brokenLedger brokenTip).
  - reflexivity.
  - reflexivity.
  - reflexivity.
Defined.

(** ** Facts about validator rotation *)

Lemma update_first_filter_map {A B : Type} (p q : A -> bool) (f : A -> A)
    (g : A -> B) :
  (forall x, q (f x) = q x) ->
  (forall x, g (f x) = g x) ->
  forall l l',
    update_first p f l = Some l' ->
    map g (filter q l') = map g (filter q l).
Proof.
  intros Hq Hg. induction l as [|x rest IH]; intros l' Hup; simpl in Hup.
  - discriminate.
  - destruct (p x).
    + injection Hup as <-. simpl. rewrite Hq.
      destruct (q x); simpl; now rewrite ?Hg.
    + destruct (update_first p f rest) as [rest'|]; [|discriminate].
      injection Hup as <-. simpl.
      destruct (q x); simpl; now rewrite (IH rest' eq_refl).
Qed.

Lemma updateValidatorStats_activeIds id now st :
  activeIds (updateValidatorStats id now st) = activeIds st.
Proof.
  unfold updateValidatorStats.
  destruct (update_first _ _ (getNodes st)) as [nodes'|] eqn:E; [|reflexivity].
  unfold activeIds, getActiveValidators. cbn [set_nodes getNodes st_nodes].
  eapply update_first_filter_map; [| |exact E]; reflexivity.
Qed.

Lemma findIndex_unique (vs : list BlockchainNode) : forall k id,
  NoDup (map n_id vs) ->
  nth_error (map n_id vs) k = Some id ->
  findIndex (is_current (Some id)) vs = Z.of_nat k.
Proof.
  induction vs as [|x rest IH]; intros k id Hnd Hk.
  - destruct k; discriminate.
  - cbn [map] in Hnd, Hk. inversion Hnd as [|? ? Hnotin Hnd']; subst.
    cbn [findIndex is_current]. destruct k as [|k].
    + cbn in Hk. injection Hk as <-. now rewrite String.eqb_refl.
    + cbn [nth_error] in Hk.
      destruct (String.eqb_spec (n_id x) id) as [E|_].
      * exfalso. apply Hnotin. rewrite E. eapply nth_error_In; eauto.
      * rewrite (IH k id Hnd' Hk).
        destruct (Z.ltb_spec (Z.of_nat k) 0); lia.
Qed.

Lemma findIndex_absent {A : Type} (p : A -> bool) (l : list A) :
  (forall x, In x l -> p x = false) ->
  findIndex p l = -1.
Proof.
  induction l as [|x rest IH]; intros Hall; [reflexivity|].
  cbn [findIndex]. rewrite (Hall x (or_introl eq_refl)).
  rewrite IH by (intros y Hy; apply Hall; now right). reflexivity.
Qed.

Lemma rotateValidator_activeIds st : activeIds (rotateValidator st) = activeIds st.
Proof.
  unfold activeIds, getActiveValidators, getNodes.
  now rewrite (proj2 (rotateValidator_frame st)).
Qed.

Lemma rotateValidator_validators st :
  c_validators (getConsensusState (rotateValidator st))
  = c_validators (getConsensusState st).
Proof.
  unfold rotateValidator. destruct (getActiveValidators st); [reflexivity|].
  destruct (nth_error _ _); reflexivity.
Qed.

Lemma rotateValidator_next st k id :
  NoDup (activeIds st) ->
  nth_error (activeIds st) k = Some id ->
  currentAuthority st = Some id ->
  currentAuthority (rotateValidator st)
  = nth_error (activeIds st) ((k + 1) mod List.length (activeIds st)).
Proof.
  unfold activeIds, currentAuthority. intros Hnd Hk Hcur.
  unfold rotateValidator.
  destruct (getActiveValidators st) as [|v vs] eqn:Evs.
  { destruct k; discriminate. }
  rewrite Hcur, (findIndex_unique _ _ _ Hnd Hk).
  rewrite length_map.
  set (M := List.length (v :: vs)).
  assert (HM : (0 < M)%nat) by (subst M; cbn; lia).
  assert (Hnext :
    Z.to_nat (Z.rem (Z.of_nat k + 1) (Z.of_nat M)) = ((k + 1) mod M)%nat).
  { rewrite Z.rem_mod_nonneg by lia.
    replace (Z.of_nat k + 1) with (Z.of_nat (k + 1)) by lia.
    rewrite <- Nat2Z.inj_mod. apply Nat2Z.id. }
  rewrite Hnext.
  assert (Hlt : ((k + 1) mod M < M)%nat) by (apply Nat.mod_upper_bound; lia).
  destruct (nth_error (v :: vs) ((k + 1) mod M)) as [w|] eqn:Ew.
  - cbn [getConsensusState set_consensus st_consensus c_currentValidator].
    symmetry. now apply map_nth_error.
  - apply nth_error_None in Ew. fold M in Ew. lia.
Qed.

Lemma rotateValidator_fallback st v vs :
  getActiveValidators st = v :: vs ->
  (forall id, currentAuthority st = Some id -> ~ In id (activeIds st)) ->
  currentAuthority (rotateValidator st) = Some (n_id v).
Proof.
  unfold currentAuthority, activeIds. intros Hvs Habsent.
  unfold rotateValidator. rewrite Hvs in *.
  rewrite findIndex_absent.
  - reflexivity.
  - intros x Hx. unfold is_current.
    destruct (c_currentValidator (getConsensusState st)) as [c|]; [|reflexivity].
    apply String.eqb_neq. intros E. apply (Habsent c eq_refl).
    rewrite <- E. now apply in_map.
Qed.

Lemma confirm_all_authority bi txs st :
  let st' :=
    fold_left
      (fun s transaction =>
         markTransactionConfirmed (tx_id transaction) bi
           (z_or (tx_gasUsed transaction) 0) s)
      txs st in
  activeIds st' = activeIds st
  /\ getConsensusState st' = getConsensusState st.
Proof.
  destruct (confirm_all_frame bi txs st) as [_ [Hn Hc]]. cbv zeta in *.
  unfold activeIds, getActiveValidators, getNodes, getConsensusState.
  now rewrite Hn, Hc.
Qed.

Lemma commitBlock_rotates env txs b st k id :
  NoDup (activeIds st) ->
  nth_error (activeIds st) k = Some id ->
  currentAuthority st = Some id ->
  activeIds (commitBlock env txs b st) = activeIds st
  /\ currentAuthority (commitBlock env txs b st)
     = nth_error (activeIds st) ((k + 1) mod List.length (activeIds st))
  /\ c_validators (getConsensusState (commitBlock env txs b st))
     = c_validators (getConsensusState st).
Proof.
  intros Hnd Hk Hcur. unfold commitBlock.
  set (st1 := set_chain (getBlockchain st ++ [b]) st).
  set (st2 := updateValidatorStats _ _ st1).
  assert (Hids2 : activeIds st2 = activeIds st).
  { subst st2. now rewrite updateValidatorStats_activeIds. }
  assert (Hcons2 : getConsensusState st2 = getConsensusState st).
  { subst st2. unfold getConsensusState.
    now rewrite (proj2 (updateValidatorStats_frame _ _ st1)). }
  destruct (confirm_all_authority (b_index b) txs (rotateValidator st2))
    as [Hids Hcons].
  cbv zeta in Hids, Hcons. unfold currentAuthority.
  rewrite Hids, Hcons, rotateValidator_activeIds, rotateValidator_validators.
  split; [exact Hids2|]. split; [|now rewrite Hcons2].
  rewrite <- Hids2. apply rotateValidator_next with (id := id).
  - now rewrite Hids2.
  - now rewrite Hids2.
  - unfold currentAuthority. now rewrite Hcons2.
Qed.

Lemma addBlocks_rotation `{Runtime} calls : forall st st' k ids,
  activeIds st = ids ->
  NoDup ids ->
  (k < List.length ids)%nat ->
  currentAuthority st = nth_error ids k ->
  addBlocks calls st = Some st' ->
  activeIds st' = ids
  /\ currentAuthority st'
     = nth_error ids ((k + List.length calls) mod List.length ids)
  /\ c_validators (getConsensusState st')
     = c_validators (getConsensusState st).
Proof.
  induction calls as [|[env txs] later IH];
    intros st st' k ids Hids Hnd Hk Hcur Hrun.
  - cbn in Hrun. injection Hrun as <-. split; [assumption|].
    cbn [List.length]. rewrite Nat.add_0_r, Nat.mod_small by assumption.
    split; [assumption|reflexivity].
  - cbn [addBlocks] in Hrun.
    destruct (addBlock env txs st) as [[b| |] st1] eqn:Eadd; try discriminate.
    destruct (addBlock_returned _ _ _ _ _ Eadd) as [prev [_ [_ [_ ->]]]].
    destruct (nth_error ids k) as [id|] eqn:Eid;
      [|apply nth_error_None in Eid; lia].
    subst ids.
    destruct (commitBlock_rotates env txs b st k id Hnd Eid Hcur)
      as [Hids1 [Hcur1 Hval1]].
    destruct (IH (commitBlock env txs b st) st'
                ((k + 1) mod List.length (activeIds st))%nat
                (activeIds st) Hids1 Hnd) as [Hids' [Hcur' Hval']];
      try assumption.
    + apply Nat.mod_upper_bound. lia.
    + split; [assumption|]. split; [|congruence].
      rewrite Hcur'. cbn [List.length].
      rewrite Nat.Div0.add_mod_idemp_l. f_equal. f_equal. lia.
Qed.

(** C3. Start from a store whose current authority is the first of its M
    active validators, the validators having distinct ids.  After N
    consecutive successful [addBlock] calls the active validators are the
    same, the validator list kept in the consensus state is the same, and
    the current authority is the validator at position N mod M.  And when
    the current authority is not among the active validators,
    [rotateValidator] makes the validator at position 0 the authority. *)
Theorem rotation_is_round_robin `{Runtime} :
  (forall calls st st',
     NoDup (activeIds st) ->
     activeIds st <> [] ->
     currentAuthority st = nth_error (activeIds st) 0 ->
     addBlocks calls st = Some st' ->
     activeIds st' = activeIds st
     /\ currentAuthority st'
        = nth_error (activeIds st)
            (List.length calls mod List.length (activeIds st))
     /\ c_validators (getConsensusState st')
        = c_validators (getConsensusState st))
  /\ (forall st v vs,
        getActiveValidators st = v :: vs ->
        (forall id, currentAuthority st = Some id -> ~ In id (activeIds st)) ->
        currentAuthority (rotateValidator st) = Some (n_id v)
        /\ nth_error (getActiveValidators st) 0 = Some v).
Proof.
  split.
  - intros calls st st' Hnd Hne Hcur Hrun.
    apply (addBlocks_rotation calls st st' 0%nat (activeIds st));
      try assumption; try reflexivity.
    destruct (activeIds st); [congruence|cbn; lia].
  - intros st v vs Hvs Habsent. split.
    + eapply rotateValidator_fallback; eauto.
    + now rewrite Hvs.
Qed.

Lemma rotation_is_round_robin_witness :
  exists st',
    @addBlocks demoRuntime demoCalls freshLedger = Some st'
    /\ activeIds st' = ["node-0"; "node-1"; "node-2"]
    /\ currentAuthority st' = Some "node-1"
    /\ c_validators (getConsensusState st') = ["node-0"; "node-1"; "node-2"].
Proof.
  eexists. split; [vm_compute; reflexivity|].
  apply (proj1 (@rotation_is_round_robin demoRuntime) demoCalls freshLedger).
  - vm_compute. repeat constructor; cbn; intuition discriminate.
  - vm_compute. discriminate.
  - reflexivity.
  - vm_compute. reflexivity.
Defined.

(** ** The rule engine: checked properties *)

Lemma duration_in_days (x : Z) :
  let d := (inject_Z x / inject_Z (1000 * 60 * 60 * 24))%Q in
  ((1 <= d)%Q <-> 86400000 <= x) /\ ((d <= 365)%Q <-> x <= 31536000000).
Proof.
  cbv zeta. unfold Qle, Qdiv, Qmult, Qinv, inject_Z. cbn. split; lia.
Qed.

Lemma Qgtb_false_iff (a b : Q) : Qgtb a b = false <-> (a <= b)%Q.
Proof.
  unfold Qgtb, Qltb. rewrite negb_false_iff. apply Qle_bool_iff.
Qed.

Lemma Qltb_false_iff (a b : Q) : Qltb a b = false <-> (b <= a)%Q.
Proof.
  unfold Qltb. rewrite negb_false_iff. apply Qle_bool_iff.
Qed.

(** The function that the election-rules text defines rejects a duration
    below one day: an election with two candidates that lasts twelve hours
    has a duration of half a day and is rejected for its duration. *)
Lemma rule_text_rejects_half_a_day :
  validateElectionRules
    (mkElection (Some ["A"; "B"]) (Some 1700000000000)
       (Some (1700000000000 + 43200000)))
  = Invalid "Invalid election duration"
  /\ exists d,
       duration
         (mkElection (Some ["A"; "B"]) (Some 1700000000000)
            (Some (1700000000000 + 43200000)))
       = Some d
       /\ (0 < d)%Q /\ (d <= 365)%Q /\ (d == 1 # 2)%Q.
Proof.
  split; [reflexivity|].
  eexists. split; [reflexivity|]. repeat split; vm_compute; congruence.
Qed.

(** The function that the election-rules text defines,
    [validateElectionRules], taken by itself.  It accepts an election exactly when the candidate
    list is present with at least 2 entries and the duration in days, when
    both dates are valid, lies in [1, 365]; in milliseconds the window is
    86400000 <= end - start <= 31536000000.  A rejection names the
    candidate count or the duration. *)
Lemma rule_text_accepts_one_to_365_days :
  (forall election,
     validateElectionRules election = Valid
     <-> (exists candidates,
            e_candidates election = Some candidates
            /\ (2 <= List.length candidates)%nat)
         /\ (forall d, duration election = Some d -> (1 <= d)%Q /\ (d <= 365)%Q))
  /\ (forall candidates s e,
        validateElectionRules (mkElection (Some candidates) (Some s) (Some e))
        = Valid
        <-> (2 <= List.length candidates)%nat
            /\ 86400000 <= e - s <= 31536000000)
  /\ (forall candidates s,
        (2 <= List.length candidates)%nat <->
        validateElectionRules
          (mkElection (Some candidates) (Some s) (Some (s + 86400000)))
        = Valid)
  /\ (forall election reason,
        validateElectionRules election = Invalid reason ->
        reason = "Insufficient candidates"
        \/ reason = "Invalid election duration").
Proof.
  assert (Hmain : forall election,
     validateElectionRules election = Valid
     <-> (exists candidates,
            e_candidates election = Some candidates
            /\ (2 <= List.length candidates)%nat)
         /\ (forall d, duration election = Some d -> (1 <= d)%Q /\ (d <= 365)%Q)).
  { intros election. unfold validateElectionRules, minCandidates, maxDurationDays.
    destruct (e_candidates election) as [candidates|].
    2: { split; [discriminate|]. intros [[c [Hc _]] _]. discriminate. }
    destruct (Nat.ltb_spec (List.length candidates) 2) as [Hfew|Hmany].
    { split; [discriminate|]. intros [[c [[= <-] Hc]] _]. lia. }
    destruct (duration election) as [d|].
    2: { split; [|reflexivity]. intros _. split; [eauto|discriminate]. }
    destruct (Qgtb d 365) eqn:Egt; cbn [orb].
    { split; [discriminate|]. intros [_ Hd].
      destruct (Hd d eq_refl) as [_ Hle].
      apply Qgtb_false_iff in Hle. congruence. }
    destruct (Qltb d 1) eqn:Elt.
    { split; [discriminate|]. intros [_ Hd].
      destruct (Hd d eq_refl) as [Hge _].
      apply Qltb_false_iff in Hge. congruence. }
    split; [|reflexivity]. intros _. split; [eauto|].
    intros d' [= <-]. split.
    - now apply Qltb_false_iff.
    - now apply Qgtb_false_iff. }
  assert (Hms : forall candidates s e,
        validateElectionRules (mkElection (Some candidates) (Some s) (Some e))
        = Valid
        <-> (2 <= List.length candidates)%nat
            /\ 86400000 <= e - s <= 31536000000).
  { intros candidates s e. rewrite Hmain. cbn [e_candidates duration e_endDate e_startDate].
    destruct (duration_in_days (e - s)) as [Hlo Hhi]. cbv zeta in Hlo, Hhi.
    split.
    - intros [[c [[= <-] Hc]] Hd]. split; [assumption|].
      destruct (Hd _ eq_refl) as [H1 H2].
      apply Hlo in H1. apply Hhi in H2. lia.
    - intros [Hc [H1 H2]]. split; [eauto|].
      intros d [= <-]. split; [now apply Hlo | now apply Hhi]. }
  split; [exact Hmain|]. split; [exact Hms|]. split.
  - intros candidates s. rewrite Hms. split; [intros Hc; split; [assumption|lia] | tauto].
  - intros election reason. unfold validateElectionRules.
    destruct (e_candidates election) as [candidates|]; [|intros [= <-]; now left].
    destruct (_ <? _)%nat; [intros [= <-]; now left|].
    destruct (duration election) as [d|]; [|discriminate].
    destruct (_ || _); [intros [= <-]; now right | discriminate].
Qed.

(** ** The built-in contracts under the service's evaluator *)

Lemma built_in_texts_return_nothing :
  returnsNothing electionRulesCode = true
  /\ returnsNothing votingValidationCode = true
  /\ returnsNothing resultCalculationCode = true.
Proof. repeat split. Qed.

Lemma default_table (uuid : nat -> string) (deployed : Z)
    (cs : ContractStore) :
  getAllContracts cs = [] ->
  deployDefaultContracts uuid deployed cs
  = Some
      [mkContract (uuid 0%nat) "Election Validation Rules" "election_rules"
         electionRulesCode "system"
         [("minCandidates", 2); ("maxDurationDays", 365)] deployed 0 true None;
       mkContract (uuid 1%nat) "Vote Validation" "voting_validation"
         votingValidationCode "system" [] deployed 0 true None;
       mkContract (uuid 2%nat) "Result Calculation" "result_calculation"
         resultCalculationCode "system" [] deployed 0 true None].
Proof.
  intros Hempty. unfold deployDefaultContracts. rewrite Hempty.
  unfold deployContract. cbn [snd getAllContracts]. now rewrite Hempty.
Qed.

(** On a table whose contracts are all active and all hold a text that
    gives [return] no expression, no execution gets through. *)
Lemma dead_text_throws (others : RuleEngine) (cs : ContractStore)
    (contractId : string) (args : list RuleArg) (now : Z) :
  Forall (fun c => sc_isActive c = true /\ returnsNothing (sc_code c) = true)
    (getAllContracts cs) ->
  exists message,
    @executeContract (newFunction others) contractId args now cs
    = (Throw message, cs).
Proof.
  intros Hdead. unfold executeContract.
  destruct (getContract contractId cs) as [c|] eqn:Eg; [|eauto].
  unfold getContract in Eg. apply find_some in Eg. destruct Eg as [Hin _].
  rewrite Forall_forall in Hdead. destruct (Hdead c Hin) as [Ha Hr].
  rewrite Ha. cbn [negb runCode newFunction]. rewrite Hr. eauto.
Qed.

Lemma dead_type_throws (others : RuleEngine) (cs : ContractStore)
    (type : string) (args : list RuleArg) (now : Z) :
  Forall (fun c => sc_isActive c = true /\ returnsNothing (sc_code c) = true)
    (getAllContracts cs) ->
  exists message,
    @executeContractByType (newFunction others) type args now cs
    = (Throw message, cs).
Proof.
  intros Hdead. unfold executeContractByType.
  destruct (find _ (getAllContracts cs)); [|eauto].
  now apply dead_text_throws.
Qed.

Lemma default_table_is_dead (uuid : nat -> string) (deployed : Z)
    (cs : ContractStore) :
  getAllContracts cs = [] ->
  Forall (fun c => sc_isActive c = true /\ returnsNothing (sc_code c) = true)
    (getAllContracts (deployDefaultContracts uuid deployed cs)).
Proof.
  intros Hempty. rewrite (default_table uuid deployed cs Hempty).
  cbn [getAllContracts]. repeat constructor.
Qed.

(** C5, a defect of the code.  The service never evaluates the built-in
    election rules.  The text that [deployDefaultContracts] stores for them
    opens with a line break, so [new Function('return ' + code)()] is
    [undefined], the call of it throws, and [validateElection] turns the
    error into its answer.  On the table of the default contracts
    [validateElection] therefore answers
    [{ valid: false, reason: 'Validation failed' }] for every election and
    every list of candidates, with the table unchanged and no execution
    counted: also for an election with two or more candidates that lasts
    exactly one day, which the function that the text defines accepts. *)
Theorem built_in_election_rules_are_never_evaluated (others : RuleEngine)
    (uuid : nat -> string) (deployed : Z) (cs : ContractStore) :
  getAllContracts cs = [] ->
  returnsNothing electionRulesCode = true
  /\ (forall election candidates now,
        @validateElection (newFunction others) election candidates now
          (deployDefaultContracts uuid deployed cs)
        = (Return (ValValidation (Invalid "Validation failed")),
           deployDefaultContracts uuid deployed cs))
  /\ cm_totalExecutions
       (getContractMetrics (deployDefaultContracts uuid deployed cs)) = 0
  /\ (forall election candidates s,
        (2 <= List.length candidates)%nat ->
        e_startDate election = Some s ->
        e_endDate election = Some (s + 86400000) ->
        validateElectionRules (withCandidates election candidates) = Valid
        /\ forall now,
             fst (@validateElection (newFunction others) election candidates
                    now (deployDefaultContracts uuid deployed cs))
             <> Return
                  (ValValidation
                     (validateElectionRules
                        (withCandidates election candidates)))).
Proof.
  intros Hempty.
  assert (Hall : forall election candidates now,
    @validateElection (newFunction others) election candidates now
      (deployDefaultContracts uuid deployed cs)
    = (Return (ValValidation (Invalid "Validation failed")),
       deployDefaultContracts uuid deployed cs)).
  { intros election candidates now. unfold validateElection.
    destruct (dead_type_throws others
                (deployDefaultContracts uuid deployed cs) "election_rules"
                [ArgElection (withCandidates election candidates)] now
                (default_table_is_dead uuid deployed cs Hempty))
      as [message ->].
    reflexivity. }
  split; [reflexivity|]. split; [exact Hall|]. split.
  { now rewrite (default_table uuid deployed cs Hempty). }
  intros election candidates s Hmany Hs He.
  assert (Hvalid : validateElectionRules (withCandidates election candidates)
                   = Valid).
  { unfold withCandidates. rewrite Hs, He.
    apply (proj1 (proj2 rule_text_accepts_one_to_365_days)).
    split; [assumption|lia]. }
  split; [exact Hvalid|].
  intros now. rewrite Hall, Hvalid. cbn [fst]. discriminate.
Qed.

Lemma built_in_election_rules_are_never_evaluated_witness :
  @validateElection demoEngine demoElection ["A"; "B"] 1700000005000
    defaultContracts
  = (Return (ValValidation (Invalid "Validation failed")), defaultContracts)
  /\ validateElectionRules (withCandidates demoElection ["A"; "B"]) = Valid.
Proof.
  pose proof (built_in_election_rules_are_never_evaluated noOtherText
                demoContractId 1700000000000 None eq_refl)
    as [_ [Hall [_ Hday]]].
  split.
  - exact (Hall demoElection ["A"; "B"] 1700000005000).
  - exact (proj1 (Hday demoElection ["A"; "B"] 1700000000000
                    ltac:(cbn; lia) eq_refl eq_refl)).
Defined.

(** ** Monitoring: checked properties *)

Lemma calculateBlockTimes_short chain :
  (List.length chain <= 100)%nat ->
  calculateBlockTimes chain = gaps (slice_last 100 chain).
Proof.
  intros Hlen. unfold calculateBlockTimes, gaps, slice_last.
  replace (List.length chain - 100)%nat with 0%nat by lia.
  cbn [skipn]. now rewrite Nat.min_l by assumption.
Qed.

(** Up to 100 blocks the reported figure is the mean over the last 100
    blocks, and it is 0 below 2 blocks. *)
Lemma averageBlockTime_short chain :
  (List.length chain <= 100)%nat ->
  averageBlockTime chain = meanGapOfLast100 chain.
Proof.
  intros Hlen. unfold averageBlockTime, meanGapOfLast100.
  now rewrite calculateBlockTimes_short.
Qed.

Lemma averageBlockTime_below_two chain :
  (List.length chain < 2)%nat -> averageBlockTime chain = 0%Q.
Proof.
  intros Hlen. unfold averageBlockTime, calculateBlockTimes.
  destruct chain as [|a [|b rest]]; cbn in *; try reflexivity; lia.
Qed.

(** The gaps the code averages are those of the first 100 blocks. *)
Lemma calculateBlockTimes_first_100 chain :
  List.length (calculateBlockTimes chain)
  = (Nat.min (List.length chain) 100 - 1)%nat
  /\ forall i,
       (i < List.length (calculateBlockTimes chain))%nat ->
       nth_error (calculateBlockTimes chain) i
       = Some (timeAt chain (S i) - timeAt chain i).
Proof.
  unfold calculateBlockTimes. rewrite length_map, length_seq.
  split; [reflexivity|]. intros i Hi.
  rewrite nth_error_map, nth_error_seq.
  destruct (Nat.ltb_spec i (Nat.min (List.length chain) 100 - 1)); [|lia].
  cbn [option_map]. now rewrite Nat.add_1_l, Nat.sub_1_r.
Qed.

(** C6. The code at a chain of 101 blocks: a hundred blocks one second apart
    and a last block a hundred seconds later.  The mean gap over the last
    100 blocks is 2000 ms; [getRealtimeMetrics] reports 1000 ms, the mean
    over the first 100 blocks, and the last gap is not read at all. *)
Theorem averageBlockTime_reads_first_100_blocks :
  @addBlocks demoRuntime longCalls freshLedger = Some longLedger
  /\ List.length (getBlockchain longLedger) = 101%nat
  /\ @validateBlockchain demoRuntime longLedger = true
  /\ (meanGapOfLast100 (getBlockchain longLedger) == 2000)%Q
  /\ (m_averageBlockTime (@getRealtimeMetrics demoRuntime 0 longLedger)
      == 1000)%Q
  /\ (averageBlockTime (getBlockchain longLedger)
      == average (gaps (firstn 100 (getBlockchain longLedger))))%Q.
Proof.
  split; [vm_compute; reflexivity|].
  split; [vm_compute; reflexivity|].
  split; [vm_compute; reflexivity|].
  split; [vm_compute; reflexivity|].
  split; vm_compute; reflexivity.
Qed.

(** What [healthOfMetrics] reports on a valid chain with healthy consensus,
    block time within the warning threshold and at least 3 active nodes:
    the pending backlog alone decides, at one threshold. *)
Lemma health_of_backlog `{Runtime} metrics :
  m_chainValidity metrics = true ->
  m_consensusHealth metrics <> Critical ->
  (m_averageBlockTime metrics <= blockTimeWarning)%Q ->
  (3 <= m_activeNodes metrics)%nat ->
  overall (healthOfMetrics metrics)
  = if (pendingTransactionsCritical <? m_pendingTransactions metrics)%nat
    then OverallWarning
    else OverallHealthy.
Proof.
  intros Hvalid Hcons Htime Hnodes. unfold healthOfMetrics.
  rewrite Hvalid. cbn [negb].
  assert (Hcrit : Qgtb (m_averageBlockTime metrics) blockTimeCritical = false).
  { apply Qgtb_false_iff. eapply Qle_trans; [exact Htime|].
    unfold blockTimeWarning, blockTimeCritical. vm_compute. discriminate. }
  assert (Hwarn : Qgtb (m_averageBlockTime metrics) blockTimeWarning = false)
    by now apply Qgtb_false_iff.
  rewrite Hcrit, Hwarn.
  destruct (Nat.ltb_spec (m_activeNodes metrics) 3) as [Hlow|_]; [lia|].
  destruct (m_consensusHealth metrics); try congruence;
    destruct (_ <? _)%nat; reflexivity.
Qed.

(** C7. The code at a healthy ledger with a pending backlog: with 150
    pending transactions (above 100) [getBlockchainHealth] reports healthy
    with no issue, and with 600 (above 500) it reports warning, not
    critical. *)
Theorem pending_backlog_is_one_warning_threshold :
  m_pendingTransactions (@getRealtimeMetrics demoRuntime 0 (backlogLedger 150))
  = 150%nat
  /\ @getBlockchainHealth demoRuntime 0 (backlogLedger 150)
     = mkReport OverallHealthy [] ["System operating normally"]
  /\ m_pendingTransactions
       (@getRealtimeMetrics demoRuntime 0 (backlogLedger 600))
     = 600%nat
  /\ overall (@getBlockchainHealth demoRuntime 0 (backlogLedger 600))
     = OverallWarning
  /\ issues (@getBlockchainHealth demoRuntime 0 (backlogLedger 600))
     = ["High pending transaction count: 600"].
Proof.
  split; [vm_compute; reflexivity|].
  split; [vm_compute; reflexivity|].
  split; [vm_compute; reflexivity|].
  split; vm_compute; reflexivity.
Qed.

(** ** The embedding on small inputs *)

(** Three leaves: the first two are hashed together, the third is carried
    over to the next level unchanged. *)
Example merkle_three_leaves :
  @merkle_loop demoRuntime 3 ["a"; "b"; "c"] = ["##abc"].
Proof. reflexivity. Qed.

Example merkle_root_of_nothing :
  @calculateMerkleRoot demoRuntime [] = "#empty".
Proof. reflexivity. Qed.

(** The store that [initializeBlockchain] builds from nothing: one genesis
    block, three active validators, the first of them the authority. *)
Lemma initial_authority_is_first_validator `{Runtime} uuid now :
  let st := initializeBlockchain uuid now emptyStore in
  getBlockchain st = [createGenesisBlock now now]
  /\ activeIds st = [uuid 0%nat; uuid 1%nat; uuid 2%nat]
  /\ c_validators (getConsensusState st) = activeIds st
  /\ currentAuthority st = nth_error (activeIds st) 0.
Proof. cbv zeta. split; [|split; [|split]]; reflexivity. Qed.

(** Altering the payload of a stored block is detected by the walk. *)
Example tampered_block_is_detected :
  @validateBlockchain demoRuntime
    (set_chain
       (map (fun b =>
               mkBlock (b_index b) (b_timestamp b) (BatchData "other" 0)
                 (b_previousHash b) (b_hash b) (b_nonce b) (b_validator b)
                 (b_signature b) (b_transactions b) (b_merkleRoot b)
                 (b_gasUsed b) (b_difficulty b))
          (getBlockchain
             (snd (@addBlock demoRuntime (demoEnv 1700000003000)
                     [demoVote "tx-1"] freshLedger))))
       freshLedger)
  = false.
Proof. vm_compute. reflexivity. Qed.

(** ** Facts about [Array.prototype.sort] *)

Section JsSort.
Context {A : Type} (compare : A -> A -> Z).

Lemma js_insert_perm (x : A) (l : list A) :
  Permutation (x :: l) (js_insert compare x l).
Proof.
  induction l as [|y rest IH]; cbn [js_insert]; [reflexivity|].
  destruct (0 <? compare x y); [|reflexivity].
  rewrite perm_swap. now constructor.
Qed.

Lemma js_sort_perm (l : list A) : Permutation l (js_sort compare l).
Proof.
  induction l as [|x rest IH]; cbn [js_sort]; [reflexivity|].
  rewrite <- js_insert_perm. now constructor.
Qed.

Hypothesis compare_total : forall a b, 0 < compare a b -> compare b a <= 0.
Hypothesis compare_trans :
  forall a b c, compare a b <= 0 -> compare b c <= 0 -> compare a c <= 0.

Lemma js_insert_sorted (x : A) (l : list A) :
  StronglySorted (fun a b => compare a b <= 0) l ->
  StronglySorted (fun a b => compare a b <= 0) (js_insert compare x l).
Proof.
  induction l as [|y rest IH]; intros Hs; cbn [js_insert].
  - repeat constructor.
  - inversion Hs as [|? ? Hrest Hall]; subst.
    destruct (Z.ltb_spec 0 (compare x y)) as [Hgt|Hle].
    + constructor; [now apply IH|].
      apply Forall_forall. intros z Hz.
      apply (Permutation_in _ (Permutation_sym (js_insert_perm x rest))) in Hz.
      destruct Hz as [<-|Hz]; [now apply compare_total|].
      rewrite Forall_forall in Hall. now apply Hall.
    + constructor; [assumption|].
      constructor; [assumption|].
      rewrite Forall_forall in *. intros z Hz. eauto.
Qed.

Lemma js_sort_sorted (l : list A) :
  StronglySorted (fun a b => compare a b <= 0) (js_sort compare l).
Proof.
  induction l as [|x rest IH]; cbn [js_sort]; [constructor|].
  now apply js_insert_sorted.
Qed.

End JsSort.

Section JsSortOn.
Context {A : Type} (compare : A -> A -> Z) (consistent : A -> Prop).
Hypothesis compare_total : forall a b, 0 < compare a b -> compare b a <= 0.
Hypothesis compare_trans :
  forall a b c,
    consistent a -> consistent b -> consistent c ->
    compare a b <= 0 -> compare b c <= 0 -> compare a c <= 0.

Lemma js_insert_sorted_on (x : A) (l : list A) :
  consistent x -> Forall consistent l ->
  StronglySorted (fun a b => compare a b <= 0) l ->
  StronglySorted (fun a b => compare a b <= 0) (js_insert compare x l).
Proof.
  intros Hx. induction l as [|y rest IH]; intros Hl Hs; cbn [js_insert].
  - repeat constructor.
  - inversion Hs as [|? ? Hrest Hall]; subst.
    inversion Hl as [|? ? Hy Hgood]; subst.
    destruct (Z.ltb_spec 0 (compare x y)) as [Hgt|Hle].
    + constructor; [now apply IH|].
      apply Forall_forall. intros z Hz.
      apply (Permutation_in _ (Permutation_sym (js_insert_perm compare x rest)))
        in Hz.
      destruct Hz as [<-|Hz]; [now apply compare_total|].
      rewrite Forall_forall in Hall. now apply Hall.
    + constructor; [assumption|].
      constructor; [assumption|].
      rewrite Forall_forall in *. intros z Hz.
      apply (compare_trans x y z); auto.
Qed.

Lemma js_sort_sorted_on (l : list A) :
  Forall consistent l ->
  StronglySorted (fun a b => compare a b <= 0) (js_sort compare l).
Proof.
  induction l as [|x rest IH]; intros Hl; cbn [js_sort]; [constructor|].
  inversion Hl as [|? ? Hx Hrest]; subst.
  apply js_insert_sorted_on; [assumption| |now apply IH].
  apply Forall_forall. intros z Hz.
  apply (Permutation_in _ (Permutation_sym (js_sort_perm compare rest))) in Hz.
  rewrite Forall_forall in Hrest. now apply Hrest.
Qed.

End JsSortOn.

Lemma StronglySorted_app_cross {A : Type} (R : A -> A -> Prop) (l1 l2 : list A) :
  StronglySorted R (l1 ++ l2) ->
  forall a b, In a l1 -> In b l2 -> R a b.
Proof.
  induction l1 as [|x rest IH]; intros Hs a b Ha Hb; [contradiction|].
  cbn [app] in Hs. inversion Hs as [|? ? Hrest Hall]; subst.
  destruct Ha as [<-|Ha].
  - rewrite Forall_forall in Hall. apply Hall, in_or_app. now right.
  - now apply IH.
Qed.

Lemma StronglySorted_app_left {A : Type} (R : A -> A -> Prop) (l1 l2 : list A) :
  StronglySorted R (l1 ++ l2) -> StronglySorted R l1.
Proof.
  induction l1 as [|x rest IH]; intros Hs; [constructor|].
  cbn [app] in Hs. inversion Hs as [|? ? Hrest Hall]; subst.
  constructor; [now apply IH|].
  rewrite Forall_forall in *. intros z Hz. apply Hall, in_or_app. now left.
Qed.

Lemma in_firstn {A : Type} (n : nat) (l : list A) (x : A) :
  In x (firstn n l) -> In x l.
Proof.
  intros Hin. rewrite <- (firstn_skipn n l). apply in_or_app. now left.
Qed.

(** ** Facts about the batch *)

Lemma plain_type_has_a_rank (type : string) :
  inheritedMember type = false ->
  exists n, priorityOrder type = Some n /\ 1 <= n
            /\ (n = 1 <-> type = "vote").
Proof.
  intros Hplain. unfold priorityOrder. rewrite Hplain.
  destruct (String.eqb_spec type "vote") as [->|Hv];
    [exists 1; split; [reflexivity|]; split; [lia|tauto]|].
  repeat (destruct (String.eqb _ _);
          [eexists; split; [reflexivity|]; split; [lia|]; split;
           [lia|tauto]|]).
  eexists. split; [reflexivity|]. split; [lia|]. split; [lia|tauto].
Qed.

Lemma compareForBatch_le (a b : BlockchainTransaction) :
  inheritedMember (tx_type a) = false ->
  inheritedMember (tx_type b) = false ->
  compareForBatch a b <= 0 <-> dueBefore a b.
Proof.
  intros Ha Hb.
  destruct (plain_type_has_a_rank _ Ha) as [x [Ex _]].
  destruct (plain_type_has_a_rank _ Hb) as [y [Ey _]].
  unfold compareForBatch, dueBefore. rewrite Ex, Ey.
  destruct (Z.eqb_spec x y); cbn [negb]; lia.
Qed.

Lemma compareForBatch_total (a b : BlockchainTransaction) :
  0 < compareForBatch a b -> compareForBatch b a <= 0.
Proof.
  unfold compareForBatch.
  destruct (priorityOrder (tx_type a)) as [x|],
    (priorityOrder (tx_type b)) as [y|]; try lia.
  - destruct (Z.eqb_spec x y), (Z.eqb_spec y x); cbn [negb]; lia.
  - rewrite (String.eqb_sym (tx_type b) (tx_type a)).
    destruct (String.eqb _ _); cbn [negb]; lia.
Qed.

Lemma sorted_pending_is_due_ordered (l : list BlockchainTransaction) :
  plainTypes l ->
  StronglySorted dueBefore (js_sort compareForBatch l).
Proof.
  intros Hplain.
  assert (Hs : StronglySorted (fun a b => compareForBatch a b <= 0)
                 (js_sort compareForBatch l)).
  { apply (js_sort_sorted_on compareForBatch
             (fun t => inheritedMember (tx_type t) = false)).
    - apply compareForBatch_total.
    - intros a b c Ha Hb Hc.
      rewrite !compareForBatch_le by assumption.
      destruct (plain_type_has_a_rank _ Ha) as [x [Ex _]].
      destruct (plain_type_has_a_rank _ Hb) as [y [Ey _]].
      destruct (plain_type_has_a_rank _ Hc) as [z [Ez _]].
      unfold dueBefore. rewrite Ex, Ey, Ez. lia.
    - exact Hplain. }
  assert (Hall : Forall (fun t => inheritedMember (tx_type t) = false)
                   (js_sort compareForBatch l)).
  { apply Forall_forall. intros z Hz.
    apply (Permutation_in _ (Permutation_sym (js_sort_perm compareForBatch l)))
      in Hz.
    unfold plainTypes in Hplain. rewrite Forall_forall in Hplain. auto. }
  induction Hs as [|x rest _ IH Hcross]; constructor.
  - apply IH. now inversion Hall.
  - inversion Hall as [|? ? Hx Hrest]; subst.
    rewrite Forall_forall in *. intros z Hz.
    apply compareForBatch_le; auto.
Qed.

Lemma admitted_type_is_plain (t : BlockchainTransaction) :
  validateTransaction t = Valid -> inheritedMember (tx_type t) = false.
Proof.
  unfold validateTransaction.
  destruct (_ || _); [discriminate|].
  destruct (negb (str_truthy _)); [discriminate|].
  destruct (negb (data_truthy _)); [discriminate|].
  destruct (existsb _ validTypes) eqn:Etype; [|discriminate].
  intros _. apply existsb_exists in Etype.
  destruct Etype as [type [Hin Heq]]. apply String.eqb_eq in Heq.
  rewrite Heq. cbn [validTypes In] in Hin.
  destruct Hin as [<-|[<-|[<-|[<-|[<-|[]]]]]]; reflexivity.
Qed.

Lemma filter_misses_one {A : Type} (p : A -> bool) (l : list A) (x : A) :
  In x l -> p x = false ->
  (List.length (filter p l) < List.length l)%nat.
Proof.
  induction l as [|y rest IH]; intros Hin Hp; [contradiction|].
  cbn [filter List.length]. pose proof (filter_length_le p rest).
  destruct Hin as [->|Hin].
  - rewrite Hp. lia.
  - specialize (IH Hin Hp). destruct (p y); cbn [List.length]; lia.
Qed.

Lemma filter_none {A : Type} (p : A -> bool) (l : list A) :
  (forall x, In x l -> p x = false) -> filter p l = [].
Proof.
  induction l as [|y rest IH]; intros Hall; [reflexivity|].
  cbn [filter]. rewrite (Hall y (or_introl eq_refl)).
  apply IH. intros x Hx. apply Hall. now right.
Qed.

Lemma filter_perm_length {A : Type} (p : A -> bool) (l l' : list A) :
  Permutation l l' ->
  List.length (filter p l) = List.length (filter p l').
Proof.
  induction 1 as [|x l l' _ IH|x y l|l l' l'' _ IH1 _ IH2]; cbn [filter].
  - reflexivity.
  - destruct (p x); cbn [List.length]; lia.
  - destruct (p x), (p y); reflexivity.
  - congruence.
Qed.

(** X1. When no pending transaction has a type that is the name of a
    member every object inherits (none of the five admitted types is), the
    batch handed to block production holds at most [BATCH_SIZE] = 10
    transactions, all of them pending entries of the pool; it is ordered by
    priority (vote, smart_contract, election_update, election_create,
    voter_register, then the types outside the table) and by timestamp
    within a priority; and the pending transactions it leaves out are all
    due no earlier than every transaction it holds.  With at most 10
    pending transactions the batch holds them all. *)
Theorem batch_holds_the_most_urgent_pending (st : Store) :
  plainTypes (getPendingTransactions None st) ->
  BATCH_SIZE = 10%nat
  /\ List.length (getBatchForProcessing st)
     = Nat.min 10 (List.length (getPendingTransactions None st))
  /\ (forall t,
        In t (getBatchForProcessing st) ->
        In t (getTransactionPool st) /\ tx_status t = Pending)
  /\ StronglySorted dueBefore (getBatchForProcessing st)
  /\ exists leftOut,
       Permutation (getBatchForProcessing st ++ leftOut)
         (getPendingTransactions None st)
       /\ forall t u,
            In t (getBatchForProcessing st) -> In u leftOut -> dueBefore t u.
Proof.
  intros Hplain.
  unfold getBatchForProcessing.
  set (pending := getPendingTransactions None st) in *.
  set (sorted := js_sort compareForBatch pending).
  assert (Hperm : Permutation pending sorted) by apply js_sort_perm.
  assert (Hsorted : StronglySorted dueBefore sorted)
    by now apply sorted_pending_is_due_ordered.
  rewrite <- (firstn_skipn BATCH_SIZE sorted) in Hsorted.
  split; [reflexivity|]. split; [|split; [|split]].
  - rewrite length_firstn. rewrite (Permutation_length Hperm). reflexivity.
  - intros t Ht. apply in_firstn in Ht.
    apply (Permutation_in _ (Permutation_sym Hperm)) in Ht.
    unfold pending, getPendingTransactions in Ht.
    apply filter_In in Ht. destruct Ht as [Hin Hst]. split; [assumption|].
    destruct (tx_status t); try discriminate. reflexivity.
  - eapply StronglySorted_app_left; eauto.
  - exists (skipn BATCH_SIZE sorted). split.
    + rewrite firstn_skipn. now symmetry.
    + now apply StronglySorted_app_cross.
Qed.

Lemma batch_holds_the_most_urgent_pending_witness :
  StronglySorted dueBefore (getBatchForProcessing crowdedPool)
  /\ List.length (getBatchForProcessing crowdedPool) = 10%nat.
Proof.
  pose proof (batch_holds_the_most_urgent_pending crowdedPool
                ltac:(repeat constructor)) as [_ [Hlen [_ [Hsorted _]]]].
  split; [exact Hsorted|]. rewrite Hlen. reflexivity.
Defined.

(** X2. While at least 10 votes are pending, and no pending transaction has
    a type that is the name of a member every object inherits, the batch
    holds votes only: no transaction of another type is batched before the
    backlog of votes drops below the batch size. *)
Theorem ten_pending_votes_fill_the_batch (st : Store) :
  plainTypes (getPendingTransactions None st) ->
  (10 <= List.length (filter is_vote (getPendingTransactions None st)))%nat ->
  List.length (getBatchForProcessing st) = 10%nat
  /\ forall t, In t (getBatchForProcessing st) -> tx_type t = "vote".
Proof.
  intros Hplain Hvotes.
  unfold getBatchForProcessing.
  set (pending := getPendingTransactions None st) in *.
  set (sorted := js_sort compareForBatch pending).
  assert (Hperm : Permutation pending sorted) by apply js_sort_perm.
  assert (Hsorted : StronglySorted dueBefore sorted)
    by now apply sorted_pending_is_due_ordered.
  rewrite <- (firstn_skipn BATCH_SIZE sorted) in Hsorted.
  pose proof (filter_length_le is_vote pending) as Hle.
  split.
  - rewrite length_firstn, <- (Permutation_length Hperm).
    change BATCH_SIZE with 10%nat. lia.
  - intros t Ht.
    destruct (String.eqb_spec (tx_type t) "vote") as [Hv|Hnv]; [assumption|].
    exfalso.
    assert (Hrest : filter is_vote (skipn BATCH_SIZE sorted) = []).
    { apply filter_none. intros u Hu.
      pose proof (StronglySorted_app_cross _ _ _ Hsorted t u Ht Hu) as Hdue.
      unfold is_vote. apply String.eqb_neq. intros Hvu.
      assert (Hpt : inheritedMember (tx_type t) = false).
      { unfold plainTypes in Hplain. rewrite Forall_forall in Hplain.
        apply Hplain.
        apply (Permutation_in _ (Permutation_sym Hperm)).
        now apply in_firstn in Ht. }
      destruct (plain_type_has_a_rank _ Hpt) as [x [Ex [Hge Hiff]]].
      unfold dueBefore in Hdue. rewrite Ex, Hvu in Hdue.
      cbn in Hdue. assert (x = 1) by lia. tauto. }
    assert (Hfirst :
      (List.length (filter is_vote (firstn BATCH_SIZE sorted)) < 10)%nat).
    { eapply Nat.lt_le_trans.
      - apply (filter_misses_one is_vote _ t Ht).
        unfold is_vote. now apply String.eqb_neq.
      - rewrite length_firstn. change BATCH_SIZE with 10%nat. lia. }
    rewrite (filter_perm_length is_vote _ _ Hperm) in Hvotes.
    rewrite <- (firstn_skipn BATCH_SIZE sorted), filter_app, length_app, Hrest
      in Hvotes.
    cbn [List.length] in Hvotes. lia.
Qed.

Lemma ten_pending_votes_fill_the_batch_witness :
  List.length (getBatchForProcessing crowdedPool) = 10%nat
  /\ forall t, In t (getBatchForProcessing crowdedPool) -> tx_type t = "vote".
Proof.
  apply ten_pending_votes_fill_the_batch.
  - repeat constructor.
  - vm_compute. lia.
Defined.

(** ** The pool queries: checked properties *)

Lemma find_app {A : Type} (p : A -> bool) (l1 l2 : list A) :
  find p (l1 ++ l2)
  = match find p l1 with
    | Some x => Some x
    | None => find p l2
    end.
Proof.
  induction l1 as [|x rest IH]; [reflexivity|].
  cbn [app find]. now destruct (p x).
Qed.

(** X3. A transaction that [submitTransaction] has appended is found again
    by [getTransactionById] under its id, unless an earlier pool entry
    already carries that id: the submission does not check that the id is
    new, and the lookup returns the earlier entry.  Lookups under other ids
    are unchanged. *)
Theorem submitted_transaction_is_found (t : BlockchainTransaction)
    (st : Store) :
  validateTransaction t = Valid ->
  (List.length (getTransactionPool st) < MAX_POOL_SIZE)%nat ->
  getTransactionById (tx_id t) (snd (submitTransaction t st))
  = match getTransactionById (tx_id t) st with
    | Some earlier => Some earlier
    | None => Some t
    end
  /\ forall id,
       id <> tx_id t ->
       getTransactionById id (snd (submitTransaction t st))
       = getTransactionById id st.
Proof.
  intros Hv Hroom. rewrite (submit_valid_room t st Hv Hroom). cbn [snd].
  unfold getTransactionById. rewrite pool_set_pool. split.
  - rewrite find_app. cbn [find]. now rewrite String.eqb_refl.
  - intros id Hid. rewrite find_app. cbn [find].
    destruct (String.eqb_spec (tx_id t) id) as [E|_]; [congruence|].
    now destruct (find _ (getTransactionPool st)).
Qed.

Lemma submitted_transaction_is_found_witness :
  getTransactionById "tx-7"
    (snd (submitTransaction (demoVote "tx-7") (backlogLedger 3)))
  = Some (demoVote "tx-7")
  /\ forall id,
       id <> "tx-7" ->
       getTransactionById id
         (snd (submitTransaction (demoVote "tx-7") (backlogLedger 3)))
       = getTransactionById id (backlogLedger 3).
Proof.
  apply (submitted_transaction_is_found (demoVote "tx-7") (backlogLedger 3)).
  - reflexivity.
  - vm_compute. lia.
Defined.

(** X4. [removePendingTransaction] drops every pool entry that carries the
    id, whatever its status (confirmed and failed entries too), and keeps
    the other entries in their order: afterwards the id is not found, and
    every other lookup gives what it gave before. *)
Theorem removal_ignores_the_status (id : string) (st : Store) :
  getTransactionById id (removePendingTransaction id st) = None
  /\ (forall t,
        In t (getTransactionPool (removePendingTransaction id st))
        <-> In t (getTransactionPool st) /\ tx_id t <> id)
  /\ (forall id',
        id' <> id ->
        getTransactionById id' (removePendingTransaction id st)
        = getTransactionById id' st)
  /\ (List.length (getTransactionPool (removePendingTransaction id st))
      + List.length
          (filter (fun t => String.eqb (tx_id t) id) (getTransactionPool st))
      = List.length (getTransactionPool st))%nat.
Proof.
  unfold removePendingTransaction, getTransactionById.
  rewrite pool_set_pool.
  induction (getTransactionPool st) as [|x rest IH]; cbn [filter find].
  - repeat split; try tauto; intros [[] _].
  - destruct IH as [IH1 [IH2 [IH3 IH4]]].
    destruct (String.eqb_spec (tx_id x) id) as [E|E]; cbn [negb find List.length].
    + split; [assumption|]. split; [|split].
      * intros t. rewrite IH2. cbn [In]. split; [tauto|].
        intros [[<-|Hin] Hne]; [congruence|tauto].
      * intros id' Hid'. rewrite E.
        destruct (String.eqb_spec id id'); [congruence|]. now apply IH3.
      * lia.
    + destruct (String.eqb_spec (tx_id x) id); [congruence|].
      split; [assumption|]. split; [|split].
      * intros t. cbn [In]. rewrite IH2.
        split; [intros [<-|Hin]; tauto | tauto].
      * intros id' Hid'. destruct (String.eqb (tx_id x) id'); [reflexivity|].
        now apply IH3.
      * lia.
Qed.

Lemma filter_idem {A : Type} (p : A -> bool) (l : list A) :
  filter p (filter p l) = filter p l.
Proof.
  induction l as [|x rest IH]; [reflexivity|].
  cbn [filter]. destruct (p x) eqn:E; [|assumption].
  cbn [filter]. now rewrite E, IH.
Qed.

Lemma filter_filter_comm {A : Type} (p q : A -> bool) (l : list A) :
  filter p (filter q l) = filter q (filter p l).
Proof.
  induction l as [|x rest IH]; [reflexivity|].
  cbn [filter]. destruct (p x) eqn:Ep, (q x) eqn:Eq; cbn [filter];
    rewrite ?Ep, ?Eq, IH; reflexivity.
Qed.

Lemma count_split {A : Type} (p : A -> bool) (l : list A) :
  List.length l
  = (List.length (filter p l) + List.length (filter (fun x => negb (p x)) l))%nat.
Proof.
  induction l as [|x rest IH]; [reflexivity|].
  cbn [filter List.length]. destruct (p x); cbn [negb List.length]; lia.
Qed.

(** X5. [clearConfirmedTransactions] removes exactly the confirmed entries
    whose timestamp is not later than the cutoff (the given date, or 24
    hours before now): an entry is in the pool afterwards exactly when it
    was there before and is not such an entry, the entries that stay keep
    their order, and the number returned is the number of such entries.
    So the pending and the failed entries are the same afterwards, and a
    second call with the same arguments removes nothing and leaves the
    store as it is. *)
Theorem clearing_removes_old_confirmed_only (olderThan : option Z) (now : Z)
    (st : Store) :
  let cutoff := match olderThan with Some d => d | None => now - 86400000 end in
  let old := fun t => status_eqb (tx_status t) Confirmed
                      && (tx_timestamp t <=? cutoff) in
  (forall t,
     In t (getTransactionPool (snd (clearConfirmedTransactions olderThan now st)))
     <-> In t (getTransactionPool st)
         /\ ~ (tx_status t = Confirmed /\ tx_timestamp t <= cutoff))
  /\ fst (clearConfirmedTransactions olderThan now st)
     = List.length (filter old (getTransactionPool st))
  /\ getTransactionPool (snd (clearConfirmedTransactions olderThan now st))
     = filter (fun t => negb (old t)) (getTransactionPool st)
  /\ (fst (clearConfirmedTransactions olderThan now st)
      + List.length
          (getTransactionPool
             (snd (clearConfirmedTransactions olderThan now st)))
      = List.length (getTransactionPool st))%nat
  /\ getPendingTransactions None
       (snd (clearConfirmedTransactions olderThan now st))
     = getPendingTransactions None st
  /\ filter (fun t => status_eqb (tx_status t) Failed)
       (getTransactionPool (snd (clearConfirmedTransactions olderThan now st)))
     = filter (fun t => status_eqb (tx_status t) Failed) (getTransactionPool st)
  /\ clearConfirmedTransactions olderThan now
       (snd (clearConfirmedTransactions olderThan now st))
     = (0%nat, snd (clearConfirmedTransactions olderThan now st)).
Proof.
  intros cutoff old.
  unfold clearConfirmedTransactions. cbn [fst snd].
  rewrite !pool_set_pool.
  replace (match olderThan with
           | Some d => d
           | None => now - 24 * 60 * 60 * 1000
           end) with cutoff by (subst cutoff; destruct olderThan; lia).
  set (keep := fun t : BlockchainTransaction =>
                 if negb (status_eqb (tx_status t) Confirmed) then true
                 else cutoff <? tx_timestamp t).
  assert (Hkeep : forall t, keep t = negb (old t)).
  { intros t. unfold keep, old.
    destruct (status_eqb (tx_status t) Confirmed); cbn [negb andb];
      [|reflexivity].
    destruct (Z.ltb_spec cutoff (tx_timestamp t)),
      (Z.leb_spec (tx_timestamp t) cutoff); try reflexivity; lia. }
  assert (Hfilter : filter keep (getTransactionPool st)
                    = filter (fun t => negb (old t)) (getTransactionPool st)).
  { apply filter_ext. exact Hkeep. }
  assert (Hold : forall t,
            old t = true <-> tx_status t = Confirmed /\ tx_timestamp t <= cutoff).
  { intros t. unfold old. rewrite andb_true_iff, Z.leb_le.
    destruct (tx_status t); cbn [status_eqb];
      split; intros [H1 H2]; try discriminate; split; auto. }
  split; [|split; [|split; [|split; [|split; [|split]]]]].
  - intros t. rewrite filter_In, Hkeep, negb_true_iff, <- Hold.
    destruct (old t); intuition congruence.
  - rewrite Hfilter.
    rewrite (count_split old (getTransactionPool st)) at 1. lia.
  - exact Hfilter.
  - pose proof (filter_length_le keep (getTransactionPool st)). lia.
  - unfold getPendingTransactions. rewrite pool_set_pool.
    rewrite filter_filter_comm. clear Hfilter.
    induction (getTransactionPool st) as [|x rest IH]; [reflexivity|].
    cbn [filter]. destruct (status_eqb (tx_status x) Pending) eqn:E;
      [|assumption].
    cbn [filter]. unfold keep at 1.
    destruct (tx_status x); try discriminate. cbn. now rewrite IH.
  - rewrite filter_filter_comm. clear Hfilter.
    induction (getTransactionPool st) as [|x rest IH]; [reflexivity|].
    cbn [filter]. destruct (status_eqb (tx_status x) Failed) eqn:E;
      [|assumption].
    cbn [filter]. unfold keep at 1.
    destruct (tx_status x); try discriminate. cbn. now rewrite IH.
  - rewrite filter_idem, Nat.sub_diag. f_equal.
Qed.

Lemma countOfType_bump (k type : string) (byType : list (string * nat)) :
  countOfType type (bump k byType)
  = if String.eqb k type then S (countOfType type byType)
    else countOfType type byType.
Proof.
  unfold countOfType.
  induction byType as [|[k' n] rest IH]; cbn [bump find fst].
  - destruct (String.eqb k type); reflexivity.
  - destruct (String.eqb_spec k' k) as [->|Hk]; cbn [find fst].
    + destruct (String.eqb k type); reflexivity.
    + destruct (String.eqb_spec k' type) as [->|Ht].
      * destruct (String.eqb_spec k type); [congruence|reflexivity].
      * exact IH.
Qed.

Lemma bump_keys (k : string) (byType : list (string * nat)) :
  NoDup (map fst byType) ->
  NoDup (map fst (bump k byType))
  /\ forall x, In x (map fst (bump k byType)) <-> x = k \/ In x (map fst byType).
Proof.
  induction byType as [|[k' n] rest IH]; cbn [bump map fst]; intros Hnd.
  - split; [repeat constructor; intros []|]. intros x. cbn. intuition.
  - inversion Hnd as [|? ? Hnotin Hrest]; subst.
    destruct (String.eqb_spec k' k) as [->|Hk]; cbn [map fst].
    + split; [now constructor|]. intros x. cbn [In]. intuition.
    + destruct (IH Hrest) as [IHnd IHin]. split.
      * constructor; [|assumption]. rewrite IHin. intuition.
      * intros x. cbn [In]. rewrite IHin. intuition.
Qed.

Lemma stats_byType_fold (l : list BlockchainTransaction) : forall acc,
  acc_byType (fold_left stats_step l acc)
  = fold_left (fun byType t => bump (tx_type t) byType) l (acc_byType acc).
Proof.
  induction l as [|t rest IH]; intros acc; cbn [fold_left]; [reflexivity|].
  rewrite IH. f_equal. unfold stats_step.
  destruct (_ && _); reflexivity.
Qed.

Lemma byType_counts (l : list BlockchainTransaction) : forall byType,
  NoDup (map fst byType) ->
  NoDup (map fst (fold_left (fun b t => bump (tx_type t) b) l byType))
  /\ forall type,
       countOfType type (fold_left (fun b t => bump (tx_type t) b) l byType)
       = (countOfType type byType
          + List.length (filter (fun t => String.eqb (tx_type t) type) l))%nat.
Proof.
  induction l as [|t rest IH]; intros byType Hnd; cbn [fold_left filter].
  - split; [assumption|]. intros type. cbn [List.length]. lia.
  - destruct (IH (bump (tx_type t) byType) (proj1 (bump_keys _ _ Hnd)))
      as [IHnd IHcount].
    split; [assumption|]. intros type.
    rewrite IHcount, countOfType_bump.
    destruct (String.eqb (tx_type t) type); cbn [List.length]; lia.
Qed.

Lemma byType_keys (l : list BlockchainTransaction) : forall byType,
  NoDup (map fst byType) ->
  forall type,
    In type (map fst (fold_left (fun b t => bump (tx_type t) b) l byType))
    <-> In type (map fst byType) \/ exists t, In t l /\ tx_type t = type.
Proof.
  induction l as [|t rest IH]; intros byType Hnd type; cbn [fold_left].
  - split; [now left|]. intros [H|[t [[] _]]]. assumption.
  - destruct (bump_keys (tx_type t) byType Hnd) as [Hnd' Hin'].
    rewrite (IH _ Hnd'), Hin'. cbn [In]. split.
    + intros [[->|H]|[u [Hu Ht]]]; eauto.
    + intros [H|[u [[<-|Hu] Ht]]]; eauto.
Qed.

Lemma status_partition (l : list BlockchainTransaction) :
  List.length l
  = (count_status Pending l + count_status Confirmed l + count_status Failed l)%nat.
Proof.
  unfold count_status. induction l as [|t rest IH]; [reflexivity|].
  cbn [filter List.length]. destruct (tx_status t); cbn [status_eqb List.length]; lia.
Qed.

(** X6. When no pool entry has a type that is the name of a member every
    object inherits (none of the five admitted types is), the figures of
    [getTransactionStats] count every pool entry once: the total is the sum
    of the pending, confirmed and failed counts, and the per-type table has
    one key for each type that occurs, its count the number of entries of
    that type ([getTransactionsByType]); a type that does not occur has no
    key. *)
Theorem stats_count_every_entry_once (st : Store) :
  plainTypes (getTransactionPool st) ->
  totalTransactions (getTransactionStats st)
  = (pendingTransactions (getTransactionStats st)
     + confirmedTransactions (getTransactionStats st)
     + failedTransactions (getTransactionStats st))%nat
  /\ NoDup (map fst (transactionsByType (getTransactionStats st)))
  /\ (forall type,
        countOfType type (transactionsByType (getTransactionStats st))
        = List.length (getTransactionsByType type st))
  /\ (forall type,
        In type (map fst (transactionsByType (getTransactionStats st)))
        <-> getTransactionsByType type st <> []).
Proof.
  intros _.
  unfold getTransactionStats, getTransactionsByType.
  cbn [totalTransactions pendingTransactions confirmedTransactions
       failedTransactions transactionsByType].
  rewrite stats_byType_fold. cbn [acc_byType].
  destruct (byType_counts (getTransactionPool st) [] (NoDup_nil _))
    as [Hnd Hcount].
  split; [apply status_partition|]. split; [assumption|]. split.
  - intros type. now rewrite Hcount.
  - intros type.
    destruct (byType_keys (getTransactionPool st) [] (NoDup_nil _) type)
      as [Hto Hfrom].
    split.
    + intros Hin. destruct (Hto Hin) as [[]|[t [Ht Htype]]].
      intros Hnil.
      assert (Hf : In t (filter (fun t => String.eqb (tx_type t) type)
                           (getTransactionPool st))).
      { apply filter_In. split; [assumption|]. now apply String.eqb_eq. }
      rewrite Hnil in Hf. destruct Hf.
    + intros Hne. apply Hfrom. right.
      destruct (filter _ _) as [|t rest] eqn:E; [congruence|].
      assert (Hf : In t (filter (fun t => String.eqb (tx_type t) type)
                           (getTransactionPool st)))
        by (rewrite E; now left).
      apply filter_In in Hf. destruct Hf as [Hin Heq].
      exists t. split; [assumption|]. now apply String.eqb_eq.
Qed.

Lemma stats_count_every_entry_once_witness :
  countOfType "vote" (transactionsByType (getTransactionStats crowdedPool))
  = 12%nat
  /\ countOfType "election_update"
       (transactionsByType (getTransactionStats crowdedPool))
     = 1%nat.
Proof.
  pose proof (stats_count_every_entry_once crowdedPool
                ltac:(repeat constructor)) as [_ [_ [Hcount _]]].
  split; rewrite Hcount; reflexivity.
Defined.


Lemma mark_keeps_signed_fields op st i t :
  is_mark op ->
  nth_error (getTransactionPool st) i = Some t ->
  exists t',
    nth_error (getTransactionPool (applyOp op st)) i = Some t'
    /\ same_signed_fields t t'.
Proof.
  intros Hmark Hnth. destruct op; try now destruct Hmark.
  - cbn [applyOp]. unfold markTransactionConfirmed.
    destruct (update_first _ _ _) as [pool'|] eqn:E.
    + rewrite pool_set_pool.
      destruct (update_first_nth _ _ _ _ _ _ E Hnth) as [t' [Ht' Hor]].
      exists t'. split; [assumption|].
      destruct Hor as [->| ->]; repeat split.
    + exists t. split; [assumption|]. repeat split.
  - cbn [applyOp]. unfold markTransactionFailed.
    destruct (update_first _ _ _) as [pool'|] eqn:E.
    + rewrite pool_set_pool.
      destruct (update_first_nth _ _ _ _ _ _ E Hnth) as [t' [Ht' Hor]].
      exists t'. split; [assumption|].
      destruct Hor as [->| ->]; repeat split.
    + exists t. split; [assumption|]. repeat split.
Qed.

Lemma same_signed_fields_verify `{Runtime} t t' :
  same_signed_fields t t' ->
  verifyTransactionSignature t' = verifyTransactionSignature t.
Proof.
  intros [Hid [Hty [Hfr [Hto [Hda [Hts Hsig]]]]]].
  unfold verifyTransactionSignature, signTransaction.
  now rewrite Hid, Hty, Hfr, Hto, Hda, Hts, Hsig.
Qed.

(** X7. Confirming or failing pool entries never touches what the signature
    covers: under every sequence of [markTransactionConfirmed] and
    [markTransactionFailed] calls each entry keeps its id, type, sender,
    recipient, payload, timestamp and signature, so
    [verifyTransactionSignature] answers for it what it answered before. *)
Theorem marks_keep_the_signature_valid `{Runtime} (ops : list PoolOp)
    (st : Store) (i : nat) (t : BlockchainTransaction) :
  Forall is_mark ops ->
  nth_error (getTransactionPool st) i = Some t ->
  exists t',
    nth_error (getTransactionPool (runOps ops st)) i = Some t'
    /\ same_signed_fields t t'
    /\ verifyTransactionSignature t' = verifyTransactionSignature t.
Proof.
  revert st t. induction ops as [|op ops IH]; intros st t Hall Hnth.
  - exists t. split; [assumption|]. split; [repeat split|reflexivity].
  - inversion Hall as [|? ? Hop Hops]; subst. cbn [runOps fold_left].
    destruct (mark_keeps_signed_fields op st i t Hop Hnth) as [t1 [H1 Hs1]].
    destruct (IH _ _ Hops H1) as [t' [H' [Hs' Hv']]].
    exists t'. split; [assumption|].
    assert (Hs : same_signed_fields t t').
    { destruct Hs1 as [? [? [? [? [? [? ?]]]]]].
      destruct Hs' as [? [? [? [? [? [? ?]]]]]].
      repeat split; congruence. }
    split; [assumption|]. now apply same_signed_fields_verify.
Qed.

Lemma marks_keep_the_signature_valid_witness :
  exists t',
    nth_error
      (getTransactionPool
         (runOps [OpConfirm "tx-1" (Num 1) 21; OpFail "tx-1"]
            (backlogLedger 3)))
      1
    = Some t'
    /\ same_signed_fields (demoVote "tx-1") t'
    /\ @verifyTransactionSignature demoRuntime t'
       = @verifyTransactionSignature demoRuntime (demoVote "tx-1").
Proof.
  apply (@marks_keep_the_signature_valid demoRuntime).
  - repeat constructor.
  - reflexivity.
Defined.

(** ** The ledger: further checked properties *)

(** X8. [initializeBlockchain] is idempotent, and so is the pool's
    [initialize]: a second call, whatever ids and clock it would use, leaves
    the store of the first call as it is; and a chain, a non-empty node
    table and a consensus state that are already stored are kept. *)
Theorem initialization_is_idempotent `{Runtime} (uuid uuid' : nat -> string)
    (now now' : Z) (st : Store) :
  initializeBlockchain uuid' now' (initializeBlockchain uuid now st)
  = initializeBlockchain uuid now st
  /\ TransactionManager.initialize (TransactionManager.initialize st)
     = TransactionManager.initialize st
  /\ (forall chain,
        st_chain st = Some chain ->
        st_chain (initializeBlockchain uuid now st) = Some chain)
  /\ (getNodes st <> [] ->
      st_nodes (initializeBlockchain uuid now st) = st_nodes st)
  /\ (forall consensus,
        st_consensus st = Some consensus ->
        st_consensus (initializeBlockchain uuid now st) = Some consensus)
  /\ st_pool (initializeBlockchain uuid now st) = st_pool st.
Proof.
  destruct st as [[chain|] [[|n nodes]|] [consensus|] pool];
    (split; [reflexivity|]);
    (split; [destruct pool; reflexivity|]);
    (split; [intros c; cbn; intros [= <-]; reflexivity || discriminate|]);
    (split; [intros Hn; try reflexivity; now destruct Hn|]);
    (split; [intros c; cbn; intros [= <-]; reflexivity || discriminate|]);
    reflexivity.
Qed.

Lemma merkle_level_nonempty `{Runtime} (l : list string) :
  l <> [] -> merkle_level l <> [].
Proof.
  destruct l as [|a [|b rest]]; cbn [merkle_level]; congruence.
Qed.

Lemma merkle_loop_nonempty `{Runtime} fuel : forall l,
  l <> [] -> merkle_loop fuel l <> [].
Proof.
  induction fuel as [|fuel IH]; intros l Hl; cbn [merkle_loop]; [assumption|].
  destruct (1 <? List.length l)%nat; [|assumption].
  now apply IH, merkle_level_nonempty.
Qed.

Lemma merkle_loop_more_fuel `{Runtime} fuel : forall l fuel',
  (List.length l <= S fuel)%nat ->
  (fuel <= fuel')%nat ->
  merkle_loop fuel' l = merkle_loop fuel l.
Proof.
  induction fuel as [|fuel IH]; intros l fuel' Hl Hf.
  - cbn [merkle_loop]. destruct fuel'; cbn [merkle_loop]; [reflexivity|].
    destruct (Nat.ltb_spec 1 (List.length l)); [lia|reflexivity].
  - destruct fuel' as [|fuel']; [lia|]. cbn [merkle_loop].
    destruct (Nat.ltb_spec 1 (List.length l)) as [Hlong|_]; [|reflexivity].
    apply IH; [|lia].
    destruct (merkle_level_shrinks l) as [_ Hlt]. lia.
Qed.

(** X9. The loop of [calculateMerkleRoot] ends by its own test: for a
    non-empty transaction list, folding the leaf hashes level by level
    leaves exactly one hash after at most as many passes as there are
    transactions, and running the loop longer does not change it.  A single
    transaction's root is its own leaf hash, and the root of no transaction
    is the hash of "empty". *)
Theorem merkle_loop_ends_with_one_root `{Runtime}
    (transactions : list BlockchainTransaction) :
  let leaves :=
    map (fun tx => generateHash (stringify_tx tx)) transactions in
  (transactions <> [] ->
   merkle_loop (List.length transactions) leaves
   = [calculateMerkleRoot transactions])
  /\ (forall fuel,
        (List.length transactions <= S fuel)%nat ->
        merkle_loop fuel leaves
        = merkle_loop (List.length transactions) leaves)
  /\ (forall tx,
        transactions = [tx] ->
        calculateMerkleRoot transactions = generateHash (stringify_tx tx))
  /\ (transactions = [] ->
      calculateMerkleRoot transactions = generateHash "empty").
Proof.
  cbv zeta. split; [|split; [|split]].
  - intros Hne.
    pose proof (merkle_loop_settles (List.length transactions)
                  (map (fun tx => generateHash (stringify_tx tx)) transactions))
      as Hlen.
    rewrite length_map in Hlen. specialize (Hlen ltac:(lia)).
    pose proof (merkle_loop_nonempty (List.length transactions)
                  (map (fun tx => generateHash (stringify_tx tx)) transactions))
      as Hnn.
    unfold calculateMerkleRoot.
    destruct transactions as [|t rest]; [congruence|].
    specialize (Hnn ltac:(discriminate)).
    destruct (merkle_loop _ _) as [|root [|x more]]; cbn in *;
      [congruence|reflexivity|lia].
  - intros fuel Hfuel.
    destruct (Nat.le_ge_cases (List.length transactions) fuel) as [Hle|Hge].
    + apply merkle_loop_more_fuel; [rewrite length_map; lia|assumption].
    + symmetry. apply merkle_loop_more_fuel; [rewrite length_map|]; lia.
  - intros tx ->. reflexivity.
  - intros ->. reflexivity.
Qed.

Lemma validateBlock_reads `{Runtime} cur cur' prev prev' :
  same_checked_fields cur cur' ->
  b_index prev' = b_index prev ->
  b_hash prev' = b_hash prev ->
  validateBlock cur' prev' = validateBlock cur prev.
Proof.
  intros [Hi [Ht [Hd [Hp [Hh [Hn [Hx Hm]]]]]]] Hpi Hph.
  unfold validateBlock, calculateHash.
  now rewrite Hi, Ht, Hd, Hp, Hh, Hn, Hx, Hm, Hpi, Hph.
Qed.

Lemma validate_from_reads `{Runtime} rest : forall rest' first first',
  Forall2 same_checked_fields rest rest' ->
  b_index first' = b_index first ->
  b_hash first' = b_hash first ->
  validate_from first' rest' = validate_from first rest.
Proof.
  induction rest as [|c rest IH]; intros rest' first first' Hall Hi Hh;
    inversion Hall as [|? c' ? rest'' Hc Hrest]; subst; [reflexivity|].
  cbn [validate_from].
  rewrite (validateBlock_reads c c' first first' Hc Hi Hh).
  destruct (validateBlock c first); try reflexivity.
  apply IH; [assumption| |]; destruct Hc as [? [? [? [? [? ?]]]]]; assumption.
Qed.

Lemma resign_same_checked_fields sig val gas diff b :
  same_checked_fields b (resign sig val gas diff b).
Proof. repeat split. Qed.

(** X10. The chain walk never reads a block's signature, validator, gas
    used or difficulty: two chains whose blocks agree on index, timestamp,
    payload, previous hash, hash, nonce, transactions and Merkle root get
    the same answer from [validateBlockchain], so rewriting the signature or
    the validator of stored blocks goes unnoticed. *)
Theorem validation_never_reads_the_signature `{Runtime}
    (chain chain' : list BlockchainBlock) (st st' : Store) :
  getBlockchain st = chain ->
  getBlockchain st' = chain' ->
  Forall2 same_checked_fields chain chain' ->
  validateBlockchain st' = validateBlockchain st.
Proof.
  intros <- <- Hall. unfold validateBlockchain, validateChain.
  destruct Hall as [|first first' rest rest' Hf Hrest]; [reflexivity|].
  apply validate_from_reads; [assumption| |];
    destruct Hf as [? [? [? [? [? ?]]]]]; assumption.
Qed.

(** X11. The chain walk never re-derives anything of the first block: it
    reads the genesis block's index and hash only, so a stored genesis
    block whose payload, timestamp, nonce, transactions or Merkle root
    were altered, its hash field kept, passes [validateBlockchain] exactly
    when the original chain did. *)
Theorem validation_never_rechecks_the_genesis_block `{Runtime}
    (genesis genesis' : BlockchainBlock) (rest : list BlockchainBlock) :
  b_index genesis' = b_index genesis ->
  b_hash genesis' = b_hash genesis ->
  validateBlockchain (mkStore (Some (genesis' :: rest)) None None None)
  = validateBlockchain (mkStore (Some (genesis :: rest)) None None None)
  /\ validateBlockchain (mkStore (Some [genesis']) None None None) = true.
Proof.
  intros Hi Hh. split; [|reflexivity].
  unfold validateBlockchain, validateChain. cbn [getBlockchain st_chain].
  apply validate_from_reads; [|assumption|assumption].
  clear. induction rest as [|b rest IH]; constructor; [repeat split|assumption].
Qed.

Lemma validation_never_reads_the_signature_witness :
  @validateBlockchain demoRuntime
    (set_chain
       (map (resign "forged" "mallory" 0 0) (getBlockchain twoBlockLedger))
       twoBlockLedger)
  = @validateBlockchain demoRuntime twoBlockLedger.
Proof.
  apply (@validation_never_reads_the_signature demoRuntime
           (getBlockchain twoBlockLedger)
           (map (resign "forged" "mallory" 0 0) (getBlockchain twoBlockLedger))).
  - reflexivity.
  - reflexivity.
  - vm_compute. repeat constructor.
Defined.

Lemma validation_never_rechecks_the_genesis_block_witness :
  @validateBlockchain demoRuntime
    (mkStore (Some (forgedGenesis :: tl (getBlockchain twoBlockLedger)))
       None None None)
  = @validateBlockchain demoRuntime
      (mkStore
         (Some (@createGenesisBlock demoRuntime 1700000000000 1700000000000
                :: tl (getBlockchain twoBlockLedger)))
         None None None)
  /\ @validateBlockchain demoRuntime
       (mkStore (Some [forgedGenesis]) None None None)
     = true.
Proof.
  apply (@validation_never_rechecks_the_genesis_block demoRuntime).
  - reflexivity.
  - reflexivity.
Defined.

Lemma mineBlockPoW_result `{Runtime} nonces : forall block difficulty mined hash,
  mineBlockPoW nonces block difficulty = Some (mined, hash) ->
  exists nonce,
    In nonce nonces
    /\ mined = with_nonce nonce block
    /\ hash = calculateHash mined
    /\ substring 0 difficulty hash = zeros difficulty.
Proof.
  induction nonces as [|n later IH]; intros block difficulty mined hash Hm;
    cbn [mineBlockPoW] in Hm; [discriminate|].
  destruct (String.eqb_spec
              (substring 0 difficulty (calculateHash (with_nonce n block)))
              (zeros difficulty)) as [Ez|_].
  - injection Hm as <- <-. exists n. repeat split; [now left|assumption].
  - destruct (IH _ _ _ _ Hm) as [n' [Hin [-> [Hh Hz]]]].
    exists n'. repeat split; [now right|assumption|assumption].
Qed.

(** The fields of the candidate that [addBlock] builds. *)
Lemma candidateBlock_fields `{Runtime} env txs prev consensus b :
  candidateBlock env txs prev consensus = Return b ->
  b_index b = js_succ (b_index prev)
  /\ b_timestamp b = env_now env
  /\ b_data b = BatchData NETWORK_ID (List.length txs)
  /\ b_previousHash b = b_hash prev
  /\ b_hash b = calculateHash b
  /\ b_validator b = str_or (c_currentValidator consensus) "system"
  /\ b_signature b = signBlock b
  /\ b_transactions b = Some txs
  /\ b_merkleRoot b = calculateMerkleRoot txs
  /\ b_gasUsed b = fold_left (fun sum tx => sum + z_or (tx_gasUsed tx) 0) txs 0
  /\ b_difficulty b = c_difficulty consensus.
Proof.
  unfold candidateBlock. destruct (c_mechanism consensus).
  - intros [= <-]. repeat split.
  - destruct (_ <? 0); [discriminate|].
    destruct (mineBlockPoW _ _ _) as [[mined hash]|] eqn:Em; [|discriminate].
    intros [= <-].
    destruct (mineBlockPoW_result _ _ _ _ _ Em) as [n [_ [-> [-> _]]]].
    repeat split.
Qed.

(** X12. [addBlock] is all or nothing.  Whenever it does not return a block
    (no stored chain, a negative difficulty under proof of work, a nonce
    search without result, a rejected candidate) the store is what it was;
    on an empty chain, where there is no tip to extend, it throws; and when
    it returns a block the stored chain is the old one followed by exactly
    that block. *)
Theorem addBlock_is_all_or_nothing `{Runtime} (env : AddBlockEnv)
    (transactions : list BlockchainTransaction) (st : Store) :
  (returned (fst (addBlock env transactions st)) = false ->
   snd (addBlock env transactions st) = st)
  /\ (getBlockchain st = [] ->
      addBlock env transactions st
      = (Throw "Cannot read properties of undefined", st))
  /\ (getBlockchain st <> [] ->
      c_mechanism (getConsensusState st) = PoW ->
      c_difficulty (getConsensusState st) < 0 ->
      addBlock env transactions st = (Throw "Invalid count value", st))
  /\ (forall block st',
        addBlock env transactions st = (Return block, st') ->
        getBlockchain st' = getBlockchain st ++ [block]).
Proof.
  split; [|split; [|split]].
  - intros Hr. destruct (addBlock env transactions st) as [r st'] eqn:E.
    cbn [fst snd] in *. eapply addBlock_failure_leaves_store; eauto.
  - intros Hnil. unfold addBlock. now rewrite Hnil.
  - intros Hne Hpow Hneg. unfold addBlock.
    destruct (tip (getBlockchain st)) as [prev|] eqn:Et.
    + unfold candidateBlock. rewrite Hpow.
      destruct (Z.ltb_spec (c_difficulty (getConsensusState st)) 0); [|lia].
      reflexivity.
    + apply tip_nil_iff in Et. contradiction.
  - intros block st' Hadd.
    destruct (addBlock_returned _ _ _ _ _ Hadd) as [prev [_ [_ [_ ->]]]].
    apply commitBlock_chain.
Qed.

(** ** Facts about produced chains *)

Lemma produced_numbered `{Runtime} chain : Produced chain -> numbered chain.
Proof.
  induction 1 as [nowData now | st env txs b st' _ IH Hadd].
  - intros [|i] b Hnth; cbn in Hnth; [now injection Hnth as <-|].
    destruct i; discriminate.
  - destruct (addBlock_returned _ _ _ _ _ Hadd) as [prev [Hp [_ [Hv ->]]]].
    rewrite commitBlock_chain. intros i c Hnth.
    destruct (Nat.lt_ge_cases i (List.length (getBlockchain st))) as [Hlt|Hge].
    + rewrite nth_error_app1 in Hnth by assumption. now apply IH.
    + rewrite nth_error_app2 in Hnth by assumption.
      destruct (i - List.length (getBlockchain st))%nat as [|k] eqn:Ek;
        [|destruct k; discriminate].
      cbn in Hnth. injection Hnth as <-.
      apply validateBlock_checks in Hv. destruct Hv as [[z [Hz Hb]] _].
      unfold tip in Hp.
      assert (Hlen : (List.length (getBlockchain st) - 1
                      < List.length (getBlockchain st))%nat).
      { apply nth_error_Some. congruence. }
      apply IH in Hp. rewrite Hp in Hz. injection Hz as <-.
      rewrite Hb. f_equal. lia.
Qed.

Lemma find_numbered (l : list BlockchainBlock) : forall off,
  (forall j b, nth_error l j = Some b -> b_index b = Num (Z.of_nat (off + j))) ->
  forall i,
    find (fun b => js_num_eqb (b_index b) (Num (Z.of_nat (off + i)))) l
    = nth_error l i.
Proof.
  induction l as [|x rest IH]; intros off Hnum i.
  - now destruct i.
  - cbn [find]. rewrite (Hnum 0%nat x eq_refl). cbn [js_num_eqb].
    destruct i as [|i].
    + now rewrite Z.eqb_refl.
    + destruct (Z.eqb_spec (Z.of_nat (off + 0)) (Z.of_nat (off + S i)));
        [lia|].
      cbn [nth_error]. rewrite <- (IH (S off)).
      * now replace (S off + i)%nat with (off + S i)%nat by lia.
      * intros j b Hj. rewrite (Hnum (S j) b Hj). f_equal. lia.
Qed.

Lemma find_nothing {A : Type} (p : A -> bool) (l : list A) :
  (forall x, In x l -> p x = false) -> find p l = None.
Proof.
  induction l as [|x rest IH]; intros Hall; [reflexivity|].
  cbn [find]. rewrite (Hall x (or_introl eq_refl)).
  apply IH. intros y Hy. apply Hall. now right.
Qed.

(** X13. In every chain obtained from a genesis block by successful
    [addBlock] calls the block at position i carries the index i, so
    [getBlockByIndex] returns the block at that position and nothing for an
    index that is negative, not below the chain length, or not a number. *)
Theorem produced_blocks_are_numbered `{Runtime} (st : Store) :
  Produced (getBlockchain st) ->
  numbered (getBlockchain st)
  /\ (forall i,
        getBlockByIndex (Num (Z.of_nat i)) st
        = nth_error (getBlockchain st) i)
  /\ getBlockByIndex NaN st = None
  /\ (forall z,
        z < 0 \/ Z.of_nat (List.length (getBlockchain st)) <= z ->
        getBlockByIndex (Num z) st = None).
Proof.
  intros Hp. pose proof (produced_numbered _ Hp) as Hnum.
  split; [assumption|]. unfold getBlockByIndex. split; [|split].
  - intros i. apply (find_numbered _ 0%nat). exact Hnum.
  - apply find_nothing. intros x _. now destruct (b_index x).
  - intros z Hz. apply find_nothing. intros x Hx.
    apply In_nth_error in Hx. destruct Hx as [i Hi].
    rewrite (Hnum i x Hi). cbn [js_num_eqb].
    assert (i < List.length (getBlockchain st))%nat
      by (apply nth_error_Some; congruence).
    apply Z.eqb_neq. lia.
Qed.

Lemma produced_blocks_are_numbered_witness :
  numbered (getBlockchain twoBlockLedger)
  /\ (forall i,
        getBlockByIndex (Num (Z.of_nat i)) twoBlockLedger
        = nth_error (getBlockchain twoBlockLedger) i)
  /\ getBlockByIndex NaN twoBlockLedger = None
  /\ (forall z,
        z < 0 \/ Z.of_nat (List.length (getBlockchain twoBlockLedger)) <= z ->
        getBlockByIndex (Num z) twoBlockLedger = None).
Proof.
  apply (@produced_blocks_are_numbered demoRuntime twoBlockLedger).
  eapply (@Produced_addBlock demoRuntime (backlogLedger 3)
            (demoEnv 1700000003000) [demoVote "tx-1"]).
  - exact (@Produced_genesis demoRuntime 1700000000000 1700000000000).
  - vm_compute. reflexivity.
Defined.

(** ** Facts about the confirmation of a block's transactions *)

Lemma update_first_find_other {A : Type} (p q : A -> bool) (f : A -> A) :
  (forall x, p (f x) = p x) ->
  (forall x, q x = true -> p x = false) ->
  forall l l',
    update_first q f l = Some l' ->
    find p l' = find p l.
Proof.
  intros Hpf Hqp. induction l as [|x rest IH]; intros l' Hup;
    cbn [update_first] in Hup; [discriminate|].
  destruct (q x) eqn:Eq.
  - injection Hup as <-. cbn [find]. now rewrite Hpf, (Hqp x Eq).
  - destruct (update_first q f rest) as [rest'|]; [|discriminate].
    injection Hup as <-. cbn [find]. rewrite (IH rest' eq_refl). reflexivity.
Qed.

Lemma mark_confirmed_other id id' bi g st :
  id' <> id ->
  getTransactionById id (markTransactionConfirmed id' bi g st)
  = getTransactionById id st.
Proof.
  intros Hne. unfold markTransactionConfirmed, getTransactionById.
  destruct (update_first _ _ _) as [pool'|] eqn:E; [|reflexivity].
  rewrite pool_set_pool.
  eapply update_first_find_other; [| |exact E].
  - reflexivity.
  - intros x Hx. cbn in Hx. apply String.eqb_eq in Hx.
    apply String.eqb_neq. congruence.
Qed.

Lemma mark_confirmed_same id bi g st t :
  getTransactionById id st = Some t ->
  exists t',
    getTransactionById id (markTransactionConfirmed id bi g st) = Some t'
    /\ tx_status t' = Confirmed
    /\ tx_blockIndex t' = Some bi
    /\ same_signed_fields t t'.
Proof.
  intros Hfind. unfold getTransactionById in *. unfold markTransactionConfirmed.
  destruct (update_first_find (fun x => String.eqb (tx_id x) id)
              (fun x =>
                 mkTx (tx_id x) (tx_type x) (tx_from x) (tx_to x)
                   (tx_data x) (tx_timestamp x) (tx_signature x) Confirmed
                   (tx_gasLimit x) g (Some bi))
              (fun y Hy => Hy) _ _ Hfind) as [l' [-> Hl']].
  rewrite pool_set_pool, Hl'. eexists. repeat split.
Qed.

Lemma confirm_all_lookup bi txs : forall st id,
  let st' :=
    fold_left
      (fun s transaction =>
         markTransactionConfirmed (tx_id transaction) bi
           (z_or (tx_gasUsed transaction) 0) s)
      txs st in
  ((forall t, In t txs -> tx_id t <> id) ->
   getTransactionById id st' = getTransactionById id st)
  /\ (forall t0,
        getTransactionById id st = Some t0 ->
        (tx_status t0 = Confirmed /\ tx_blockIndex t0 = Some bi
         \/ exists t, In t txs /\ tx_id t = id) ->
        exists t',
          getTransactionById id st' = Some t'
          /\ tx_status t' = Confirmed
          /\ tx_blockIndex t' = Some bi
          /\ same_signed_fields t0 t').
Proof.
  induction txs as [|t rest IH]; intros st id; cbn [fold_left]; cbv zeta.
  - split; [reflexivity|]. intros t0 Hfind [[Hs Hb]|[t [[] _]]].
    exists t0. repeat split; assumption.
  - destruct (IH (markTransactionConfirmed (tx_id t) bi
                    (z_or (tx_gasUsed t) 0) st) id) as [IHother IHsame].
    cbv zeta in IHother, IHsame. split.
    + intros Hnot. rewrite IHother by (intros u Hu; apply Hnot; now right).
      apply mark_confirmed_other. apply Hnot. now left.
    + intros t0 Hfind Hor.
      destruct (String.eqb_spec (tx_id t) id) as [E|E].
      * rewrite E in *.
        destruct (mark_confirmed_same id bi (z_or (tx_gasUsed t) 0) st t0 Hfind)
          as [t1 [H1 [Hs1 [Hb1 Hf1]]]].
        destruct (IHsame t1 H1 (or_introl (conj Hs1 Hb1)))
          as [t' [H' [Hs' [Hb' Hf']]]].
        exists t'. repeat split; try assumption;
          destruct Hf1 as [? [? [? [? [? [? ?]]]]]];
          destruct Hf' as [? [? [? [? [? [? ?]]]]]]; congruence.
      * assert (Hfind1 :
          getTransactionById id
            (markTransactionConfirmed (tx_id t) bi (z_or (tx_gasUsed t) 0) st)
          = Some t0) by (rewrite mark_confirmed_other; assumption).
        apply (IHsame t0 Hfind1).
        destruct Hor as [Hdone|[u [[<-|Hu] Hid]]]; [now left|congruence|].
        right. eauto.
Qed.

Lemma commit_prefix_pool env b st :
  st_pool
    (rotateValidator
       (updateValidatorStats (str_or (Some (b_validator b)) "system")
          (env_seen env) (set_chain (getBlockchain st ++ [b]) st)))
  = st_pool st.
Proof.
  unfold rotateValidator.
  destruct (getActiveValidators _); [|destruct (nth_error _ _)];
    unfold updateValidatorStats; destruct (update_first _ _ _); reflexivity.
Qed.

(** What a returned block has done to the pool. *)
Lemma addBlock_confirmation `{Runtime} (env : AddBlockEnv)
    (transactions : list BlockchainTransaction) (st st' : Store)
    (block : BlockchainBlock) :
  addBlock env transactions st = (Return block, st') ->
  b_transactions block = Some transactions
  /\ (forall t known,
        In t transactions ->
        getTransactionById (tx_id t) st = Some known ->
        exists t',
          getTransactionById (tx_id t) st' = Some t'
          /\ tx_status t' = Confirmed
          /\ tx_blockIndex t' = Some (b_index block)
          /\ same_signed_fields known t')
  /\ (forall id,
        (forall t, In t transactions -> tx_id t <> id) ->
        getTransactionById id st' = getTransactionById id st)
  /\ List.length (getTransactionPool st') = List.length (getTransactionPool st).
Proof.
  intros Hadd.
  destruct (addBlock_returned _ _ _ _ _ Hadd) as [prev [_ [Hc [_ ->]]]].
  split; [apply (candidateBlock_fields _ _ _ _ _ Hc)|].
  unfold commitBlock.
  set (st3 := rotateValidator _).
  assert (Hpool : st_pool st3 = st_pool st) by apply commit_prefix_pool.
  assert (Hlook : forall id, getTransactionById id st3 = getTransactionById id st).
  { intros id. unfold getTransactionById, getTransactionPool. now rewrite Hpool. }
  split; [|split].
  - intros t known Hin Hknown.
    destruct (confirm_all_lookup (b_index block) transactions st3 (tx_id t))
      as [_ Hsame].
    rewrite <- Hlook in Hknown.
    apply (Hsame known Hknown). right. eauto.
  - intros id Hnot.
    destruct (confirm_all_lookup (b_index block) transactions st3 id)
      as [Hother _].
    rewrite <- Hlook. now apply Hother.
  - transitivity (List.length (getTransactionPool st3)).
    + clear. generalize st3. induction transactions as [|t rest IH];
        intros s; cbn [fold_left]; [reflexivity|].
      rewrite IH. apply mark_confirmed_length.
    + unfold getTransactionPool. now rewrite Hpool.
Qed.

(** X14. A block that [addBlock] returns carries the given transactions,
    and every one of them that the pool knows by its id is afterwards found
    confirmed under that id, with the new block's index as its block index
    and its signed fields untouched.  Lookups under ids that are not in the
    block give what they gave before, and the pool has as many entries as
    before. *)
Theorem addBlock_confirms_its_transactions `{Runtime} (env : AddBlockEnv)
    (transactions : list BlockchainTransaction) (st st' : Store)
    (block : BlockchainBlock) :
  addBlock env transactions st = (Return block, st') ->
  b_transactions block = Some transactions
  /\ (forall t known,
        In t transactions ->
        getTransactionById (tx_id t) st = Some known ->
        exists t',
          getTransactionById (tx_id t) st' = Some t'
          /\ tx_status t' = Confirmed
          /\ tx_blockIndex t' = Some (b_index block)
          /\ same_signed_fields known t')
  /\ (forall id,
        (forall t, In t transactions -> tx_id t <> id) ->
        getTransactionById id st' = getTransactionById id st)
  /\ List.length (getTransactionPool st') = List.length (getTransactionPool st).
Proof. apply addBlock_confirmation. Qed.

Lemma addBlock_confirms_its_transactions_witness :
  b_transactions secondBlock = Some [demoVote "tx-1"]
  /\ (forall t known,
        In t [demoVote "tx-1"] ->
        getTransactionById (tx_id t) (backlogLedger 3) = Some known ->
        exists t',
          getTransactionById (tx_id t) twoBlockLedger = Some t'
          /\ tx_status t' = Confirmed
          /\ tx_blockIndex t' = Some (b_index secondBlock)
          /\ same_signed_fields known t')
  /\ (forall id,
        (forall t, In t [demoVote "tx-1"] -> tx_id t <> id) ->
        getTransactionById id twoBlockLedger
        = getTransactionById id (backlogLedger 3))
  /\ List.length (getTransactionPool twoBlockLedger)
     = List.length (getTransactionPool (backlogLedger 3)).
Proof.
  apply (@addBlock_confirms_its_transactions demoRuntime
           (demoEnv 1700000003000)).
  vm_compute. reflexivity.
Defined.

(** X15. A transaction that a block has just included has one
    confirmation: on a chain obtained from a genesis block by successful
    [addBlock] calls, [verifyTransaction] reports the transactions of the
    block just returned as verified, with the block's index (the former
    chain length) and a confirmation count of 1. *)
Theorem included_transaction_has_one_confirmation `{Runtime}
    (env : AddBlockEnv) (transactions : list BlockchainTransaction)
    (st st' : Store) (block : BlockchainBlock)
    (t known : BlockchainTransaction) :
  Produced (getBlockchain st) ->
  addBlock env transactions st = (Return block, st') ->
  In t transactions ->
  getTransactionById (tx_id t) st = Some known ->
  verifyTransaction (tx_id t) st'
  = mkVerification true
      (Some (Num (Z.of_nat (List.length (getBlockchain st)))))
      (Some (Num 1)) "confirmed".
Proof.
  intros Hp Hadd Hin Hknown.
  assert (Hp' : Produced (getBlockchain st'))
    by (eapply Produced_addBlock; eauto).
  destruct (addBlock_confirmation _ _ _ _ _ Hadd) as [_ [Hconf _]].
  destruct (Hconf t known Hin Hknown) as [t' [Hfind [Hs [Hb _]]]].
  destruct (addBlock_returned _ _ _ _ _ Hadd) as [prev [_ [_ [_ Hst']]]].
  assert (Hchain : getBlockchain st' = getBlockchain st ++ [block])
    by (subst st'; apply commitBlock_chain).
  assert (Hidx : b_index block
                 = Num (Z.of_nat (List.length (getBlockchain st)))).
  { apply (produced_numbered _ Hp'). rewrite Hchain.
    rewrite nth_error_app2 by lia. now rewrite Nat.sub_diag. }
  unfold verifyTransaction. rewrite Hfind, Hs, Hb, Hidx, Hchain, length_app.
  cbn [List.length js_length_minus]. do 3 f_equal. lia.
Qed.

Lemma included_transaction_has_one_confirmation_witness :
  verifyTransaction "tx-1" twoBlockLedger
  = mkVerification true (Some (Num 1)) (Some (Num 1)) "confirmed".
Proof.
  apply (@included_transaction_has_one_confirmation demoRuntime
           (demoEnv 1700000003000) [demoVote "tx-1"] (backlogLedger 3)
           twoBlockLedger secondBlock (demoVote "tx-1") (demoVote "tx-1")).
  - exact (@Produced_genesis demoRuntime 1700000000000 1700000000000).
  - vm_compute. reflexivity.
  - now left.
  - reflexivity.
Defined.

(** X16. Under proof of work a block that [addBlock] returns meets the
    target: the difficulty is not negative, the hash starts with that many
    zero characters, the nonce is one of those the search drew, and the
    hash is the one recomputed from the block. *)
Theorem proof_of_work_meets_the_target `{Runtime} (env : AddBlockEnv)
    (transactions : list BlockchainTransaction) (st st' : Store)
    (block : BlockchainBlock) :
  c_mechanism (getConsensusState st) = PoW ->
  addBlock env transactions st = (Return block, st') ->
  0 <= c_difficulty (getConsensusState st)
  /\ substring 0 (Z.to_nat (c_difficulty (getConsensusState st)))
       (b_hash block)
     = zeros (Z.to_nat (c_difficulty (getConsensusState st)))
  /\ In (b_nonce block) (env_nonces env)
  /\ b_hash block = calculateHash block.
Proof.
  intros Hpow Hadd.
  destruct (addBlock_returned _ _ _ _ _ Hadd) as [prev [_ [Hc _]]].
  pose proof (candidateBlock_fields _ _ _ _ _ Hc) as [_ [_ [_ [_ [Hh _]]]]].
  unfold candidateBlock in Hc. rewrite Hpow in Hc.
  destruct (Z.ltb_spec (c_difficulty (getConsensusState st)) 0) as [|Hge];
    [discriminate|].
  destruct (mineBlockPoW _ _ _) as [[mined hash]|] eqn:Em; [|discriminate].
  injection Hc as <-.
  destruct (mineBlockPoW_result _ _ _ _ _ Em) as [n [Hin [-> [Hhash Hz]]]].
  split; [assumption|]. split; [exact Hz|]. split; [exact Hin|exact Hh].
Qed.

Lemma substring_length_le (n : nat) : forall s,
  (String.length (substring 0 n s) <= String.length s)%nat.
Proof.
  induction n as [|n IH]; intros s; destruct s as [|c s]; cbn; try lia.
  specialize (IH s). lia.
Qed.

Lemma zeros_length (n : nat) : String.length (zeros n) = n.
Proof. induction n as [|n IH]; cbn; congruence. Qed.

Lemma mining_below_target `{Runtime} (difficulty : nat) :
  (forall s, (String.length (generateHash s) < difficulty)%nat) ->
  forall nonces block, mineBlockPoW nonces block difficulty = None.
Proof.
  intros Hshort. induction nonces as [|n later IH]; intros block;
    cbn [mineBlockPoW]; [reflexivity|].
  destruct (String.eqb_spec
              (substring 0 difficulty (calculateHash (with_nonce n block)))
              (zeros difficulty)) as [E|_]; [|apply IH].
  exfalso.
  pose proof (substring_length_le difficulty
                (calculateHash (with_nonce n block))) as Hle.
  rewrite E, zeros_length in Hle.
  specialize (Hshort (show_num (b_index (with_nonce n block))
                      ++ show_date (b_timestamp (with_nonce n block))
                      ++ stringify_data (b_data (with_nonce n block))
                      ++ b_previousHash (with_nonce n block)
                      ++ show_num (Num (b_nonce (with_nonce n block)))
                      ++ b_merkleRoot (with_nonce n block))%string).
  unfold calculateHash in Hle. lia.
Qed.

(** X17. When the difficulty exceeds the length of every digest, no nonce
    meets the target: under proof of work [addBlock] then yields no block
    whatever nonces the search draws, and the store stays as it is. *)
Theorem nonce_search_needs_a_reachable_target `{Runtime} (env : AddBlockEnv)
    (transactions : list BlockchainTransaction) (st : Store) :
  (forall s,
     Z.of_nat (String.length (generateHash s))
     < c_difficulty (getConsensusState st)) ->
  c_mechanism (getConsensusState st) = PoW ->
  getBlockchain st <> [] ->
  addBlock env transactions st = (NoResult, st).
Proof.
  intros Hshort Hpow Hne. unfold addBlock.
  destruct (tip (getBlockchain st)) as [prev|] eqn:Et;
    [|apply tip_nil_iff in Et; contradiction].
  unfold candidateBlock. rewrite Hpow.
  pose proof (Hshort "") as H0.
  destruct (Z.ltb_spec (c_difficulty (getConsensusState st)) 0); [lia|].
  rewrite mining_below_target; [reflexivity|].
  intros s. specialize (Hshort s). lia.
Qed.

Lemma proof_of_work_meets_the_target_witness :
  exists block st',
    @addBlock digitRuntime powEnv [] (powLedger 1) = (Return block, st')
    /\ 0 <= c_difficulty (getConsensusState (powLedger 1))
    /\ substring 0 (Z.to_nat (c_difficulty (getConsensusState (powLedger 1))))
         (b_hash block)
       = zeros (Z.to_nat (c_difficulty (getConsensusState (powLedger 1))))
    /\ In (b_nonce block) (env_nonces powEnv)
    /\ b_hash block = @calculateHash digitRuntime block.
Proof.
  eexists. eexists. split; [vm_compute; reflexivity|].
  eapply (@proof_of_work_meets_the_target digitRuntime powEnv [] (powLedger 1)).
  - reflexivity.
  - vm_compute. reflexivity.
Defined.

Lemma digit_digest_is_short (s : string) :
  Z.of_nat (String.length (@generateHash digitRuntime s)) < 3.
Proof.
  cbn [generateHash digitRuntime].
  assert (Hm : 0 <= Z.of_nat (String.length s) mod 10 < 10)
    by (apply Z.mod_pos_bound; lia).
  set (m := Z.of_nat (String.length s) mod 10) in *.
  assert (Hcases : m = 0 \/ m = 1 \/ m = 2 \/ m = 3 \/ m = 4 \/ m = 5
                   \/ m = 6 \/ m = 7 \/ m = 8 \/ m = 9) by lia.
  repeat (destruct Hcases as [->|Hcases]; [vm_compute; reflexivity|]).
  subst m. rewrite Hcases. vm_compute. reflexivity.
Qed.

Lemma nonce_search_needs_a_reachable_target_witness :
  @addBlock digitRuntime powEnv [demoVote "tx-1"] (powLedger 3)
  = (NoResult, powLedger 3).
Proof.
  apply (@nonce_search_needs_a_reachable_target digitRuntime).
  - exact digit_digest_is_short.
  - reflexivity.
  - vm_compute. discriminate.
Defined.

(** ** Facts about the node table and the epoch *)

Lemma findIndex_lower_bound {A : Type} (p : A -> bool) (l : list A) :
  -1 <= findIndex p l < Z.of_nat (List.length l).
Proof.
  induction l as [|x rest IH]; cbn [findIndex List.length]; [lia|].
  destruct (p x); [lia|].
  destruct (Z.ltb_spec (findIndex p rest) 0); lia.
Qed.

Lemma rotateValidator_epoch st :
  c_epoch (getConsensusState (rotateValidator st))
  = if match getActiveValidators st with [] => true | _ => false end
    then c_epoch (getConsensusState st)
    else c_epoch (getConsensusState st) + 1.
Proof.
  unfold rotateValidator.
  destruct (getActiveValidators st) as [|v vs] eqn:Evs; [reflexivity|].
  pose proof (findIndex_lower_bound
                (is_current (c_currentValidator (getConsensusState st)))
                (v :: vs)) as Hb.
  set (idx := findIndex _ _) in *.
  set (M := List.length (v :: vs)) in *.
  assert (HM : (0 < M)%nat) by (subst M; cbn [List.length]; lia).
  assert (Hlt : (Z.to_nat (Z.rem (idx + 1) (Z.of_nat M)) < M)%nat).
  { rewrite Z.rem_mod_nonneg by lia.
    pose proof (Z.mod_pos_bound (idx + 1) (Z.of_nat M) ltac:(lia)).
    lia. }
  destruct (nth_error (v :: vs) _) as [w|] eqn:Ew; [reflexivity|].
  apply nth_error_None in Ew. fold M in Ew. lia.
Qed.

Lemma update_first_credit p now : forall nodes nodes',
  update_first p
    (fun v =>
       mkNode (n_id v) (n_address v) (n_type v) (n_status v) now
         (n_blocksValidated v + 1) (Z.min 100 (n_reputation v + 1))
         (n_stake v))
    nodes = Some nodes' ->
  sumValidated nodes' = sumValidated nodes + 1
  /\ (Forall (fun n => n_reputation n <= 100) nodes ->
      Forall (fun n => n_reputation n <= 100) nodes').
Proof.
  unfold sumValidated.
  induction nodes as [|x rest IH]; intros nodes' Hup; cbn [update_first] in Hup;
    [discriminate|].
  destruct (p x).
  - injection Hup as <-. cbn [fold_right n_blocksValidated]. split; [lia|].
    intros Hall. inversion Hall; subst.
    constructor; [cbn [n_reputation]; lia|assumption].
  - destruct (update_first _ _ rest) as [rest'|]; [|discriminate].
    injection Hup as <-. destruct (IH rest' eq_refl) as [Hsum Hrep].
    cbn [fold_right]. split; [lia|]. intros Hall. inversion Hall; subst.
    constructor; auto.
Qed.

Lemma update_first_some {A : Type} (p : A -> bool) (f : A -> A) (l : list A) :
  (exists x, In x l /\ p x = true) -> update_first p f l <> None.
Proof.
  induction l as [|y rest IH]; intros [x [Hin Hp]]; [contradiction|].
  cbn [update_first]. destruct (p y) eqn:Ey; [discriminate|].
  destruct Hin as [->|Hin]; [congruence|].
  destruct (update_first p f rest); [discriminate|].
  exfalso. apply IH; eauto.
Qed.

Lemma commitBlock_accounts env txs b st id :
  In id (activeIds st) ->
  b_validator b = id ->
  id <> "" ->
  totalBlocksValidated (commitBlock env txs b st) = totalBlocksValidated st + 1
  /\ c_epoch (getConsensusState (commitBlock env txs b st))
     = c_epoch (getConsensusState st) + 1
  /\ (Forall (fun n => n_reputation n <= 100) (getNodes st) ->
      Forall (fun n => n_reputation n <= 100)
        (getNodes (commitBlock env txs b st))).
Proof.
  intros Hin Hval Hne. unfold commitBlock.
  assert (Hv : str_or (Some (b_validator b)) "system" = id).
  { rewrite Hval. cbn [str_or]. unfold str_truthy.
    destruct (String.eqb_spec id ""); [contradiction|reflexivity]. }
  rewrite Hv.
  set (st1 := set_chain (getBlockchain st ++ [b]) st).
  assert (Hfound : update_first (fun n => String.eqb (n_id n) id)
                     (fun v =>
                        mkNode (n_id v) (n_address v) (n_type v) (n_status v)
                          (env_seen env) (n_blocksValidated v + 1)
                          (Z.min 100 (n_reputation v + 1)) (n_stake v))
                     (getNodes st1) <> None).
  { apply update_first_some. unfold activeIds, getActiveValidators in Hin.
    apply in_map_iff in Hin. destruct Hin as [x [Hx Hf]].
    apply filter_In in Hf. exists x. split; [apply Hf|].
    now apply String.eqb_eq. }
  set (st2 := updateValidatorStats id (env_seen env) st1).
  assert (Hst2 : exists nodes',
            update_first (fun n => String.eqb (n_id n) id)
              (fun v =>
                 mkNode (n_id v) (n_address v) (n_type v) (n_status v)
                   (env_seen env) (n_blocksValidated v + 1)
                   (Z.min 100 (n_reputation v + 1)) (n_stake v))
              (getNodes st1) = Some nodes'
            /\ st2 = set_nodes nodes' st1).
  { subst st2. unfold updateValidatorStats.
    destruct (update_first _ _ (getNodes st1)) as [nodes'|]; [eauto|congruence]. }
  destruct Hst2 as [nodes' [Hup Hst2]].
  destruct (update_first_credit _ _ _ _ Hup) as [Hsum Hrep].
  assert (Hids2 : activeIds st2 = activeIds st)
    by exact (updateValidatorStats_activeIds id (env_seen env) st1).
  set (st3 := rotateValidator st2).
  destruct (confirm_all_frame (b_index b) txs st3) as [_ [Hn Hc]].
  cbv zeta in Hn, Hc.
  unfold totalBlocksValidated, getNodes, getConsensusState.
  rewrite Hn, Hc. fold (getNodes st3) (getConsensusState st3).
  assert (Hnodes3 : getNodes st3 = nodes').
  { unfold getNodes. subst st3. rewrite (proj2 (rotateValidator_frame st2)).
    now rewrite Hst2. }
  rewrite Hnodes3. split; [exact Hsum|]. split; [|exact Hrep].
  subst st3. rewrite rotateValidator_epoch.
  destruct (getActiveValidators st2) as [|w ws] eqn:Ea.
  - exfalso. rewrite <- Hids2 in Hin. unfold activeIds in Hin.
    rewrite Ea in Hin. destruct Hin.
  - rewrite Hst2. reflexivity.
Qed.

Lemma addBlocks_accounts `{Runtime} calls : forall st st' k ids,
  activeIds st = ids ->
  NoDup ids ->
  ~ In "" ids ->
  (k < List.length ids)%nat ->
  currentAuthority st = nth_error ids k ->
  addBlocks calls st = Some st' ->
  c_epoch (getConsensusState st')
  = c_epoch (getConsensusState st) + Z.of_nat (List.length calls)
  /\ totalBlocksValidated st'
     = totalBlocksValidated st + Z.of_nat (List.length calls)
  /\ List.length (getBlockchain st')
     = (List.length (getBlockchain st) + List.length calls)%nat
  /\ (Forall (fun n => n_reputation n <= 100) (getNodes st) ->
      Forall (fun n => n_reputation n <= 100) (getNodes st')).
Proof.
  induction calls as [|[env txs] later IH];
    intros st st' k ids Hids Hnd Hnonempty Hk Hcur Hrun.
  - cbn in Hrun. injection Hrun as <-. cbn [List.length].
    repeat split; try lia; auto.
  - cbn [addBlocks] in Hrun.
    destruct (addBlock env txs st) as [[b| |] st1] eqn:Eadd; try discriminate.
    destruct (addBlock_returned _ _ _ _ _ Eadd) as [prev [_ [Hc [_ ->]]]].
    destruct (nth_error ids k) as [id|] eqn:Eid;
      [|apply nth_error_None in Eid; lia].
    subst ids.
    assert (Hin : In id (activeIds st)) by (eapply nth_error_In; eauto).
    assert (Hid : id <> "") by (intros ->; contradiction).
    assert (Hval : b_validator b = id).
    { destruct (candidateBlock_fields _ _ _ _ _ Hc)
        as [_ [_ [_ [_ [_ [Hv _]]]]]].
      rewrite Hv. unfold currentAuthority in Hcur. rewrite Hcur.
      cbn [str_or]. unfold str_truthy.
      destruct (String.eqb_spec id ""); [contradiction|reflexivity]. }
    destruct (commitBlock_rotates env txs b st k id Hnd Eid Hcur)
      as [Hids1 [Hcur1 _]].
    destruct (commitBlock_accounts env txs b st id Hin Hval Hid)
      as [Htot1 [Hep1 Hrep1]].
    destruct (IH (commitBlock env txs b st) st'
                ((k + 1) mod List.length (activeIds st))%nat
                (activeIds st) Hids1 Hnd Hnonempty)
      as [Hep [Htot [Hlen Hrep]]]; try assumption.
    + apply Nat.mod_upper_bound. lia.
    + rewrite Hep, Htot, Hlen, Hep1, Htot1, commitBlock_chain, length_app.
      cbn [List.length]. repeat split; try lia. auto.
Qed.

(** X18. The epoch and the validators' counters count the blocks.  Start
    from a store whose current authority is the first of its active
    validators, their ids distinct and not empty.  After N consecutive
    successful [addBlock] calls the chain is N blocks longer, the epoch has
    advanced by N, the [blocksValidated] counters of the node table add up
    to N more than before, and no reputation has moved above 100 if none
    was above 100. *)
Theorem blocks_are_counted `{Runtime}
    (calls : list (AddBlockEnv * list BlockchainTransaction))
    (st st' : Store) :
  NoDup (activeIds st) ->
  ~ In "" (activeIds st) ->
  activeIds st <> [] ->
  currentAuthority st = nth_error (activeIds st) 0 ->
  addBlocks calls st = Some st' ->
  c_epoch (getConsensusState st')
  = c_epoch (getConsensusState st) + Z.of_nat (List.length calls)
  /\ totalBlocksValidated st'
     = totalBlocksValidated st + Z.of_nat (List.length calls)
  /\ List.length (getBlockchain st')
     = (List.length (getBlockchain st) + List.length calls)%nat
  /\ (Forall (fun n => n_reputation n <= 100) (getNodes st) ->
      Forall (fun n => n_reputation n <= 100) (getNodes st')).
Proof.
  intros Hnd Hnonempty Hne Hcur Hrun.
  apply (addBlocks_accounts calls st st' 0%nat (activeIds st));
    try assumption; try reflexivity.
  destruct (activeIds st); [congruence|cbn; lia].
Qed.

Lemma blocks_are_counted_witness :
  exists st',
    @addBlocks demoRuntime demoCalls freshLedger = Some st'
    /\ c_epoch (getConsensusState st') = 4
    /\ totalBlocksValidated st' = 4
    /\ List.length (getBlockchain st') = 5%nat
    /\ (Forall (fun n => n_reputation n <= 100) (getNodes freshLedger) ->
        Forall (fun n => n_reputation n <= 100) (getNodes st')).
Proof.
  eexists. split; [vm_compute; reflexivity|].
  apply (@blocks_are_counted demoRuntime demoCalls freshLedger).
  - vm_compute. repeat constructor; cbn; intuition discriminate.
  - vm_compute. intuition discriminate.
  - vm_compute. discriminate.
  - reflexivity.
  - vm_compute. reflexivity.
Defined.

Lemma half_of_nodes (active total : nat) :
  Qltb (inject_Z (Z.of_nat active)) (inject_Z (Z.of_nat total) * (1 # 2)) = true
  <-> (2 * active < total)%nat.
Proof.
  unfold Qltb. rewrite negb_true_iff.
  destruct (Qle_bool (inject_Z (Z.of_nat total) * (1 # 2))
              (inject_Z (Z.of_nat active))) eqn:E.
  - apply Qle_bool_iff in E. unfold Qle, Qmult, inject_Z in E. cbn in E.
    split; [discriminate|]. lia.
  - split; [intros _|reflexivity].
    destruct (Nat.lt_ge_cases (2 * active) total) as [Hlt|Hge]; [assumption|].
    assert (Hle : (inject_Z (Z.of_nat total) * (1 # 2)
                   <= inject_Z (Z.of_nat active))%Q).
    { unfold Qle, Qmult, inject_Z. cbn. lia. }
    apply Qle_bool_iff in Hle. congruence.
Qed.

Lemma filter_length_implied {A : Type} (p q : A -> bool) (l : list A) :
  (forall x, p x = true -> q x = true) ->
  (List.length (filter p l) <= List.length (filter q l))%nat.
Proof.
  intros Hpq. induction l as [|x rest IH]; [reflexivity|].
  cbn [filter]. destruct (p x) eqn:Ep.
  - rewrite (Hpq x Ep). cbn [List.length]. lia.
  - destruct (q x); cbn [List.length]; lia.
Qed.

(** X19. The network health reading: the counts are ordered (active
    validators among active nodes among all nodes), and the health is
    critical exactly below 2 active validators, degraded exactly when there
    are at least 2 active validators and fewer than half of the nodes are
    active, and healthy otherwise. *)
Theorem network_health_thresholds (st : Store) :
  (ns_validators (getNetworkStatus st) <= ns_activeNodes (getNetworkStatus st)
   <= ns_totalNodes (getNetworkStatus st))%nat
  /\ ns_validators (getNetworkStatus st)
     = List.length (getActiveValidators st)
  /\ (ns_networkHealth (getNetworkStatus st) = Critical
      <-> (ns_validators (getNetworkStatus st) < 2)%nat)
  /\ (ns_networkHealth (getNetworkStatus st) = Degraded
      <-> (2 <= ns_validators (getNetworkStatus st))%nat
          /\ (2 * ns_activeNodes (getNetworkStatus st)
              < ns_totalNodes (getNetworkStatus st))%nat)
  /\ (ns_networkHealth (getNetworkStatus st) = Healthy
      <-> (2 <= ns_validators (getNetworkStatus st))%nat
          /\ (ns_totalNodes (getNetworkStatus st)
              <= 2 * ns_activeNodes (getNetworkStatus st))%nat).
Proof.
  unfold getNetworkStatus, getActiveValidators.
  cbn [ns_validators ns_activeNodes ns_totalNodes ns_networkHealth].
  set (nodes := getNodes st).
  set (validators := filter is_active_validator nodes).
  set (active := filter _ nodes).
  assert (Hva : (List.length validators <= List.length active)%nat).
  { apply filter_length_implied. intros x. unfold is_active_validator.
    destruct (n_type x), (n_status x); congruence. }
  assert (Han : (List.length active <= List.length nodes)%nat)
    by apply filter_length_le.
  split; [lia|]. split; [reflexivity|].
  pose proof (half_of_nodes (List.length active) (List.length nodes)) as Hhalf.
  destruct (Nat.ltb_spec (List.length validators) 2) as [Hfew|Henough].
  - repeat split; try discriminate; try lia; intros [? ?]; lia.
  - destruct (Qltb _ _) eqn:E.
    + assert (2 * List.length active < List.length nodes)%nat
        by now apply Hhalf.
      repeat split; try discriminate; try lia; intros [? ?]; lia.
    + assert (~ (2 * List.length active < List.length nodes)%nat).
      { intros Hlt. apply Hhalf in Hlt. congruence. }
      repeat split; try discriminate; try lia; intros [? ?]; lia.
Qed.

(** ** Facts about batch processing *)

Lemma update_first_unique (f : BlockchainTransaction -> BlockchainTransaction)
    (t : BlockchainTransaction) : forall pool,
  NoDup (map tx_id pool) ->
  In t pool ->
  exists pre post,
    pool = pre ++ t :: post
    /\ update_first (fun x => String.eqb (tx_id x) (tx_id t)) f pool
       = Some (pre ++ f t :: post).
Proof.
  induction pool as [|x rest IH]; intros Hnd Hin; [contradiction|].
  cbn [map] in Hnd. inversion Hnd as [|? ? Hnotin Hrest]; subst.
  cbn [update_first].
  destruct (String.eqb_spec (tx_id x) (tx_id t)) as [E|E].
  - destruct Hin as [->|Hin].
    + exists [], rest. split; reflexivity.
    + exfalso. apply Hnotin. rewrite E. now apply in_map.
  - destruct Hin as [->|Hin]; [congruence|].
    destruct (IH Hrest Hin) as [pre [post [-> Hup]]].
    exists (x :: pre), post. split; [reflexivity|]. now rewrite Hup.
Qed.

Lemma count_status_app s l1 l2 :
  count_status s (l1 ++ l2) = (count_status s l1 + count_status s l2)%nat.
Proof. unfold count_status. now rewrite filter_app, length_app. Qed.

Lemma mark_confirmed_unique bi g st t :
  NoDup (map tx_id (getTransactionPool st)) ->
  In t (getTransactionPool st) ->
  tx_status t = Pending ->
  map tx_id (getTransactionPool (markTransactionConfirmed (tx_id t) bi g st))
  = map tx_id (getTransactionPool st)
  /\ (count_status Pending
        (getTransactionPool (markTransactionConfirmed (tx_id t) bi g st)) + 1
      = count_status Pending (getTransactionPool st))%nat
  /\ (count_status Confirmed
        (getTransactionPool (markTransactionConfirmed (tx_id t) bi g st))
      = count_status Confirmed (getTransactionPool st) + 1)%nat
  /\ (forall u,
        In u (getTransactionPool st) ->
        tx_id u <> tx_id t ->
        In u (getTransactionPool (markTransactionConfirmed (tx_id t) bi g st))).
Proof.
  intros Hnd Hin Hpending. unfold markTransactionConfirmed.
  destruct (update_first_unique
              (fun x =>
                 mkTx (tx_id x) (tx_type x) (tx_from x) (tx_to x) (tx_data x)
                   (tx_timestamp x) (tx_signature x) Confirmed (tx_gasLimit x)
                   g (Some bi))
              t _ Hnd Hin) as [pre [post [Hpool ->]]].
  rewrite pool_set_pool, Hpool.
  rewrite !map_app, !count_status_app. cbn [map tx_id].
  unfold count_status at 2 4 6 8. cbn [filter tx_status]. rewrite Hpending.
  cbn [status_eqb List.length]. repeat split; try lia.
  intros u Hu Hne. apply in_app_or in Hu. apply in_or_app.
  destruct Hu as [Hu|[<-|Hu]]; [now left|congruence|right; now right].
Qed.

Lemma confirm_all_counts bi txs : forall st,
  NoDup (map tx_id (getTransactionPool st)) ->
  NoDup (map tx_id txs) ->
  (forall t, In t txs -> In t (getTransactionPool st) /\ tx_status t = Pending) ->
  let st' :=
    fold_left
      (fun s transaction =>
         markTransactionConfirmed (tx_id transaction) bi
           (z_or (tx_gasUsed transaction) 0) s)
      txs st in
  (count_status Pending (getTransactionPool st') + List.length txs
   = count_status Pending (getTransactionPool st))%nat
  /\ (count_status Confirmed (getTransactionPool st')
      = count_status Confirmed (getTransactionPool st) + List.length txs)%nat.
Proof.
  induction txs as [|t rest IH]; intros st Hnd Hids Hall; cbn [fold_left];
    cbv zeta.
  - cbn [List.length]. lia.
  - cbn [map] in Hids. inversion Hids as [|? ? Hnotin Hrest]; subst.
    destruct (Hall t (or_introl eq_refl)) as [Hin Hpending].
    destruct (mark_confirmed_unique bi (z_or (tx_gasUsed t) 0) st t
                Hnd Hin Hpending) as [Hmap [Hp [Hc Hkeep]]].
    destruct (IH (markTransactionConfirmed (tx_id t) bi
                    (z_or (tx_gasUsed t) 0) st)) as [IHp IHc].
    + now rewrite Hmap.
    + assumption.
    + intros u Hu. destruct (Hall u (or_intror Hu)) as [Huin Hup].
      split; [|assumption]. apply Hkeep; [assumption|].
      intros E. apply Hnotin. rewrite <- E. now apply in_map.
    + cbv zeta in IHp, IHc. cbn [List.length]. lia.
Qed.

Lemma filter_keeps_distinct_keys {A K : Type} (key : A -> K)
    (keep : A -> bool) : forall xs : list A,
  NoDup (map key xs) -> NoDup (map key (filter keep xs)).
Proof.
  induction xs as [|x rest IH]; intros Hnd; [constructor|].
  cbn [map] in Hnd. inversion Hnd as [|? ? Hnotin Hrest]; subst.
  cbn [filter]. destruct (keep x); [|now apply IH].
  cbn [map]. constructor; [|now apply IH].
  intros Hin. apply Hnotin. apply in_map_iff in Hin.
  destruct Hin as [y [Hy Hf]]. apply filter_In in Hf. rewrite <- Hy.
  apply in_map, Hf.
Qed.

Lemma NoDup_firstn {A : Type} (n : nat) (l : list A) :
  NoDup l -> NoDup (firstn n l).
Proof.
  intros Hnd. rewrite <- (firstn_skipn n l) in Hnd.
  eapply NoDup_app_remove_r; eauto.
Qed.

Lemma batch_ids_distinct st :
  NoDup (map tx_id (getTransactionPool st)) ->
  NoDup (map tx_id (getBatchForProcessing st)).
Proof.
  intros Hnd. unfold getBatchForProcessing.
  rewrite <- firstn_map. apply NoDup_firstn.
  eapply Permutation_NoDup.
  - apply Permutation_map, js_sort_perm.
  - unfold getPendingTransactions. now apply filter_keeps_distinct_keys.
Qed.

Lemma batch_members st t :
  In t (getBatchForProcessing st) ->
  In t (getTransactionPool st) /\ tx_status t = Pending.
Proof.
  unfold getBatchForProcessing. intros Ht. apply in_firstn in Ht.
  apply (Permutation_in _
           (Permutation_sym (js_sort_perm compareForBatch _))) in Ht.
  unfold getPendingTransactions in Ht.
  apply filter_In in Ht. destruct Ht as [Hin Hst]. split; [assumption|].
  destruct (tx_status t); try discriminate. reflexivity.
Qed.

Lemma batch_length st :
  List.length (getBatchForProcessing st) = Nat.min 10 (pendingCount st).
Proof.
  unfold getBatchForProcessing, pendingCount.
  rewrite length_firstn, <- (Permutation_length (js_sort_perm _ _)).
  reflexivity.
Qed.

Lemma addBlock_PoA_returns `{Runtime} env txs st :
  Produced (getBlockchain st) ->
  c_mechanism (getConsensusState st) = PoA ->
  exists block,
    addBlock env txs st = (Return block, commitBlock env txs block st).
Proof.
  intros Hp Hpoa.
  destruct (produced_invariant _ Hp) as [_ [prev [z [Htip Hz]]]].
  unfold addBlock. rewrite Htip.
  destruct (candidateBlock env txs prev (getConsensusState st)) as [nb| |]
    eqn:Ec.
  - rewrite (candidateBlock_validates _ _ _ _ _ _ Hz Ec). eauto.
  - unfold candidateBlock in Ec. rewrite Hpoa in Ec. discriminate.
  - unfold candidateBlock in Ec. rewrite Hpoa in Ec. discriminate.
Qed.

(** X20. Batch processing drains the pool ten at a time.  With nothing
    pending [processTransactionBatch] returns null and leaves the store as
    it is.  Otherwise, on a chain obtained from a genesis block by
    successful [addBlock] calls, under proof of authority and with distinct
    ids in the pool, it returns a block that carries the batch, and
    afterwards min(10, pending) fewer transactions are pending and as many
    more are confirmed. *)
Theorem batch_processing_drains_the_pool `{Runtime} (env : AddBlockEnv)
    (st : Store) :
  (pendingCount st = 0%nat ->
   processTransactionBatch env st = (Return None, st))
  /\ (Produced (getBlockchain st) ->
      c_mechanism (getConsensusState st) = PoA ->
      NoDup (map tx_id (getTransactionPool st)) ->
      (0 < pendingCount st)%nat ->
      exists block st',
        processTransactionBatch env st = (Return (Some block), st')
        /\ b_transactions block = Some (getBatchForProcessing st)
        /\ getBlockchain st' = getBlockchain st ++ [block]
        /\ (pendingCount st' + Nat.min 10 (pendingCount st)
            = pendingCount st)%nat
        /\ (count_status Confirmed (getTransactionPool st')
            = count_status Confirmed (getTransactionPool st)
              + Nat.min 10 (pendingCount st))%nat).
Proof.
  split.
  - intros Hnone. unfold processTransactionBatch.
    pose proof (batch_length st) as Hlen. rewrite Hnone in Hlen.
    destruct (getBatchForProcessing st); [reflexivity|discriminate].
  - intros Hp Hpoa Hnd Hsome.
    pose proof (batch_length st) as Hlen.
    destruct (addBlock_PoA_returns env (getBatchForProcessing st) st Hp Hpoa)
      as [block Hadd].
    exists block, (commitBlock env (getBatchForProcessing st) block st).
    split.
    + unfold processTransactionBatch.
      destruct (getBatchForProcessing st) as [|t rest] eqn:Eb.
      * cbn [List.length] in Hlen. lia.
      * now rewrite Hadd.
    + destruct (addBlock_confirmation _ _ _ _ _ Hadd) as [Htxs _].
      split; [assumption|]. split; [apply commitBlock_chain|].
      unfold commitBlock.
      set (st3 := rotateValidator _).
      assert (Hpool : getTransactionPool st3 = getTransactionPool st).
      { unfold getTransactionPool. subst st3. now rewrite commit_prefix_pool. }
      destruct (confirm_all_counts (b_index block) (getBatchForProcessing st)
                  st3) as [Hpend Hconf].
      * now rewrite Hpool.
      * now apply batch_ids_distinct.
      * intros t Ht. rewrite Hpool. now apply batch_members.
      * cbv zeta in Hpend, Hconf. rewrite Hpool, Hlen in *.
        unfold pendingCount, getPendingTransactions in *.
        unfold count_status in Hpend. split; [exact Hpend|exact Hconf].
Qed.

Lemma batch_processing_drains_the_pool_witness :
  exists block st',
    @processTransactionBatch demoRuntime (demoEnv 1700000003000)
      (backlogLedger 12)
    = (Return (Some block), st')
    /\ b_transactions block = Some (getBatchForProcessing (backlogLedger 12))
    /\ getBlockchain st' = getBlockchain (backlogLedger 12) ++ [block]
    /\ (pendingCount st' + Nat.min 10 (pendingCount (backlogLedger 12))
        = pendingCount (backlogLedger 12))%nat
    /\ (count_status Confirmed (getTransactionPool st')
        = count_status Confirmed (getTransactionPool (backlogLedger 12))
          + Nat.min 10 (pendingCount (backlogLedger 12)))%nat.
Proof.
  apply (proj2 (@batch_processing_drains_the_pool demoRuntime
                  (demoEnv 1700000003000) (backlogLedger 12))).
  - exact (@Produced_genesis demoRuntime 1700000000000 1700000000000).
  - reflexivity.
  - vm_compute. repeat constructor; cbn; intuition discriminate.
  - vm_compute. lia.
Defined.

(** ** The rule bodies: further checked properties *)

(** X21. The function that the stored vote-validation text defines, taken
    by itself (the service as deployed does not reach it, see X26).  It
    accepts a vote exactly when the voter is verified and active,
    [voter.hasVoted] gives nothing truthy under the election's id, the
    voter is eligible for the election, and the current time is neither
    before a valid start date nor after a valid end date, the two boundary
    instants included.  What [voter.hasVoted] gives includes the members
    every object inherits: for an election whose id is such a name, as
    'toString', a voter without an entry of their own counts as having
    voted.  The vote itself is not read: the answer is the same for every
    vote. *)
Theorem vote_validation_conditions (now : Z) (vote : Vote) (voter : Voter)
    (election : VoteElection) :
  (validateVote now vote voter election = Valid
   <-> vo_isVerified voter = true
       /\ vo_isActive voter = true
       /\ hasVotedIn voter (ve_id election) = false
       /\ In (ve_id election) (vo_eligibleElections voter)
       /\ (forall s, ve_startDate election = Some s -> s <= now)
       /\ (forall e, ve_endDate election = Some e -> now <= e))
  /\ (forall other,
        validateVote now other voter election
        = validateVote now vote voter election)
  /\ (vo_isVerified voter = false \/ vo_isActive voter = false ->
      validateVote now vote voter election
      = Invalid "Voter not verified or inactive")
  /\ (vo_isVerified voter = true ->
      vo_isActive voter = true ->
      inheritedMember (ve_id election) = true ->
      (forall voted, ~ In (ve_id election, voted) (vo_hasVoted voter)) ->
      validateVote now vote voter election
      = Invalid "Voter has already voted in this election").
Proof.
  split; [|split; [reflexivity|split]].
  - unfold validateVote.
    destruct (vo_isVerified voter), (vo_isActive voter); cbn [negb orb];
      try (split; [discriminate|intros [? [? _]]; discriminate]).
    destruct (hasVotedIn voter (ve_id election));
      try (split; [discriminate|intros [_ [_ [? _]]]; discriminate]).
    destruct (existsb _ _) eqn:Eel; cbn [negb].
    2: { split; [discriminate|]. intros [_ [_ [_ [Hin _]]]].
         assert (existsb (String.eqb (ve_id election))
                   (vo_eligibleElections voter) = true).
         { apply existsb_exists. exists (ve_id election).
           split; [assumption|apply String.eqb_refl]. }
         congruence. }
    apply existsb_exists in Eel. destruct Eel as [x [Hx Heq]].
    apply String.eqb_eq in Heq. subst x.
    destruct (ve_startDate election) as [s|], (ve_endDate election) as [e|].
    + destruct (Z.ltb_spec now s), (Z.ltb_spec e now); cbn [orb];
        (split; [try discriminate; intros _; repeat split; try assumption;
                 intros ? [= <-]; lia
                |try reflexivity; intros [_ [_ [_ [_ [Hs He]]]]];
                 specialize (Hs _ eq_refl); specialize (He _ eq_refl); lia]).
    + destruct (Z.ltb_spec now s); cbn [orb];
        (split; [try discriminate; intros _; repeat split; try assumption;
                 try (intros ? [= <-]; lia); intros ? [=]
                |try reflexivity; intros [_ [_ [_ [_ [Hs He]]]]];
                 specialize (Hs _ eq_refl); lia]).
    + destruct (Z.ltb_spec e now); cbn [orb];
        (split; [try discriminate; intros _; repeat split; try assumption;
                 try (intros ? [= <-]; lia); intros ? [=]
                |try reflexivity; intros [_ [_ [_ [_ [Hs He]]]]];
                 specialize (He _ eq_refl); lia]).
    + cbn [orb]. split; [|reflexivity]. intros _.
      repeat split; try assumption; intros ? [=].
  - unfold validateVote. intros [-> | ->]; cbn [negb orb]; [reflexivity|].
    now destruct (vo_isVerified voter).
  - intros Hv Ha Hinherited Hnone. unfold validateVote, hasVotedIn.
    rewrite Hv, Ha. cbn [negb orb].
    destruct (find _ (vo_hasVoted voter)) as [[k voted]|] eqn:Ef.
    + apply find_some in Ef. destruct Ef as [Hin Hk]. cbn [fst] in Hk.
      apply String.eqb_eq in Hk. subst k. now destruct (Hnone voted).
    + now rewrite Hinherited.
Qed.

Lemma obj_get_set_same (k : string) (v : Z) (o : list (string * Z)) :
  obj_get k (obj_set k v o) = Some v.
Proof.
  unfold obj_get. induction o as [|[k' v'] rest IH]; cbn [obj_set find fst].
  - now rewrite String.eqb_refl.
  - destruct (String.eqb k' k) eqn:E; cbn [find fst]; rewrite E;
      [reflexivity|assumption].
Qed.

Lemma obj_get_set_other (k k' : string) (v : Z) (o : list (string * Z)) :
  k <> k' -> obj_get k (obj_set k' v o) = obj_get k o.
Proof.
  intros Hne. unfold obj_get.
  induction o as [|[k0 v0] rest IH]; cbn [obj_set find fst].
  - destruct (String.eqb_spec k' k); [congruence|reflexivity].
  - destruct (String.eqb_spec k0 k') as [->|E0]; cbn [find fst].
    + destruct (String.eqb_spec k' k); [congruence|reflexivity].
    + destruct (String.eqb k0 k); [reflexivity|assumption].
Qed.

Lemma counts_start_at_zero (candidates : list Candidate) : forall o k,
  obj_get k (fold_left (fun o c => obj_set (ca_id c) 0 o) candidates o)
  = if existsb (String.eqb k) (map ca_id candidates) then Some 0
    else obj_get k o.
Proof.
  induction candidates as [|c rest IH]; intros o k; cbn [fold_left map existsb];
    [reflexivity|].
  rewrite IH. destruct (existsb _ _); cbn [orb].
  - now rewrite Bool.orb_true_r.
  - rewrite Bool.orb_false_r.
    destruct (String.eqb_spec k (ca_id c)) as [->|Hne].
    + apply obj_get_set_same.
    + now apply obj_get_set_other.
Qed.

Lemma counts_follow_votes (votes : list Vote) : forall o k,
  obj_get k
    (fold_left
       (fun o vote =>
          match obj_get (vt_candidateId vote) o with
          | Some n => obj_set (vt_candidateId vote) (n + 1) o
          | None => o
          end)
       votes o)
  = match obj_get k o with
    | Some n => Some (n + votesFor k votes)
    | None => None
    end.
Proof.
  unfold votesFor.
  induction votes as [|v rest IH]; intros o k; cbn [fold_left filter].
  - destruct (obj_get k o); [|reflexivity]. cbn. f_equal. lia.
  - rewrite IH.
    destruct (String.eqb_spec (vt_candidateId v) k) as [E|E].
    + rewrite E. destruct (obj_get k o) as [n|] eqn:Ek.
      * rewrite obj_get_set_same. cbn [List.length]. f_equal. lia.
      * now rewrite Ek.
    + destruct (obj_get (vt_candidateId v) o) as [n|]; [|reflexivity].
      rewrite obj_get_set_other by congruence. reflexivity.
Qed.

Lemma countFor_candidate votes candidates c :
  In c candidates ->
  countFor (countVotes votes candidates) (ca_id c) = votesFor (ca_id c) votes.
Proof.
  intros Hin. unfold countFor, countVotes.
  rewrite counts_follow_votes, counts_start_at_zero.
  assert (Hex : existsb (String.eqb (ca_id c)) (map ca_id candidates) = true).
  { apply existsb_exists. exists (ca_id c). split; [now apply in_map|].
    apply String.eqb_refl. }
  rewrite Hex. reflexivity.
Qed.

Lemma StronglySorted_weaken {A : Type} (R R' : A -> A -> Prop) (l : list A) :
  (forall a b, R a b -> R' a b) ->
  StronglySorted R l -> StronglySorted R' l.
Proof.
  intros Himp. induction l as [|x rest IH]; intros Hs; [constructor|].
  inversion Hs as [|? ? Hrest Hall]; subst.
  constructor; [now apply IH|].
  rewrite Forall_forall in *. auto.
Qed.

(** The head of the array that [sort((a, b) => key(b) - key(a))] leaves is
    the first element that carries the largest key. *)
Lemma sorted_head_is_first_maximum {A : Type} (key : A -> Z) (l : list A) :
  forall w,
    hd_error (js_sort (fun a b => key b - key a) l) = Some w ->
    exists pre post,
      l = pre ++ w :: post
      /\ (forall p, In p pre -> key p < key w)
      /\ (forall q, In q post -> key q <= key w).
Proof.
  induction l as [|x rest IH]; intros w Hw; [discriminate|].
  cbn [js_sort] in Hw.
  destruct (js_sort (fun a b => key b - key a) rest) as [|y sorted] eqn:Es.
  - assert (rest = []).
    { pose proof (Permutation_length
                    (js_sort_perm (fun a b => key b - key a) rest)) as Hl.
      rewrite Es in Hl. now apply length_zero_iff_nil. }
    subst rest. cbn in Hw. injection Hw as <-.
    exists [], []. repeat split; intros ? [].
  - destruct (IH y eq_refl) as [pre [post [Hrest [Hpre Hpost]]]].
    cbn [js_insert] in Hw.
    destruct (Z.ltb_spec 0 (key y - key x)) as [Hgt|Hle].
    + cbn in Hw. injection Hw as <-.
      exists (x :: pre), post. rewrite Hrest. split; [reflexivity|].
      split; [|assumption]. intros p [<-|Hp]; [lia|now apply Hpre].
    + cbn in Hw. injection Hw as <-.
      exists [], rest. split; [reflexivity|]. split; [intros ? []|].
      intros q Hq. rewrite Hrest in Hq. apply in_app_or in Hq.
      destruct Hq as [Hq|[<-|Hq]].
      * specialize (Hpre q Hq). lia.
      * lia.
      * specialize (Hpost q Hq). lia.
Qed.

(** X22. The function that the stored result-calculation text defines,
    taken by itself (the service as deployed does not reach it, see X26),
    for candidates none of whom has the id '__proto__', under which an
    object stores no count.  It counts each vote once.  The total
    is the number of votes; there is one result per candidate; a
    candidate's vote count is the number of votes cast for its id, and its
    percentage that count over the total times 100 (0 without votes), so
    votes for an id that is not a candidate's count in the total and in no
    tally.  The results are in descending order of vote count, and the
    winner is the first candidate, in the order given, that has the
    largest count; there is no winner exactly when there is no candidate. *)
Theorem tally_counts_each_vote_once (votes : list Vote)
    (candidates : list Candidate) :
  ~ In "__proto__" (map ca_id candidates) ->
  er_totalVotes (calculateResults votes candidates) = List.length votes
  /\ Permutation
       (map r_candidateId (er_results (calculateResults votes candidates)))
       (map ca_id candidates)
  /\ (forall res,
        In res (er_results (calculateResults votes candidates)) ->
        r_voteCount res = votesFor (r_candidateId res) votes
        /\ r_percentage res
           = if (0 <? List.length votes)%nat
             then (inject_Z (votesFor (r_candidateId res) votes)
                   / inject_Z (Z.of_nat (List.length votes)) * 100)%Q
             else 0%Q)
  /\ StronglySorted (fun a b => r_voteCount b <= r_voteCount a)
       (er_results (calculateResults votes candidates))
  /\ er_winner (calculateResults votes candidates)
     = hd_error (er_results (calculateResults votes candidates))
  /\ (er_winner (calculateResults votes candidates) = None
      <-> candidates = [])
  /\ (forall w,
        er_winner (calculateResults votes candidates) = Some w ->
        exists before c after,
          candidates = before ++ c :: after
          /\ r_candidateId w = ca_id c
          /\ r_candidateName w = ca_name c
          /\ r_voteCount w = votesFor (ca_id c) votes
          /\ (forall p, In p before ->
                        votesFor (ca_id p) votes < votesFor (ca_id c) votes)
          /\ (forall q, In q after ->
                        votesFor (ca_id q) votes <= votesFor (ca_id c) votes)).
Proof.
  intros _.
  unfold calculateResults. cbn [er_totalVotes er_results er_winner].
  set (mk := fun candidate : Candidate =>
               mkResult (ca_id candidate) (ca_name candidate)
                 (ca_party candidate)
                 (countFor (countVotes votes candidates) (ca_id candidate))
                 (if (0 <? List.length votes)%nat
                  then (inject_Z
                          (countFor (countVotes votes candidates)
                             (ca_id candidate))
                        / inject_Z (Z.of_nat (List.length votes)) * 100)%Q
                  else 0%Q)).
  set (cmp := fun a b : CandidateResult => r_voteCount b - r_voteCount a).
  assert (Hperm : Permutation (map mk candidates)
                    (js_sort cmp (map mk candidates)))
    by apply js_sort_perm.
  assert (Hmk : forall c, In c candidates ->
                  r_voteCount (mk c) = votesFor (ca_id c) votes).
  { intros c Hc. unfold mk. cbn [r_voteCount]. now apply countFor_candidate. }
  split; [reflexivity|]. split; [|split; [|split; [|split; [|split]]]].
  - rewrite <- (Permutation_map r_candidateId Hperm), map_map.
    unfold mk. cbn [r_candidateId]. reflexivity.
  - intros res Hres.
    apply (Permutation_in _ (Permutation_sym Hperm)) in Hres.
    apply in_map_iff in Hres. destruct Hres as [c [<- Hc]].
    split; [now apply Hmk|].
    unfold mk. cbn [r_percentage r_candidateId].
    now rewrite (countFor_candidate votes candidates c Hc).
  - assert (Hs : StronglySorted (fun a b => cmp a b <= 0)
                   (js_sort cmp (map mk candidates))).
    { apply js_sort_sorted; unfold cmp; intros; lia. }
    revert Hs. apply StronglySorted_weaken. unfold cmp. intros; lia.
  - reflexivity.
  - pose proof (Permutation_length Hperm) as Hl. rewrite length_map in Hl.
    destruct (js_sort cmp (map mk candidates)) as [|w rest];
      destruct candidates; cbn in *; split; congruence.
  - intros w Hw.
    destruct (sorted_head_is_first_maximum r_voteCount (map mk candidates) w Hw)
      as [pre [post [Hsplit [Hpre Hpost]]]].
    apply map_eq_app in Hsplit.
    destruct Hsplit as [before [rest [Hc [Hb Hrest]]]].
    apply map_eq_cons in Hrest.
    destruct Hrest as [c [after [Hrest [Hw' Ha]]]].
    subst candidates rest pre post w.
    exists before, c, after. split; [reflexivity|].
    repeat split.
    + apply Hmk. apply in_or_app. right. now left.
    + intros p Hp. rewrite <- !Hmk.
      * apply Hpre. now apply in_map.
      * apply in_or_app. right. now left.
      * apply in_or_app. now left.
    + intros q Hq. rewrite <- !Hmk.
      * apply Hpost. now apply in_map.
      * apply in_or_app. right. now left.
      * apply in_or_app. right. now right.
Qed.

Lemma tally_counts_each_vote_once_witness :
  er_totalVotes (calculateResults demoVotes demoCandidates) = 5%nat
  /\ StronglySorted (fun a b => r_voteCount b <= r_voteCount a)
       (er_results (calculateResults demoVotes demoCandidates)).
Proof.
  pose proof (tally_counts_each_vote_once demoVotes demoCandidates) as H.
  assert (Hids : ~ In "__proto__" (map ca_id demoCandidates)).
  { cbn. intros [H1|[H1|[H1|[]]]]; discriminate H1. }
  destruct (H Hids) as [Htotal [_ [_ [Hsorted _]]]].
  split; [exact Htotal|exact Hsorted].
Defined.

(** The tally on a small election: two votes each for the first two
    candidates, one vote for an unknown id. *)
Example tally_of_demo_votes :
  map (fun r => (r_candidateId r, r_voteCount r))
    (er_results (calculateResults demoVotes demoCandidates))
  = [("c-1", 2); ("c-2", 2); ("c-3", 0)]
  /\ er_totalVotes (calculateResults demoVotes demoCandidates) = 5%nat
  /\ option_map r_candidateName
       (er_winner (calculateResults demoVotes demoCandidates))
     = Some "Ada".
Proof. repeat split. Qed.

(** ** The contract table: checked properties *)

Lemma sum_from (g : SmartContract -> Z) (l : list SmartContract) : forall a,
  fold_left (fun total c => total + g c) l a
  = a + fold_left (fun total c => total + g c) l 0.
Proof.
  induction l as [|x rest IH]; intros a; cbn [fold_left]; [lia|].
  rewrite (IH (a + g x)), (IH (0 + g x)). lia.
Qed.

Lemma replace_found (p : SmartContract -> bool) (c' : SmartContract) :
  forall l c,
    find p l = Some c ->
    exists pre post,
      l = pre ++ c :: post
      /\ update_first p (fun _ => c') l = Some (pre ++ c' :: post)
      /\ find p pre = None.
Proof.
  induction l as [|x rest IH]; intros c Hfind; cbn [find] in Hfind;
    [discriminate|].
  cbn [update_first]. destruct (p x) eqn:Ep.
  - injection Hfind as <-. exists [], rest. repeat split.
  - destruct (IH c Hfind) as [pre [post [-> [Hup Hpre]]]].
    exists (x :: pre), post. rewrite Hup. repeat split.
    cbn [find]. now rewrite Ep.
Qed.

Lemma find_in_split {A : Type} (p : A -> bool) (pre post : list A) (x : A) :
  find p pre = None ->
  find p (pre ++ x :: post)
  = if p x then Some x else find p post.
Proof.
  intros Hpre. induction pre as [|y rest IH]; [reflexivity|].
  cbn [app find] in *. destruct (p y); [discriminate|]. now apply IH.
Qed.

Lemma executeContract_returned `{RuleEngine} id args now cs value cs' :
  executeContract id args now cs = (Return value, cs') ->
  exists c pre post,
    getContract id cs = Some c
    /\ sc_isActive c = true
    /\ runCode (sc_code c) now args = Return value
    /\ getAllContracts cs = pre ++ c :: post
    /\ find (fun x => String.eqb (sc_id x) id) pre = None
    /\ cs' = Some
         (pre
          ++ mkContract (sc_id c) (sc_name c) (sc_type c) (sc_code c)
               (sc_deployedBy c) (sc_parameters c) (sc_deployedAt c)
               (sc_executionCount c + 1) (sc_isActive c) (Some now)
          :: post).
Proof.
  unfold executeContract. intros Hex.
  destruct (getContract id cs) as [c|] eqn:Eg; [|discriminate].
  destruct (sc_isActive c) eqn:Ea; cbn [negb] in Hex; [|discriminate].
  destruct (runCode (sc_code c) now args) as [v| |] eqn:Er; try discriminate.
  injection Hex as <- <-.
  assert (Hid : sc_id c = id).
  { unfold getContract in Eg. apply find_some in Eg.
    now apply String.eqb_eq. }
  subst id. unfold getContract in Eg.
  destruct (replace_found (fun x => String.eqb (sc_id x) (sc_id c))
              (mkContract (sc_id c) (sc_name c) (sc_type c) (sc_code c)
                 (sc_deployedBy c) (sc_parameters c) (sc_deployedAt c)
                 (sc_executionCount c + 1) true (Some now))
              _ c Eg) as [pre [post [Hsplit [Hup Hpre]]]].
  exists c, pre, post. repeat split; try assumption.
  unfold updateContract. cbn [sc_id]. rewrite Ea, Hup. reflexivity.
Qed.

(** X23. [executeContract] counts successful runs only.  When it returns a
    value, the contract found under the id was active, its execution count
    is one more and its last-executed time is the clock of the call, every
    other lookup is unchanged, and the table's total of executions is one
    more.  In every other case (unknown id, inactive contract, a body that
    fails) the table is left as it is. *)
Theorem execution_is_counted_on_success `{RuleEngine} (contractId : string)
    (args : list RuleArg) (now : Z) (cs : ContractStore) :
  (forall value cs',
     executeContract contractId args now cs = (Return value, cs') ->
     exists c,
       getContract contractId cs = Some c
       /\ sc_isActive c = true
       /\ getContract contractId cs'
          = Some
              (mkContract (sc_id c) (sc_name c) (sc_type c) (sc_code c)
                 (sc_deployedBy c) (sc_parameters c) (sc_deployedAt c)
                 (sc_executionCount c + 1) true (Some now))
       /\ (forall other,
             other <> contractId ->
             getContract other cs' = getContract other cs)
       /\ cm_totalExecutions (getContractMetrics cs')
          = cm_totalExecutions (getContractMetrics cs) + 1
       /\ cm_totalContracts (getContractMetrics cs')
          = cm_totalContracts (getContractMetrics cs))
  /\ (returned (fst (executeContract contractId args now cs)) = false ->
      snd (executeContract contractId args now cs) = cs)
  /\ (getContract contractId cs = None ->
      executeContract contractId args now cs = (Throw "Contract not found", cs)).
Proof.
  split; [|split].
  - intros value cs' Hex.
    destruct (executeContract_returned _ _ _ _ _ _ Hex)
      as [c [pre [post [Hg [Ha [_ [Hsplit [Hpre ->]]]]]]]].
    assert (Hid : sc_id c = contractId).
    { unfold getContract in Hg. apply find_some in Hg.
      now apply String.eqb_eq. }
    exists c. rewrite Ha. repeat split; try assumption.
    + unfold getContract. cbn [getAllContracts].
      rewrite find_in_split by assumption. cbn [sc_id].
      now rewrite Hid, String.eqb_refl.
    + intros other Hother. unfold getContract. cbn [getAllContracts].
      rewrite Hsplit, !find_app. cbn [find sc_id].
      destruct (find (fun x => String.eqb (sc_id x) other) pre);
        [reflexivity|].
      destruct (String.eqb_spec (sc_id c) other); [congruence|reflexivity].
    + unfold getContractMetrics. cbn [cm_totalExecutions getAllContracts].
      rewrite Hsplit, !fold_left_app. cbn [fold_left sc_executionCount].
      rewrite (sum_from sc_executionCount post
                 (fold_left (fun total c0 => total + sc_executionCount c0) pre 0
                  + (sc_executionCount c + 1))).
      rewrite (sum_from sc_executionCount post
                 (fold_left (fun total c0 => total + sc_executionCount c0) pre 0
                  + sc_executionCount c)).
      lia.
    + unfold getContractMetrics. cbn [cm_totalContracts getAllContracts].
      rewrite Hsplit, !length_app. reflexivity.
  - unfold executeContract.
    destruct (getContract contractId cs) as [c|]; [|reflexivity].
    destruct (sc_isActive c); cbn [negb]; [|reflexivity].
    destruct (runCode _ _ _); cbn [fst snd returned]; try reflexivity.
    discriminate.
  - intros Hnone. unfold executeContract. now rewrite Hnone.
Qed.

Lemma replace_with_itself (p : SmartContract -> bool) :
  forall l c,
    find p l = Some c ->
    update_first p (fun _ => c) l = Some l.
Proof.
  induction l as [|x rest IH]; intros c Hfind; cbn [find] in Hfind;
    [discriminate|].
  cbn [update_first]. destruct (p x).
  - now injection Hfind as <-.
  - now rewrite (IH c Hfind).
Qed.

Lemma active_count_split (pre post : list SmartContract) (c : SmartContract) :
  List.length (filter sc_isActive (pre ++ c :: post))
  = (List.length (filter sc_isActive pre)
     + (if sc_isActive c then 1 else 0)
     + List.length (filter sc_isActive post))%nat.
Proof.
  rewrite filter_app, length_app. cbn [filter].
  destruct (sc_isActive c); cbn [List.length]; lia.
Qed.

(** X24. [deactivateContract] switches off the contract found under the id
    and nothing else: the lookup then shows the same contract with
    [isActive] false, [executeContract] on the id throws
    ['Contract is not active'] and leaves the table as it is, every other
    lookup and the total of executions are unchanged, a second deactivation
    changes nothing, and the number of active contracts drops by one when
    the contract was active. *)
Theorem deactivated_contract_cannot_run `{RuleEngine} (contractId : string)
    (cs : ContractStore) (c : SmartContract) (args : list RuleArg) (now : Z) :
  getContract contractId cs = Some c ->
  getContract contractId (deactivateContract contractId cs)
  = Some
      (mkContract (sc_id c) (sc_name c) (sc_type c) (sc_code c)
         (sc_deployedBy c) (sc_parameters c) (sc_deployedAt c)
         (sc_executionCount c) false (sc_lastExecuted c))
  /\ executeContract contractId args now (deactivateContract contractId cs)
     = (Throw "Contract is not active", deactivateContract contractId cs)
  /\ (forall other,
        other <> contractId ->
        getContract other (deactivateContract contractId cs)
        = getContract other cs)
  /\ deactivateContract contractId (deactivateContract contractId cs)
     = deactivateContract contractId cs
  /\ cm_totalExecutions (getContractMetrics (deactivateContract contractId cs))
     = cm_totalExecutions (getContractMetrics cs)
  /\ (sc_isActive c = true ->
      S (cm_activeContracts
           (getContractMetrics (deactivateContract contractId cs)))
      = cm_activeContracts (getContractMetrics cs)).
Proof.
  intros Hg.
  assert (Hid : sc_id c = contractId).
  { unfold getContract in Hg. apply find_some in Hg. now apply String.eqb_eq. }
  subst contractId.
  set (c' := mkContract (sc_id c) (sc_name c) (sc_type c) (sc_code c)
               (sc_deployedBy c) (sc_parameters c) (sc_deployedAt c)
               (sc_executionCount c) false (sc_lastExecuted c)).
  destruct (replace_found (fun x => String.eqb (sc_id x) (sc_id c)) c' _ c Hg)
    as [pre [post [Hsplit [Hup Hpre]]]].
  assert (Hde : deactivateContract (sc_id c) cs = Some (pre ++ c' :: post)).
  { unfold deactivateContract. rewrite Hg. unfold updateContract.
    cbn [sc_id]. fold c'. now rewrite Hup. }
  assert (Hfound : getContract (sc_id c) (Some (pre ++ c' :: post)) = Some c').
  { unfold getContract. cbn [getAllContracts].
    rewrite find_in_split by assumption.
    subst c'. cbn [sc_id]. now rewrite String.eqb_refl. }
  rewrite Hde.
  split; [exact Hfound|].
  split; [unfold executeContract; rewrite Hfound; reflexivity|].
  split.
  { intros other Hother. unfold getContract. cbn [getAllContracts].
    rewrite Hsplit, !find_app. cbn [find]. subst c'. cbn [sc_id].
    destruct (find (fun x => String.eqb (sc_id x) other) pre);
      [reflexivity|].
    destruct (String.eqb_spec (sc_id c) other); [congruence|reflexivity]. }
  split.
  { unfold deactivateContract. rewrite Hfound. unfold updateContract.
    subst c'. cbn [sc_id sc_name sc_type sc_code sc_deployedBy sc_parameters
                   sc_deployedAt sc_executionCount sc_lastExecuted].
    cbn [getAllContracts].
    unfold getContract in Hfound. cbn [getAllContracts sc_id] in Hfound.
    now rewrite (replace_with_itself _ _ _ Hfound). }
  split.
  { unfold getContractMetrics. cbn [cm_totalExecutions getAllContracts].
    rewrite Hsplit, !fold_left_app. cbn [fold_left]. subst c'.
    cbn [sc_executionCount]. reflexivity. }
  intros Ha. unfold getContractMetrics.
  cbn [cm_activeContracts getAllContracts].
  rewrite Hsplit, !active_count_split. subst c'. cbn [sc_isActive].
  rewrite Ha. lia.
Qed.

Lemma deactivated_contract_cannot_run_witness :
  @executeContract demoEngine "contract-0" [ArgElection demoElection]
    1700000005000 (deactivateContract "contract-0" defaultContracts)
  = (Throw "Contract is not active",
     deactivateContract "contract-0" defaultContracts).
Proof.
  refine (proj1 (proj2
    (@deactivated_contract_cannot_run demoEngine "contract-0"
       defaultContracts
       (mkContract "contract-0" "Election Validation Rules" "election_rules"
          electionRulesCode "system"
          [("minCandidates", 2); ("maxDurationDays", 365)]
          1700000000000 0 true None)
       [ArgElection demoElection] 1700000005000 _))).
  vm_compute. reflexivity.
Defined.

(** X25. [validateElection] never throws: whatever the table holds and
    whatever the rule body does, a failure on the way (no active
    [election_rules] contract, or a body that throws) comes back as the
    answer [{ valid: false, reason: 'Validation failed' }], with the table
    unchanged. *)
Theorem election_validation_never_throws `{RuleEngine} (election : Election)
    (candidates : list string) (now : Z) (cs : ContractStore) :
  (forall message,
     fst (validateElection election candidates now cs) <> Throw message)
  /\ (find (fun c => String.eqb (sc_type c) "election_rules" && sc_isActive c)
        (getAllContracts cs) = None ->
      validateElection election candidates now cs
      = (Return (ValValidation (Invalid "Validation failed")), cs))
  /\ (forall answer cs',
        validateElection election candidates now cs = (Return answer, cs') ->
        answer = ValValidation (Invalid "Validation failed") /\ cs' = cs
        \/ exists c,
             In c (getAllContracts cs)
             /\ sc_type c = "election_rules"
             /\ sc_isActive c = true
             /\ executeContract (sc_id c)
                  [ArgElection (withCandidates election candidates)] now cs
                = (Return answer, cs')).
Proof.
  unfold validateElection, executeContractByType.
  split; [|split].
  - intros message.
    destruct (find _ (getAllContracts cs)) as [c|]; [|discriminate].
    destruct (executeContract _ _ _ _) as [[v|m|] cs']; discriminate.
  - intros ->. reflexivity.
  - intros answer cs'.
    destruct (find _ (getAllContracts cs)) as [c|] eqn:Ef.
    + apply find_some in Ef. destruct Ef as [Hin Hc].
      apply andb_true_iff in Hc. destruct Hc as [Ht Ha].
      apply String.eqb_eq in Ht.
      destruct (executeContract _ _ _ _) as [[v|m|] cs1] eqn:Ex;
        intros Heq; try discriminate.
      * injection Heq as <- <-. right. exists c. auto.
      * injection Heq as <- <-. left. split; [reflexivity|].
        unfold executeContract in Ex.
        destruct (getContract (sc_id c) cs) as [c1|]; [|now injection Ex].
        destruct (negb (sc_isActive c1)); [now injection Ex|].
        destruct (runCode _ _ _); try discriminate. now injection Ex.
    + intros Heq. injection Heq as <- <-. now left.
Qed.

(** X26. On an empty table [deployDefaultContracts] stores the three
    built-in contracts, all active and never executed; on a table that
    holds a contract it does nothing, so a second call changes nothing.
    Each of the three stored texts opens with a line break, so the
    service's evaluator runs none of them: executing under any id throws
    and leaves the table as it is, [validateVote] answers
    [{ valid: false, reason: 'Validation failed' }] for every vote, voter
    and election, and [calculateElectionResults] throws for every list of
    votes and candidates. *)
Theorem default_contracts_are_stored_and_never_run (others : RuleEngine)
    (uuid : nat -> string) (deployed : Z) (cs : ContractStore) :
  getAllContracts cs = [] ->
  let defaults := deployDefaultContracts uuid deployed cs in
  map sc_type (getAllContracts defaults)
  = ["election_rules"; "voting_validation"; "result_calculation"]
  /\ map sc_id (getAllContracts defaults) = [uuid 0%nat; uuid 1%nat; uuid 2%nat]
  /\ cm_activeContracts (getContractMetrics defaults) = 3%nat
  /\ cm_totalExecutions (getContractMetrics defaults) = 0
  /\ (forall uuid' deployed',
        deployDefaultContracts uuid' deployed' defaults = defaults)
  /\ Forall (fun c => returnsNothing (sc_code c) = true)
       (getAllContracts defaults)
  /\ (forall contractId args now,
        exists message,
          @executeContract (newFunction others) contractId args now defaults
          = (Throw message, defaults))
  /\ (forall vote voter election now,
        @validateVoteByContract (newFunction others) vote voter election now
          defaults
        = (Return (ValValidation (Invalid "Validation failed")), defaults))
  /\ (forall votes candidates now,
        exists message,
          @calculateElectionResults (newFunction others) votes candidates now
            defaults
          = (Throw message, defaults)).
Proof.
  intros Hempty defaults.
  pose proof (default_table_is_dead uuid deployed cs Hempty) as Hdead.
  fold defaults in Hdead.
  assert (Hdef := default_table uuid deployed cs Hempty). fold defaults in Hdef.
  split; [now rewrite Hdef|]. split; [now rewrite Hdef|].
  split; [now rewrite Hdef|]. split; [now rewrite Hdef|].
  split; [intros uuid' deployed'; now rewrite Hdef|].
  split.
  { revert Hdead. apply Forall_impl. now intros c [_ Hr]. }
  split; [intros contractId args now; now apply dead_text_throws|].
  split.
  - intros vote voter election now. unfold validateVoteByContract.
    destruct (dead_type_throws others defaults "voting_validation"
                [ArgVote vote; ArgVoter voter; ArgVoteElection election] now
                Hdead) as [message ->].
    reflexivity.
  - intros votes candidates now. unfold calculateElectionResults.
    now apply dead_type_throws.
Qed.

Lemma default_contracts_are_stored_and_never_run_witness :
  @validateVoteByContract demoEngine (mkVote "c-1")
    (mkVoter true true [] ["e-1"]) (mkVoteElection "e-1" None None)
    1700000005000 defaultContracts
  = (Return (ValValidation (Invalid "Validation failed")), defaultContracts).
Proof.
  pose proof (default_contracts_are_stored_and_never_run noOtherText
                demoContractId 1700000000000 None eq_refl) as H.
  cbv zeta in H.
  exact (proj1 (proj2 (proj2 (proj2 (proj2 (proj2 (proj2 (proj2 H)))))))
           (mkVote "c-1") (mkVoter true true [] ["e-1"])
           (mkVoteElection "e-1" None None) 1700000005000).
Defined.

(** ** Monitoring: checked properties *)

Lemma keep_last_app {A : Type} (n : nat) (l r : list A) :
  skipn (List.length (skipn (List.length l - n) l ++ r) - n)
    (skipn (List.length l - n) l ++ r)
  = skipn (List.length (l ++ r) - n) (l ++ r).
Proof.
  destruct (Nat.le_gt_cases (List.length l) n) as [Hle|Hgt].
  - replace (List.length l - n)%nat with 0%nat by lia. reflexivity.
  - rewrite !length_app, length_skipn.
    replace (List.length l - (List.length l - n) + List.length r - n)%nat
      with (List.length r) by lia.
    replace (List.length l + List.length r - n)%nat
      with ((List.length l - n) + List.length r)%nat by lia.
    rewrite Nat.add_comm, <- skipn_skipn.
    f_equal. rewrite skipn_app.
    replace (List.length l - n - List.length l)%nat with 0%nat by lia.
    reflexivity.
Qed.

Lemma collectMetrics_stored `{Runtime} now st history :
  (List.length (storedHistory history) <= 1000)%nat ->
  storedHistory (collectMetrics now st history)
  = skipn (List.length (storedHistory history ++ [getRealtimeMetrics now st])
           - 1000)
      (storedHistory history ++ [getRealtimeMetrics now st]).
Proof.
  intros Hlen. unfold collectMetrics. cbv zeta. cbn [storedHistory].
  fold (storedHistory history).
  set (h := storedHistory history ++ [getRealtimeMetrics now st]).
  assert (Hh : List.length h = S (List.length (storedHistory history))).
  { subst h. rewrite length_app. cbn [List.length]. lia. }
  destruct (Nat.ltb_spec 1000 (List.length h)) as [Hover|Hfits].
  - replace (List.length h - 1000)%nat with 1%nat by lia.
    now destruct h.
  - replace (List.length h - 1000)%nat with 0%nat by lia. reflexivity.
Qed.

Lemma skipn_keeps_at_most {A : Type} (n : nat) (l : list A) :
  (List.length (skipn (List.length l - n) l) <= n)%nat.
Proof. rewrite length_skipn. lia. Qed.

Lemma collectAll_stored `{Runtime} (samples : list (Z * Store)) :
  forall history,
    (List.length (storedHistory history) <= 1000)%nat ->
    storedHistory (collectAll samples history)
    = skipn
        (List.length (storedHistory history ++ metricsOf samples) - 1000)
        (storedHistory history ++ metricsOf samples).
Proof.
  induction samples as [|[now st] later IH]; intros history Hlen.
  - cbn [collectAll metricsOf map]. rewrite app_nil_r.
    replace (List.length (storedHistory history) - 1000)%nat with 0%nat by lia.
    reflexivity.
  - cbn [collectAll]. rewrite IH.
    + rewrite collectMetrics_stored by assumption.
      rewrite keep_last_app. unfold metricsOf. cbn [map fst snd].
      now rewrite <- app_assoc.
    + rewrite collectMetrics_stored by assumption.
      apply skipn_keeps_at_most.
Qed.

(** X27. The metrics history is a queue of at most 1000 entries: after any
    number of [collectMetrics] calls on a stored history of at most 1000
    entries, the stored history is the last 1000 of the old entries
    followed by the metrics read at the calls, in order; it never holds
    more than 1000 entries, and the newest entry is the last one.
    [getHistoricalMetrics] selects by the time of the last block, not of
    the collection: an entry is returned when its [lastBlockTime] is after
    the cutoff. *)
Theorem metrics_history_keeps_the_last_1000 `{Runtime}
    (samples : list (Z * Store)) (history : MetricsHistory) :
  (List.length (storedHistory history) <= 1000)%nat ->
  storedHistory (collectAll samples history)
  = skipn (List.length (storedHistory history ++ metricsOf samples) - 1000)
      (storedHistory history ++ metricsOf samples)
  /\ (List.length (storedHistory (collectAll samples history)) <= 1000)%nat
  /\ (forall now st,
        last (storedHistory (collectMetrics now st (collectAll samples history)))
          (getRealtimeMetrics now st)
        = getRealtimeMetrics now st
        /\ collectMetrics now st (collectAll samples history) <> None)
  /\ (forall hours now m,
        In m (getHistoricalMetrics hours now (collectAll samples history))
        <-> In m (storedHistory (collectAll samples history))
            /\ now - hours * 60 * 60 * 1000 < m_lastBlockTime m).
Proof.
  intros Hlen.
  assert (Hstored := collectAll_stored samples history Hlen).
  assert (Hbound :
    (List.length (storedHistory (collectAll samples history)) <= 1000)%nat).
  { rewrite Hstored. apply skipn_keeps_at_most. }
  split; [exact Hstored|]. split; [exact Hbound|]. split.
  - intros now st. split; [|discriminate].
    rewrite collectMetrics_stored by assumption.
    set (h := storedHistory (collectAll samples history)) in *.
    destruct (Nat.le_gt_cases (List.length h) 999) as [Hle|Hgt].
    + replace (List.length (h ++ [getRealtimeMetrics now st]) - 1000)%nat
        with 0%nat by (rewrite length_app; cbn [List.length]; lia).
      cbn [skipn]. apply last_last.
    + replace (List.length (h ++ [getRealtimeMetrics now st]) - 1000)%nat
        with 1%nat by (rewrite length_app; cbn [List.length]; lia).
      destruct h as [|x rest]; [cbn [List.length] in Hgt; lia|].
      cbn [app skipn]. apply last_last.
  - intros hours now m. unfold getHistoricalMetrics. cbv zeta.
    fold (storedHistory (collectAll samples history)).
    rewrite filter_In, Z.ltb_lt. reflexivity.
Qed.

Lemma metrics_history_keeps_the_last_1000_witness :
  Nat.le
    (List.length
       (storedHistory
          (@collectAll demoRuntime
             [(1700000001000, freshLedger); (1700000002000, freshLedger)]
             None)))
    1000%nat.
Proof.
  refine (proj1 (proj2
    (@metrics_history_keeps_the_last_1000 demoRuntime
       [(1700000001000, freshLedger); (1700000002000, freshLedger)] None _))).
  cbn [storedHistory List.length]. lia.
Defined.

Ltac prune :=
  lazy beta iota zeta delta [negb orb overall issues recommendations app].

Lemma health_table `{Runtime} (metrics : BlockchainMetrics) :
  overall (healthOfMetrics metrics)
  = (if negb (m_chainValidity metrics)
        || match m_consensusHealth metrics with Critical => true | _ => false end
        || Qgtb (m_averageBlockTime metrics) blockTimeCritical
     then OverallCritical
     else if (pendingTransactionsCritical <? m_pendingTransactions metrics)%nat
             || Qgtb (m_averageBlockTime metrics) blockTimeWarning
             || (m_activeNodes metrics <? 3)%nat
     then OverallWarning
     else OverallHealthy)
  /\ List.length (issues (healthOfMetrics metrics))
     = ((if negb (m_chainValidity metrics) then 1 else 0)
        + match m_consensusHealth metrics with Critical => 1 | _ => 0 end
        + (if (pendingTransactionsCritical <? m_pendingTransactions metrics)%nat
           then 1 else 0)
        + (if Qgtb (m_averageBlockTime metrics) blockTimeCritical
              || Qgtb (m_averageBlockTime metrics) blockTimeWarning
           then 1 else 0)
        + (if (m_activeNodes metrics <? 3)%nat then 1 else 0))%nat.
Proof.
  unfold healthOfMetrics.
  generalize (m_chainValidity metrics), (m_consensusHealth metrics),
    (pendingTransactionsCritical <? m_pendingTransactions metrics)%nat,
    (Qgtb (m_averageBlockTime metrics) blockTimeCritical),
    (Qgtb (m_averageBlockTime metrics) blockTimeWarning),
    (m_activeNodes metrics <? 3)%nat.
  intros valid health backlog slow elevated few.
  destruct valid; prune; destruct health; prune; destruct backlog; prune;
   destruct slow; prune; destruct elevated; prune; destruct few; prune;
    split; reflexivity.
Qed.

(** X28. [detectAnomalies] and [getBlockchainHealth] read the same metrics
    and agree: when an anomaly is reported the overall health is not
    'healthy' and there are at least as many issues as anomalies; the
    overall health is 'critical' exactly when an anomaly other than the
    pending backlog is reported, that is a security or consensus anomaly
    or the block-time anomaly of medium severity; and every anomaly carries
    the time of the call. *)
Theorem anomalies_agree_with_health `{Runtime} (now : Z) (st : Store) :
  (detectAnomalies now st <> [] ->
   overall (getBlockchainHealth now st) <> OverallHealthy)
  /\ (List.length (detectAnomalies now st)
      <= List.length (issues (getBlockchainHealth now st)))%nat
  /\ (overall (getBlockchainHealth now st) = OverallCritical
      <-> exists a,
            In a (detectAnomalies now st)
            /\ (a_type a <> Performance \/ a_severity a = Medium))
  /\ (forall a, In a (detectAnomalies now st) -> a_timestamp a = now).
Proof.
  unfold detectAnomalies, getBlockchainHealth.
  generalize (getRealtimeMetrics now st). intros metrics.
  destruct (health_table metrics) as [-> ->].
  unfold anomaliesOfMetrics.
  generalize (show_num (Num (Z.of_nat (m_pendingTransactions metrics)))),
    (show_num (Num (round (m_averageBlockTime metrics)))).
  generalize (m_chainValidity metrics), (m_consensusHealth metrics),
    (pendingTransactionsCritical <? m_pendingTransactions metrics)%nat,
    (Qgtb (m_averageBlockTime metrics) blockTimeCritical),
    (Qgtb (m_averageBlockTime metrics) blockTimeWarning),
    (m_activeNodes metrics <? 3)%nat.
  intros valid health backlog slow elevated few pendingText timeText.
  destruct valid, health, backlog, slow;
    cbn [negb orb app List.length];
    (split; [intros Hne; try discriminate; try (now contradiction Hne);
             now destruct elevated, few|]);
    (split; [destruct elevated, few; cbn [orb]; lia|]);
    (split;
     [split;
      [intros Hc;
       first
         [ eexists; split; [left; reflexivity|];
           cbn [a_type a_severity];
           first [left; discriminate | right; reflexivity]
         | eexists; split; [right; left; reflexivity|];
           cbn [a_type a_severity];
           first [left; discriminate | right; reflexivity]
         | destruct elevated, few; discriminate ]
      | intros [a [Hin Ha]]; cbn [In] in Hin;
        repeat (destruct Hin as [<-|Hin]);
        try contradiction; try reflexivity;
        cbn [a_type a_severity] in Ha;
        destruct Ha as [Ha|Ha]; try discriminate; now contradiction Ha ]
     | intros a Hin; cbn [In] in Hin;
       repeat (destruct Hin as [<-|Hin]); try contradiction; reflexivity ]).
Qed.

Lemma hourlyVolume_sum (counts : list nat) (n : nat) :
  fold_right Nat.add 0%nat (counts ++ repeat 0%nat n)
  = fold_right Nat.add 0%nat counts.
Proof.
  induction counts as [|c rest IH]; cbn [app fold_right].
  - induction n as [|n IH]; [reflexivity|]. cbn [repeat fold_right]. exact IH.
  - now rewrite IH.
Qed.

Lemma slice_last_length (n : nat) (chain : list BlockchainBlock) :
  List.length (slice_last n chain) = Nat.min n (List.length chain).
Proof. unfold slice_last. rewrite length_skipn. lia. Qed.

(** X29. The figures of [getTransactionAnalytics]: [hourlyVolume] always
    has 24 entries, which are the transaction counts of the last 24 blocks
    of the chain in chain order, followed by zeros when the chain is
    shorter, so they add up to the transactions of those blocks; the
    success rate is the confirmed share of the pool in percent, between 0
    and 100, and 0 for an empty pool; the type distribution is the one of
    [getTransactionStats]. *)
Theorem analytics_figures (st : Store) :
  List.length (an_hourlyVolume (getTransactionAnalytics st)) = 24%nat
  /\ firstn (Nat.min 24 (List.length (getBlockchain st)))
       (an_hourlyVolume (getTransactionAnalytics st))
     = map txCount (slice_last 24 (getBlockchain st))
  /\ (forall i,
        (Nat.min 24 (List.length (getBlockchain st)) <= i < 24)%nat ->
        nth_error (an_hourlyVolume (getTransactionAnalytics st)) i = Some 0%nat)
  /\ fold_right Nat.add 0%nat (an_hourlyVolume (getTransactionAnalytics st))
     = fold_right Nat.add 0%nat
         (map txCount (slice_last 24 (getBlockchain st)))
  /\ (0 <= an_successRate (getTransactionAnalytics st))%Q
  /\ (an_successRate (getTransactionAnalytics st) <= 100)%Q
  /\ (getTransactionPool st = [] ->
      an_successRate (getTransactionAnalytics st) = 0%Q)
  /\ an_typeDistribution (getTransactionAnalytics st)
     = transactionsByType (getTransactionStats st).
Proof.
  unfold getTransactionAnalytics. cbv zeta.
  cbn [an_hourlyVolume an_successRate an_typeDistribution].
  unfold hourlyVolumeOf. cbv zeta. fold txCount.
  change (fun block : BlockchainBlock =>
            match b_transactions block with
            | Some txs => List.length txs
            | None => 0%nat
            end) with txCount.
  set (chain := getBlockchain st).
  set (counts := map txCount (slice_last 24 chain)).
  assert (Hcounts : List.length counts = Nat.min 24 (List.length chain)).
  { subst counts. now rewrite length_map, slice_last_length. }
  split; [rewrite length_app, repeat_length; lia|].
  split.
  { rewrite <- Hcounts, firstn_app, Nat.sub_diag, firstn_all.
    cbn [firstn]. apply app_nil_r. }
  split.
  { intros i Hi. rewrite nth_error_app2 by lia.
    apply nth_error_repeat. lia. }
  split; [apply hourlyVolume_sum|].
  unfold getTransactionStats. cbv zeta.
  cbn [totalTransactions confirmedTransactions transactionsByType].
  set (pool := getTransactionPool st).
  assert (Hle : (count_status Confirmed pool <= List.length pool)%nat)
    by apply filter_length_le.
  destruct (Nat.ltb_spec 0 (List.length pool)) as [Hpos|Hzero].
  - assert (Hq : (0 < inject_Z (Z.of_nat (List.length pool)))%Q).
    { change (inject_Z 0 < inject_Z (Z.of_nat (List.length pool)))%Q.
      rewrite <- Zlt_Qlt. lia. }
    split.
    { apply Qmult_le_0_compat; [|discriminate].
      apply Qle_shift_div_l; [assumption|].
      rewrite Qmult_0_l.
      change (inject_Z 0
              <= inject_Z (Z.of_nat (count_status Confirmed pool)))%Q.
      rewrite <- Zle_Qle. lia. }
    split.
    { apply Qle_trans with (1 * 100)%Q; [|discriminate].
      apply Qmult_le_compat_r; [|discriminate].
      apply Qle_shift_div_r; [assumption|].
      rewrite Qmult_1_l, <- Zle_Qle. lia. }
    split; [|reflexivity].
    intros Hnil. rewrite Hnil in Hpos. cbn [List.length] in Hpos. lia.
  - split; [discriminate|]. split; [discriminate|]. split; reflexivity.
Qed.

(** ** NINService: checked properties *)

Lemma is_digit_spec (c : ascii) :
  NINService.is_digit c = true
  <-> In c (list_ascii_of_string "0123456789").
Proof.
  split.
  - destruct c as [[] [] [] [] [] [] [] []]; intros Hd;
      try discriminate Hd;
      cbn [list_ascii_of_string In];
      repeat (first [left; reflexivity | right]).
  - cbn [list_ascii_of_string In].
    intros [<-|[<-|[<-|[<-|[<-|[<-|[<-|[<-|[<-|[<-|[]]]]]]]]]]]; reflexivity.
Qed.

Lemma digits_spec : forall n s,
  NINService.digits n s = true
  <-> String.length s = n
      /\ Forall (fun c => In c (list_ascii_of_string "0123456789"))
           (list_ascii_of_string s).
Proof.
  induction n as [|n IH]; intros [|c rest]; cbn [NINService.digits
    String.length list_ascii_of_string].
  - split; [intros _; split; [reflexivity|constructor]|reflexivity].
  - split; [discriminate|intros [Hl _]; discriminate].
  - split; [discriminate|intros [Hl _]; discriminate].
  - rewrite andb_true_iff, IH, is_digit_spec. split.
    + intros [Hc [Hl Hall]]. split; [now f_equal|now constructor].
    + intros [Hl Hall]. inversion Hall; subst. injection Hl as Hl. tauto.
Qed.

(** X30. [validateNIN] accepts a NIN only when it consists of exactly
    eleven digits.  Online, every NIN of that form is accepted without
    voter data and the registry is neither read nor written; offline, a
    NIN of that form is accepted unless a non-empty record is stored under
    its hash that cannot be opened, with the voter data of the record when
    it can and without voter data when there is none, and the registry is
    initialised.  The errors 'NIN not found in NIMC database.' and
    'Invalid NIN format.' are never returned. *)
Theorem accepted_nin_has_eleven_digits `{Runtime} `{NINService.Vault}
    (nin : string) (isOnline : bool) (registry : NINService.Registry) :
  (NINService.nr_valid (fst (NINService.validateNIN nin isOnline registry))
   = true ->
   String.length nin = 11%nat
   /\ Forall (fun c => In c (list_ascii_of_string "0123456789"))
        (list_ascii_of_string nin))
  /\ (NINService.isValidNINFormat nin = true ->
      NINService.validateNIN nin true registry
      = (NINService.mkNINResult true None None, registry))
  /\ (NINService.isValidNINFormat nin = true ->
      NINService.validateNIN nin false registry
      = (match NINService.voterRecordOf (NINService.hashNIN nin) registry with
         | Some blob =>
             if str_truthy blob
             then
               match NINService.openRecord blob with
               | Some voterData =>
                   NINService.mkNINResult true (Some voterData) None
               | None =>
                   NINService.mkNINResult false None
                     (Some "Offline NIN validation failed.")
               end
             else NINService.mkNINResult true None None
         | None => NINService.mkNINResult true None None
         end,
         NINService.initialize registry))
  /\ NINService.nr_error
       (fst (NINService.validateNIN nin isOnline registry))
     <> Some "NIN not found in NIMC database."
  /\ NINService.nr_error
       (fst (NINService.validateNIN nin isOnline registry))
     <> Some "Invalid NIN format.".
Proof.
  unfold NINService.validateNIN, NINService.validateNINOnline,
    NINService.validateNINOffline. cbv zeta.
  split.
  { intros Hvalid. apply digits_spec.
    fold (NINService.isValidNINFormat nin).
    destruct (NINService.isValidNINFormat nin); [reflexivity|].
    cbn [negb fst NINService.nr_valid] in Hvalid. discriminate. }
  split; [intros ->; reflexivity|].
  split.
  { intros ->. cbn [negb].
    destruct (NINService.voterRecordOf _ registry) as [blob|];
      [|reflexivity].
    destruct (str_truthy blob); [|reflexivity].
    now destruct (NINService.openRecord blob). }
  destruct (NINService.isValidNINFormat nin); cbn [negb];
    [|split; discriminate].
  destruct isOnline; [split; discriminate|].
  destruct (NINService.voterRecordOf _ registry) as [blob|];
    [|split; discriminate].
  destruct (str_truthy blob); [|split; discriminate].
  destruct (NINService.openRecord blob); split; discriminate.
Qed.
